(** * Oli3D admin manager: catalog validation, mutation routes and the
      commit gate of [admin.py], embedded as Rocq functions.

    The development follows the layout of [admin.py]:
    - [Text]: the [str] methods the routes call that depend on the text
      alone ([strip], [split], [replace], iteration);
    - [Num]: [int()] and [float()] on ASCII text, for the sample requests;
    - [Json]: the values [json.load] produces, Python's truth test, [==] and
      hashability on them, and [dict] as an insertion-ordered association
      list;
    - the request monad [M] over the persisted [world];
    - the JSON helpers, the git helpers, [validate_database] and the routes.

    A [str] is modelled by the [string] of its bytes in UTF-8, a lone
    surrogate (which [json.load] can produce) by the three bytes that
    generalized UTF-8 gives it.  The white space of [strip] is that of
    [str.isspace], in one, two or three bytes.  The built-ins whose answer
    rests on the Unicode tables of the interpreter, [str.lower], [int()] and
    [float()], are taken from the environment of a request. *)

From Stdlib Require Import String Ascii List Bool ZArith NArith Lia.
From Stdlib Require Import Floats.SpecFloat.
From Stdlib Require DecimalString.
Import ListNotations.

Set Warnings "-register-all".
Local Open Scope string_scope.
Local Open Scope list_scope.

(* ================================================================== *)
(** ** Text: the [str] methods used by the routes                      *)
(* ================================================================== *)

Module Text.

(** [str.isspace] on a character of one byte: tab, line feed, vertical
    tab, form feed, carriage return, the separators 0x1c-0x1f and the
    space. *)
Definition space1 (a : ascii) : bool :=
  let n := nat_of_ascii a in
  (((9 <=? n) && (n <=? 13)) || ((28 <=? n) && (n <=? 32)))%nat.

(** [str.isspace] on a character of two bytes: U+0085 and U+00A0. *)
Definition space2 (a b : ascii) : bool :=
  let m := nat_of_ascii b in
  ((nat_of_ascii a =? 194) && ((m =? 133) || (m =? 160)))%nat.

(** [str.isspace] on a character of three bytes: U+1680; U+2000 to
    U+200A, U+2028, U+2029 and U+202F; U+205F; U+3000. *)
Definition space3 (a b c : ascii) : bool :=
  let l := nat_of_ascii a in
  let m := nat_of_ascii b in
  let n := nat_of_ascii c in
  (((l =? 225) && (m =? 154) && (n =? 128))
   || ((l =? 226) && (m =? 128)
       && (((128 <=? n) && (n <=? 138))
           || (n =? 168) || (n =? 169) || (n =? 175)))
   || ((l =? 226) && (m =? 129) && (n =? 159))
   || ((l =? 227) && (m =? 128) && (n =? 128)))%nat.

(** A byte that continues a character: 0x80-0xbf. *)
Definition is_continuation (a : ascii) : bool :=
  let n := nat_of_ascii a in ((128 <=? n) && (n <=? 191))%nat.

(** What follows the white-space character the text starts with, if it
    starts with one. *)
Definition after_space (s : string) : option string :=
  match s with
  | String a r1 =>
      if space1 a then Some r1
      else
        match r1 with
        | String b r2 =>
            if space2 a b then Some r2
            else
              match r2 with
              | String c r3 => if space3 a b c then Some r3 else None
              | EmptyString => None
              end
        | EmptyString => None
        end
  | EmptyString => None
  end.

Definition newline : ascii := ascii_of_nat 10.
Definition comma : ascii := ","%char.

Definition is_empty (s : string) : bool :=
  match s with EmptyString => true | String _ _ => false end.

(** [s.lstrip()]: the text from its first character that is no white
    space. *)
Fixpoint lstrip (s : string) : string :=
  match s with
  | String a r1 =>
      if space1 a then lstrip r1
      else
        match r1 with
        | String b r2 =>
            if space2 a b then lstrip r2
            else
              match r2 with
              | String c r3 => if space3 a b c then lstrip r3 else s
              | EmptyString => s
              end
        | EmptyString => s
        end
  | EmptyString => EmptyString
  end.

(** [s.rstrip()]: the text up to the white space it ends with, which is
    the longest end of the text made of white space only. *)
Fixpoint rstrip (s : string) : string :=
  match s with
  | EmptyString => EmptyString
  | String c s' =>
      if is_empty (lstrip s) then EmptyString else String c (rstrip s')
  end.

(** [s.strip()] *)
Definition strip (s : string) : string := rstrip (lstrip s).

(** [s.split(sep)] for a one-byte separator, with the segment being read
    kept in [cur]: the result always has at least one segment. *)
Fixpoint split_from (sep : ascii) (cur : string) (s : string) : list string :=
  match s with
  | EmptyString => [cur]
  | String c s' =>
      if Ascii.eqb c sep then cur :: split_from sep EmptyString s'
      else split_from sep (cur ++ String c EmptyString) s'
  end.

Definition split (sep : ascii) (s : string) : list string :=
  split_from sep EmptyString s.

(** [s.replace(a, b)] for one-byte [a] and [b]. *)
Fixpoint replace (a b : ascii) (s : string) : string :=
  match s with
  | EmptyString => EmptyString
  | String c s' => String (if Ascii.eqb c a then b else c) (replace a b s')
  end.

(** The characters after the one being read, [cur]: a byte that
    continues a character joins it, any other byte starts the next. *)
Fixpoint chars_from (cur : string) (s : string) : list string :=
  match s with
  | EmptyString => [cur]
  | String c s' =>
      if is_continuation c then chars_from (cur ++ String c EmptyString) s'
      else cur :: chars_from (String c EmptyString) s'
  end.

(** The characters of a text, as Python iterates over it. *)
Definition chars (s : string) : list string :=
  match s with
  | EmptyString => []
  | String c s' => chars_from (String c EmptyString) s'
  end.

(** No character is a lone surrogate (bytes 0xed 0xa0-0xbf ...): the text
    can be written in UTF-8. *)
Fixpoint encodable (s : string) : bool :=
  match s with
  | String a r =>
      match r with
      | String b _ =>
          if ((nat_of_ascii a =? 237) && (160 <=? nat_of_ascii b))%nat
          then false else encodable r
      | EmptyString => true
      end
  | EmptyString => true
  end.

(** What [str.lower] does to a text of ASCII characters: the letters A
    to Z are lowered, every other byte is kept. *)
Definition lower_char (c : ascii) : ascii :=
  let n := nat_of_ascii c in
  if ((65 <=? n) && (n <=? 90))%nat then ascii_of_nat (n + 32) else c.

Fixpoint ascii_lower (s : string) : string :=
  match s with
  | EmptyString => EmptyString
  | String c s' => String (lower_char c) (ascii_lower s')
  end.

(** The text does not start in the middle of a character. *)
Definition starts_clean (s : string) : bool :=
  match s with
  | String a _ => negb (is_continuation a)
  | EmptyString => true
  end.

(** A text made of white-space characters only. *)
Inductive blank : string -> Prop :=
| blank_empty : blank EmptyString
| blank_space (s r : string) : after_space s = Some r -> blank r -> blank s.

(** The text holds no byte [sep]. *)
Fixpoint without (sep : ascii) (p : string) : bool :=
  match p with
  | EmptyString => true
  | String c p' => negb (Ascii.eqb c sep) && without sep p'
  end.

(** The lines with a line feed between them. *)
Fixpoint join (lines : list string) : string :=
  match lines with
  | [] => EmptyString
  | [line] => line
  | line :: rest => line ++ String newline (join rest)
  end.

End Text.

(* ================================================================== *)
(** ** Num: [int(text)] and [float(text)] on ASCII numerals            *)
(* ================================================================== *)

(** The routes take [int()] and [float()] from the environment of the
    request.  This module is what the two built-ins do with a text whose
    digits are the ASCII ones, with any white space around it; it is the
    interpreter of the sample requests.  A text with a decimal digit of
    another script, which the built-ins read as well, is not a sample. *)
Module Num.

Definition digit_of (c : ascii) : option N :=
  let n := nat_of_ascii c in
  if ((48 <=? n) && (n <=? 57))%nat then Some (N.of_nat (n - 48)) else None.

Definition is_digit (c : ascii) : bool :=
  match digit_of c with Some _ => true | None => false end.

Definition underscore : ascii := "_"%char.

(** The digits of the longest prefix [digit (["_"] digit)*], and what
    follows it.  An underscore is only passed when a digit follows. *)
Fixpoint digit_run (s : string) : list N * string :=
  match s with
  | EmptyString => ([], EmptyString)
  | String c s' =>
      match digit_of c with
      | Some d => let (ds, r) := digit_run s' in (d :: ds, r)
      | None =>
          if Ascii.eqb c underscore then
            match s' with
            | String c2 _ => if is_digit c2 then digit_run s' else ([], s)
            | EmptyString => ([], s)
            end
          else ([], s)
      end
  end.

(** [digitpart]: a digit run that starts with a digit. *)
Definition digitpart (s : string) : option (list N * string) :=
  match s with
  | String c _ => if is_digit c then Some (digit_run s) else None
  | EmptyString => None
  end.

Definition value_of (ds : list N) : N :=
  fold_left (fun acc d => (10 * acc + d)%N) ds 0%N.

(** An optional sign: [true] for "-". *)
Definition sign (s : string) : bool * string :=
  match s with
  | String "-"%char s' => (true, s')
  | String "+"%char s' => (false, s')
  | _ => (false, s)
  end.

(** [sys.get_int_max_str_digits()]: longer decimal texts are refused by
    [int()] with a ValueError. *)
Definition int_max_str_digits : nat := 4300.

(** A separator 0x1c-0x1f: white space for [strip], but not for [int()]
    and [float()], which refuse a text that holds one anywhere. *)
Definition is_separator (c : ascii) : bool :=
  let n := nat_of_ascii c in ((28 <=? n) && (n <=? 31))%nat.

Fixpoint has_separator (s : string) : bool :=
  match s with
  | EmptyString => false
  | String c s' => is_separator c || has_separator s'
  end.

(** The text between the white space [int()] and [float()] ignore. *)
Definition trim (text : string) : option string :=
  if has_separator text then None else Some (Text.strip text).

(** [int(text)]: surrounding white space is ignored, then an optional sign
    and one [digitpart] up to the end.  [None] stands for ValueError. *)
Definition py_int (text : string) : option Z :=
  match trim text with
  | None => None
  | Some trimmed =>
      let (neg, body) := sign trimmed in
      match digitpart body with
      | Some (ds, EmptyString) =>
          if (length ds <=? int_max_str_digits)%nat then
            let v := Z.of_N (value_of ds) in
            Some (if neg then Z.opp v else v)
          else None
      | _ => None
      end
  end.

(** Binary64. *)
Definition prec : Z := 53.
Definition emax : Z := 1024.

(** The double nearest to [(-1)^neg * m * 10^e] (ties to even), with
    overflow to infinity and underflow to zero. *)
Definition round_decimal (neg : bool) (m : N) (e : Z) : spec_float :=
  match m with
  | N0 => S754_zero neg
  | Npos p =>
      match e with
      | Zneg k =>
          SFdiv prec emax (S754_finite neg p 0)
                          (S754_finite false (Pos.pow 10 k) 0)
      | _ =>
          binary_normalize prec emax
            ((if neg then Zneg p else Zpos p) * 10 ^ e) 0 neg
      end
  end.

(** [number ::= [digitpart] "." digitpart | digitpart ["."]]: the digits
    read and how many of them stand after the point. *)
Definition number (s : string) : option (list N * nat * string) :=
  match digitpart s with
  | Some (ip, String "."%char r) =>
      match digitpart r with
      | Some (fp, r') => Some (ip ++ fp, length fp, r')
      | None => Some (ip, 0, r)
      end
  | Some (ip, r) => Some (ip, 0, r)
  | None =>
      match s with
      | String "."%char r =>
          match digitpart r with
          | Some (fp, r') => Some (fp, length fp, r')
          | None => None
          end
      | _ => None
      end
  end.

(** [exponent ::= ("e" | "E") ["+" | "-"] digitpart], up to the end of the
    text; an empty rest is exponent 0. *)
Definition exponent (s : string) : option Z :=
  match s with
  | EmptyString => Some 0%Z
  | String c r =>
      if Ascii.eqb c "e"%char || Ascii.eqb c "E"%char then
        let (neg, r') := sign r in
        match digitpart r' with
        | Some (ds, EmptyString) =>
            let v := Z.of_N (value_of ds) in
            Some (if neg then Z.opp v else v)
        | _ => None
        end
      else None
  end.

(** [float(text)]: surrounding white space is ignored; an optional sign,
    then "inf", "infinity" or "nan" in any case, or a decimal number with
    an optional exponent.  [None] stands for ValueError. *)
Definition py_float (text : string) : option spec_float :=
  match trim text with
  | None => None
  | Some trimmed =>
      let (neg, body) := sign trimmed in
      let word := Text.ascii_lower body in
      if String.eqb word "inf" || String.eqb word "infinity" then
        Some (S754_infinity neg)
      else if String.eqb word "nan" then Some S754_nan
      else
        match number body with
        | Some (ds, nfrac, r) =>
            match exponent r with
            | Some e =>
                Some (round_decimal neg (value_of ds) (e - Z.of_nat nfrac))
            | None => None
            end
        | None => None
        end
  end.

(** [str(n)] for an integer. *)
Definition str_of_Z (z : Z) : string :=
  DecimalString.NilZero.string_of_int (Z.to_int z).

End Num.

(* ================================================================== *)
(** ** Json: the values of the catalog files                           *)
(* ================================================================== *)

Module Json.

(** What [json.load] builds: [None], [bool], [int], [float], [str], [list]
    and [dict] (keys in insertion order). *)
Inductive json : Type :=
| JNull
| JBool (b : bool)
| JInt (z : Z)
| JFloat (f : spec_float)
| JStr (s : string)
| JList (l : list json)
| JDict (d : list (string * json)).

Definition dict : Type := list (string * json).

(** The value stored under a key, if the key is there. *)
Fixpoint lookup (k : string) (d : dict) : option json :=
  match d with
  | [] => None
  | (k', v) :: d' => if String.eqb k' k then Some v else lookup k d'
  end.

(** [d.get(k, default)] *)
Definition get_default (k : string) (default : json) (d : dict) : json :=
  match lookup k d with Some v => v | None => default end.

(** [d.get(k)]: [None] when the key is absent. *)
Definition get (k : string) (d : dict) : json := get_default k JNull d.

(** [k in d] *)
Definition contains (k : string) (d : dict) : bool :=
  match lookup k d with Some _ => true | None => false end.

(** [d[k] = v]: an existing key keeps its place, a new one goes last. *)
Fixpoint setitem (k : string) (v : json) (d : dict) : dict :=
  match d with
  | [] => [(k, v)]
  | (k', v') :: d' =>
      if String.eqb k' k then (k, v) :: d' else (k', v') :: setitem k v d'
  end.

(** [del d[k]] *)
Definition delitem (k : string) (d : dict) : dict :=
  filter (fun kv => negb (String.eqb (fst kv) k)) d.

Definition float_is_zero (f : spec_float) : bool :=
  match f with S754_zero _ => true | _ => false end.

(** [bool(v)]: Python's truth test. *)
Definition truthy (v : json) : bool :=
  match v with
  | JNull => false
  | JBool b => b
  | JInt z => negb (Z.eqb z 0)
  | JFloat f => negb (float_is_zero f)
  | JStr s => negb (Text.is_empty s)
  | JList l => match l with [] => false | _ => true end
  | JDict d => match d with [] => false | _ => true end
  end.

(** [float == int], exactly. *)
Definition float_eq_Z (f : spec_float) (z : Z) : bool :=
  match f with
  | S754_zero _ => Z.eqb z 0
  | S754_finite s m e =>
      let sm := if s then Zneg m else Zpos m in
      if (0 <=? e)%Z then Z.eqb z (sm * 2 ^ e)
      else Z.eqb (z * 2 ^ (- e)) sm
  | _ => false
  end.

Definition Z_of_bool (b : bool) : Z := if b then 1%Z else 0%Z.

(** [a == b] between two values of which one at least is [None], a number
    or a string.  [bool], [int] and [float] compare by value; a NaN is
    equal to nothing. *)
Definition py_eq (a b : json) : bool :=
  match a, b with
  | JNull, JNull => true
  | JStr s, JStr t => String.eqb s t
  | JBool x, JBool y => Bool.eqb x y
  | JBool x, JInt z | JInt z, JBool x => Z.eqb (Z_of_bool x) z
  | JBool x, JFloat f | JFloat f, JBool x => float_eq_Z f (Z_of_bool x)
  | JInt x, JInt y => Z.eqb x y
  | JInt z, JFloat f | JFloat f, JInt z => float_eq_Z f z
  | JFloat f, JFloat g => SFeqb f g
  | _, _ => false
  end.

(** [hash(v)] succeeds: lists and dicts are unhashable. *)
Definition hashable (v : json) : bool :=
  match v with
  | JList _ | JDict _ => false
  | _ => true
  end.

Definition is_nan (v : json) : bool :=
  match v with JFloat S754_nan => true | _ => false end.

(** What a set compares with: the same object, or an equal one.  Among
    the values of a loaded file the only case apart from [==] is NaN:
    every NaN that [json.load] returns is the one object
    [json.decoder.NaN]. *)
Definition same_or_equal (a b : json) : bool :=
  (is_nan a && is_nan b) || py_eq a b.

(** A [set] of hashable values. *)
Definition pyset : Type := list json.

Definition set_mem (v : json) (s : pyset) : bool :=
  existsb (same_or_equal v) s.

Definition set_add (v : json) (s : pyset) : pyset :=
  if set_mem v s then s else s ++ [v].

(** [json.dump(v, f, ensure_ascii=False)] into a UTF-8 file writes all of
    [v]: no text in it, key or value, holds a lone surrogate. *)
Fixpoint dumpable (v : json) : bool :=
  match v with
  | JStr s => Text.encodable s
  | JList l => forallb dumpable l
  | JDict d =>
      forallb (fun kv => Text.encodable (fst kv) && dumpable (snd kv)) d
  | _ => true
  end.

End Json.

Import Json.

(* ================================================================== *)
(** ** Exceptions, the persisted world and the request monad           *)
(* ================================================================== *)

Inductive exn : Type :=
| KeyError              (** [d[k]] on an absent key *)
| TypeError             (** unhashable or not iterable *)
| ValueError            (** [float(text)] on text that is no number *)
| BadRequestKeyError    (** [request.form[k]] on an absent field *)
| UnicodeEncodeError.   (** [json.dump] on a text with a lone surrogate *)

Inductive res (A : Type) : Type :=
| Ok (a : A)
| Raise (e : exn).
Arguments Ok {A} a.
Arguments Raise {A} e.

(** What lives outside one request: the two catalog files under [db/] (a
    missing or unreadable file loads as the empty list) and the commands
    handed to [subprocess.run] so far, oldest first. *)
Record world : Type := mkWorld {
  products_file : list dict;
  categories_file : list dict;
  subprocess_calls : list (list string)
}.

(** A computation of one request: it may read and write the world, and
    ends with a value or an exception; the world is kept either way. *)
Definition M (A : Type) : Type := world -> res A * world.

Definition ret {A} (a : A) : M A := fun w => (Ok a, w).

Definition raise {A} (e : exn) : M A := fun w => (Raise e, w).

Definition bind {A B} (m : M A) (k : A -> M B) : M B :=
  fun w =>
    match m w with
    | (Ok a, w') => k a w'
    | (Raise e, w') => (Raise e, w')
    end.

(** A pure step that may raise. *)
Definition lift {A} (r : res A) : M A := fun w => (r, w).

Declare Scope monad_scope.
Delimit Scope monad_scope with monad.
Notation "x <- m ;; k" := (bind m (fun x => k))
  (at level 61, m at next level, right associativity) : monad_scope.
Notation "m ;;; k" := (bind m (fun _ => k))
  (at level 61, right associativity) : monad_scope.
Local Open Scope monad_scope.

Definition res_bind {A B} (r : res A) (k : A -> res B) : res B :=
  match r with
  | Ok a => k a
  | Raise e => Raise e
  end.

Notation "'let?' x ':=' r 'in' k" := (res_bind r (fun x => k))
  (at level 10, x name, r at level 100, k at level 200) : monad_scope.

(** [for x in xs: st = body(st, x)], stopping at the first exception. *)
Fixpoint for_each {S X} (body : S -> X -> res S) (xs : list X) (st : S)
  : res S :=
  match xs with
  | [] => Ok st
  | x :: xs' => res_bind (body st x) (for_each body xs')
  end.

(** [d[k]] *)
Definition getitem (k : string) (d : dict) : res json :=
  match lookup k d with Some v => Ok v | None => Raise KeyError end.

(** [v in s] for a set [s]: the value is hashed first. *)
Definition set_contains (v : json) (s : pyset) : res bool :=
  if hashable v then Ok (set_mem v s) else Raise TypeError.

(** [iter(v)] as a [for] loop walks it: the items of a list, the
    characters of a string, the keys of a dict. *)
Definition py_iter (v : json) : res (list json) :=
  match v with
  | JList l => Ok l
  | JStr s => Ok (map JStr (Text.chars s))
  | JDict d => Ok (map (fun kv => JStr (fst kv)) d)
  | _ => Raise TypeError
  end.

(* ------------------------------------------------------------------ *)
(** *** JSON helpers                                                    *)

Definition load_products : M (list dict) :=
  fun w => (Ok (products_file w), w).

(** All the records can be written. *)
Definition writable (records : list dict) : bool :=
  forallb (fun r => dumpable (JDict r)) records.

(** [open(..., 'w')] empties the file, then [json.dump] writes the
    records.  When a text cannot be encoded the write raises and what is
    left is the start of a JSON document, which loads as the empty
    list. *)
Definition save_products (products : list dict) : M unit :=
  fun w =>
    if writable products then
      (Ok tt, mkWorld products (categories_file w) (subprocess_calls w))
    else
      (Raise UnicodeEncodeError,
       mkWorld [] (categories_file w) (subprocess_calls w)).

Definition load_categories : M (list dict) :=
  fun w => (Ok (categories_file w), w).

Definition save_categories (categories : list dict) : M unit :=
  fun w =>
    if writable categories then
      (Ok tt, mkWorld (products_file w) categories (subprocess_calls w))
    else
      (Raise UnicodeEncodeError,
       mkWorld (products_file w) [] (subprocess_calls w)).

(* ------------------------------------------------------------------ *)
(** *** The process environment of one request                          *)

(** What [subprocess.run] gives back: a finished process, or an exception
    of its own (the program could not be started) with its text. *)
Inductive proc_outcome : Type :=
| Completed (returncode : Z) (stdout stderr : string)
| Failed (message : string).

(** What a request reads from outside the catalog: the clock, already
    formatted, how each command ends when run during this request, and
    the built-ins of the interpreter that go by its Unicode tables. *)
Record env : Type := mkEnv {
  now_date : string;               (** [strftime('%Y-%m-%d')] *)
  now_minute : string;             (** [strftime('%Y-%m-%d %H:%M')] *)
  run : list string -> proc_outcome;
  signal_repr : Z -> string;       (** how a fatal signal is printed *)
  str_lower : string -> string;    (** [text.lower()] *)
  str_int : string -> option Z;    (** [int(text)], [None] for ValueError *)
  str_float : string -> option spec_float
                                   (** [float(text)], [None] for ValueError *)
}.

(** [subprocess.run(argv, ...)]: the call is recorded. *)
Definition subprocess_run (e : env) (argv : list string) : M proc_outcome :=
  fun w =>
    (Ok (run e argv),
     mkWorld (products_file w) (categories_file w)
             (subprocess_calls w ++ [argv])).

Definition git_status_argv : list string :=
  ["git"; "status"; "--porcelain"; "db/"].
Definition git_add_argv : list string := ["git"; "add"; "db/"].
Definition git_commit_argv (message : string) : list string :=
  ["git"; "commit"; "-m"; message].

(** [str(e)] of the CalledProcessError that [check=True] raises. *)
Definition called_process_error_str (e : env) (returncode : Z) : string :=
  if (returncode <? 0)%Z then
    "Command '['git', 'add', 'db/']' died with "
      ++ signal_repr e (- returncode) ++ "."
  else
    "Command '['git', 'add', 'db/']' returned non-zero exit status "
      ++ Num.str_of_Z returncode ++ ".".

(* ------------------------------------------------------------------ *)
(** *** Git helpers                                                     *)

(** Check if there are uncommitted changes in db/ folder. *)
Definition has_uncommitted_changes (e : env) : M bool :=
  result <- subprocess_run e git_status_argv ;;
  match result with
  | Completed _ stdout _ => ret (negb (Text.is_empty (Text.strip stdout)))
  | Failed _ => ret false
  end.

(** The body of the JSON answer [{'success': ..., 'message': ...}]. *)
Record outcome : Type := mkOutcome {
  success : bool;
  message : string
}.

(** Commit changes to git. *)
Definition git_commit (e : env) (msg : string) : M outcome :=
  added <- subprocess_run e git_add_argv ;;
  match added with
  | Failed text => ret (mkOutcome false text)
  | Completed rc _ _ =>
      if Z.eqb rc 0 then
        result <- subprocess_run e (git_commit_argv msg) ;;
        match result with
        | Failed text => ret (mkOutcome false text)
        | Completed returncode _ stderr =>
            if Z.eqb returncode 0 then
              ret (mkOutcome true "Cambios guardados correctamente")
            else
              ret (mkOutcome false
                     (if Text.is_empty stderr then "Error al guardar"
                      else stderr))
        end
      else ret (mkOutcome false (called_process_error_str e rc))
  end.

(* ------------------------------------------------------------------ *)
(** *** validate_database                                               *)

(** The texts [validate_database] appends, each with the values its
    f-string prints. *)
Inductive issue : Type :=
| ProductWithoutId                        (** "Producto sin ID encontrado" *)
| DuplicateProductId (id : json)          (** "ID duplicado: {id}" *)
| ProductWithoutName (id : json)          (** "Producto '{id}' sin nombre" *)
| ProductWithoutPrice (id : json)         (** "Producto '{id}' sin precio" *)
| ProductWithoutCategories (name : json)  (** "Producto '{name}' sin categorías" *)
| UnknownCategory (name cat : json)
    (** "Producto '{name}' tiene categoría inexistente: {cat}" *)
| ProductWithoutImage (name : json)       (** "Producto '{name}' sin imagen" *)
| CategoryWithoutId                       (** "Categoría sin ID encontrada" *)
| DuplicateCategoryId (id : json)
    (** "ID de categoría duplicado: {id}" *)
| CategoryWithoutName (id : json).        (** "Categoría '{id}' sin nombre" *)

(** The local variables of [validate_database] inside a loop: [errors],
    [warnings] and the set of ids met ([product_ids], then [cat_ids]). *)
Record vstate : Type := mkV {
  v_errors : list issue;
  v_warnings : list issue;
  v_ids : pyset
}.

Definition add_error (i : issue) (st : vstate) : vstate :=
  mkV (v_errors st ++ [i]) (v_warnings st) (v_ids st).

Definition add_warning (i : issue) (st : vstate) : vstate :=
  mkV (v_errors st) (v_warnings st ++ [i]) (v_ids st).

Definition add_id (v : json) (st : vstate) : vstate :=
  mkV (v_errors st) (v_warnings st) (v_ids st ++ [v]).

(** [category_ids = {c['id'] for c in categories}] *)
Definition category_id_set (categories : list dict) : res pyset :=
  for_each (fun ids c =>
              let? v := getitem "id" c in
              if hashable v then Ok (set_add v ids) else Raise TypeError)
           categories [].

(** [not p.get('price') and p.get('price') != 0] *)
Definition price_missing (p : dict) : bool :=
  negb (truthy (get "price" p)) && negb (py_eq (get "price" p) (JInt 0)).

(** The first [if]/[elif]/[else] of both loops: the id test. *)
Definition check_id (without_id : issue) (duplicate : json -> issue)
           (st : vstate) (r : dict) : res vstate :=
  if negb (truthy (get "id" r)) then Ok (add_error without_id st)
  else
    let? id := getitem "id" r in
    let? met := set_contains id (v_ids st) in
    if met then Ok (add_error (duplicate id) st) else Ok (add_id id st).

(** The [for cat in p.get('categories', [])] loop. *)
Definition check_categories (category_ids : pyset) (p : dict) (st : vstate)
  : res vstate :=
  let? cats := py_iter (get_default "categories" (JList []) p) in
  for_each (fun st cat =>
              let? known := set_contains cat category_ids in
              if negb known then
                Ok (add_error
                      (UnknownCategory (get_default "name" (JStr "?") p) cat)
                      st)
              else Ok st)
           cats st.

(** The body of [for p in products]. *)
Definition check_product (category_ids : pyset) (st : vstate) (p : dict)
  : res vstate :=
  let? st := check_id ProductWithoutId DuplicateProductId st p in
  let st :=
    if negb (truthy (get "name" p)) then
      add_error (ProductWithoutName (get_default "id" (JStr "?") p)) st
    else st in
  let st :=
    if price_missing p then
      add_error (ProductWithoutPrice (get_default "id" (JStr "?") p)) st
    else st in
  let? st :=
    if negb (truthy (get "categories" p)) then
      Ok (add_warning
            (ProductWithoutCategories
               (get_default "name" (get_default "id" (JStr "?") p) p))
            st)
    else check_categories category_ids p st in
  if negb (truthy (get "image" p)) then
    Ok (add_warning (ProductWithoutImage (get_default "name" (JStr "?") p)) st)
  else Ok st.

(** The body of [for c in categories]. *)
Definition check_category (st : vstate) (c : dict) : res vstate :=
  let? st := check_id CategoryWithoutId DuplicateCategoryId st c in
  if negb (truthy (get "name" c)) then
    Ok (add_error (CategoryWithoutName (get_default "id" (JStr "?") c)) st)
  else Ok st.

Record report : Type := mkReport {
  valid : bool;
  errors : list issue;
  warnings : list issue;
  product_count : nat;
  category_count : nat
}.

(** The validator on the two loaded lists. *)
Definition validate (products categories : list dict) : res report :=
  let? category_ids := category_id_set categories in
  let? st := for_each (check_product category_ids) products (mkV [] [] []) in
  let? st := for_each check_category categories
               (mkV (v_errors st) (v_warnings st) []) in
  Ok (mkReport (match v_errors st with [] => true | _ => false end)
               (v_errors st) (v_warnings st)
               (length products) (length categories)).

(** Validate database integrity before commit. *)
Definition validate_database : M report :=
  products <- load_products ;;
  categories <- load_categories ;;
  lift (validate products categories).

(* ------------------------------------------------------------------ *)
(** *** Requests and responses                                          *)

Inductive http_method : Type := GET | POST.

(** [request.method] and [request.form], the fields in the order sent. *)
Record request : Type := mkRequest {
  method : http_method;
  form : list (string * string)
}.

(** [request.form.get(k)] as an option: the first value sent under [k]. *)
Fixpoint form_lookup (k : string) (f : list (string * string))
  : option string :=
  match f with
  | [] => None
  | (k', v) :: f' => if String.eqb k' k then Some v else form_lookup k f'
  end.

(** [request.form[k]] *)
Definition form_getitem (k : string) (rq : request) : res string :=
  match form_lookup k (form rq) with
  | Some v => Ok v
  | None => Raise BadRequestKeyError
  end.

(** [request.form.get(k, default)] *)
Definition form_get (k default : string) (rq : request) : string :=
  match form_lookup k (form rq) with Some v => v | None => default end.

(** [k in request.form] *)
Definition form_contains (k : string) (rq : request) : bool :=
  match form_lookup k (form rq) with Some _ => true | None => false end.

(** [request.form.getlist(k)] *)
Definition form_getlist (k : string) (rq : request) : list string :=
  map snd (filter (fun kv => String.eqb (fst kv) k) (form rq)).

Inductive response : Type :=
| redirect (location : string)
| jsonify (body : outcome)
| jsonify_report (body : report)
| render_product_form (product : option dict) (categories : list dict)
| render_category_form (category : option dict).

(** The answers of the mutation routes: [redirect(...)] with its message. *)
Definition product_exists : response :=
  redirect
    "/?tab=products&message=Ya existe un producto con ese ID&type=error".
Definition product_created : response :=
  redirect
    "/?tab=products&message=Producto creado (recuerda guardar los cambios)".
Definition product_not_found : response :=
  redirect
    "/?tab=products&message=Producto no encontrado&type=error".
Definition product_updated : response :=
  redirect
    "/?tab=products&message=Producto actualizado (recuerda guardar los cambios)".
Definition product_deleted : response :=
  redirect
    "/?tab=products&message=Producto eliminado (recuerda guardar los cambios)".
Definition category_exists : response :=
  redirect
    "/?tab=categories&message=Ya existe una categoría con ese ID&type=error".
Definition category_created : response :=
  redirect
    "/?tab=categories&message=Categoría creada (recuerda guardar los cambios)".
Definition category_not_found : response :=
  redirect
    "/?tab=categories&message=Categoría no encontrada&type=error".
Definition category_updated : response :=
  redirect
    "/?tab=categories&message=Categoría actualizada (recuerda guardar los cambios)".
Definition category_deleted : response :=
  redirect
    "/?tab=categories&message=Categoría eliminada (recuerda guardar los cambios)".

(* ------------------------------------------------------------------ *)
(** *** Routes: validation and commit                                   *)

Definition api_validate : M response :=
  validation <- validate_database ;;
  ret (jsonify_report validation).

Definition commit_message (e : env) : string :=
  "Actualización de productos/categorías - " ++ now_minute e.

Definition api_commit (e : env) : M response :=
  validation <- validate_database ;;
  if negb (valid validation) then
    ret (jsonify (mkOutcome false "La base de datos tiene errores"))
  else
    result <- git_commit e (commit_message e) ;;
    ret (jsonify result).

(* ------------------------------------------------------------------ *)
(** *** Routes: products                                                *)

(** [text.lower().replace(' ', '_')] *)
Definition normalize_id (e : env) (text : string) : string :=
  Text.replace " " "_" (str_lower e text).

(** [any(r['id'] == new_id for r in records)] *)
Fixpoint any_id (new_id : string) (records : list dict) : res bool :=
  match records with
  | [] => Ok false
  | r :: rest =>
      let? id := getitem "id" r in
      if py_eq id (JStr new_id) then Ok true else any_id new_id rest
  end.

(** [next((r for r in records if r['id'] == wanted), None)]: the record
    found, with the records before and after it in the list it is part
    of, so that a change of the record is a change of the list. *)
Fixpoint find_by_id (wanted : string) (records : list dict)
  : res (option (list dict * dict * list dict)) :=
  match records with
  | [] => Ok None
  | r :: rest =>
      let? id := getitem "id" r in
      if py_eq id (JStr wanted) then Ok (Some ([], r, rest))
      else
        let? found := find_by_id wanted rest in
        Ok (match found with
            | Some (before, x, after) => Some (r :: before, x, after)
            | None => None
            end)
  end.

(** [[r for r in records if r['id'] != unwanted]] *)
Fixpoint without_id (unwanted : string) (records : list dict)
  : res (list dict) :=
  match records with
  | [] => Ok []
  | r :: rest =>
      let? id := getitem "id" r in
      let keep := negb (py_eq id (JStr unwanted)) in
      let? rest' := without_id unwanted rest in
      Ok (if keep then r :: rest' else rest')
  end.

Definition default_image : string := "resources/LOGO_SIN_FONDO.png".

(** The "Handle images" block: [images] after the loop. *)
Definition image_list (main_image additional_images : string) : list string :=
  let images := [main_image] in
  let additional := Text.strip additional_images in
  if negb (Text.is_empty additional) then
    fold_left (fun images line =>
                 if negb (Text.is_empty (Text.strip line))
                 then images ++ [Text.strip line] else images)
              (Text.split Text.newline additional) images
  else images.

(** The [try] block of the offers loop for one line: [None] when the line
    has fewer than two parts or [int()] or [float()] raised. *)
Definition offer_of_line (e : env) (line : string) : option dict :=
  let parts := Text.split Text.comma (Text.strip line) in
  if (2 <=? length parts)%nat then
    match str_int e (nth 0 parts "") with
    | None => None
    | Some quantity =>
        match str_float e (nth 1 parts "") with
        | None => None
        | Some price =>
            Some [("quantity", JInt quantity);
                  ("price", JFloat price);
                  ("label",
                   JStr (if (2 <? length parts)%nat then nth 2 parts ""
                         else nth 0 parts "" ++ "+ unidades"))]
        end
    end
  else None.

(** [offers] after [for line in offers_text.split('\n')]. *)
Definition parse_offers (e : env) (offers_text : string) : list dict :=
  fold_left (fun offers line =>
               match offer_of_line e line with
               | Some offer => offers ++ [offer]
               | None => offers
               end)
            (Text.split Text.newline offers_text) [].

Definition json_strings (l : list string) : json := JList (map JStr l).

Definition is_null (v : json) : bool :=
  match v with JNull => true | _ => false end.

Definition is_nil {A} (l : list A) : bool :=
  match l with [] => true | _ => false end.

(** The record [new_product] builds, from the dict literal to the last
    optional key; [name] and [price] are the two fields whose reading may
    raise, read in that order inside the literal. *)
Definition new_product_record (e : env) (rq : request)
           (new_id name : string) (price : spec_float) : dict :=
  (* Handle images *)
  let main_image := form_get "image" default_image rq in
  let images := image_list main_image (form_get "additional_images" "" rq) in
  let product : dict :=
    [("id", JStr new_id);
     ("name", JStr name);
     ("description", JStr (form_get "description" "" rq));
     ("price", JFloat price);
     ("image", JStr main_image);
     ("images",
      if (1 <? length images)%nat then json_strings images else JNull);
     ("highlighted", JBool (form_contains "highlighted" rq));
     ("categories", json_strings (form_getlist "categories" rq));
     ("size", JStr (form_get "size" "" rq));
     ("material", JStr (form_get "material" "PLA" rq));
     ("createdAt", JStr (now_date e))] in
  (* Clean None values *)
  let product :=
    if is_null (get "images" product) then delitem "images" product
    else product in
  let product :=
    if negb (Text.is_empty (form_get "wallapopLink" "" rq)) then
      setitem "wallapopLink" (JStr (form_get "wallapopLink" "" rq)) product
    else product in
  let product :=
    if form_contains "hidden" rq then setitem "hidden" (JBool true) product
    else product in
  let offers_text := Text.strip (form_get "priceOffers" "" rq) in
  if negb (Text.is_empty offers_text) then
    let offers := parse_offers e offers_text in
    if negb (is_nil offers) then
      setitem "priceOffers" (JList (map JDict offers)) product
    else product
  else product.

(** [float(request.form['price'])] *)
Definition form_price (e : env) (rq : request) : res spec_float :=
  let? price_text := form_getitem "price" rq in
  match str_float e price_text with
  | Some f => Ok f
  | None => Raise ValueError
  end.

Definition new_product (e : env) (rq : request) : M response :=
  match method rq with
  | POST =>
      products <- load_products ;;
      raw_id <- lift (form_getitem "id" rq) ;;
      let new_id := normalize_id e raw_id in
      taken <- lift (any_id new_id products) ;;
      if taken then ret product_exists
      else
        name <- lift (form_getitem "name" rq) ;;
        price <- lift (form_price e rq) ;;
        let product := new_product_record e rq new_id name price in
        save_products (products ++ [product]) ;;;
        ret product_created
  | GET =>
      categories <- load_categories ;;
      ret (render_product_form None categories)
  end.

(** [del d[k]] under [elif k in d]. *)
Definition drop_key (k : string) (d : dict) : dict :=
  if contains k d then delitem k d else d.

(** The record [edit_product] leaves in the list: every assignment and
    deletion of the POST branch, in order, on the record found. *)
Definition edited_product (e : env) (rq : request) (name : string)
           (price : spec_float) (product : dict) : dict :=
  let product := setitem "name" (JStr name) product in
  let product :=
    setitem "description" (JStr (form_get "description" "" rq)) product in
  let product := setitem "price" (JFloat price) product in
  (* Handle images *)
  let main_image := form_get "image" default_image rq in
  let product := setitem "image" (JStr main_image) product in
  let images := image_list main_image (form_get "additional_images" "" rq) in
  let product :=
    if (1 <? length images)%nat then
      setitem "images" (json_strings images) product
    else drop_key "images" product in
  let product :=
    setitem "highlighted" (JBool (form_contains "highlighted" rq)) product in
  let product :=
    setitem "categories" (json_strings (form_getlist "categories" rq))
            product in
  let product := setitem "size" (JStr (form_get "size" "" rq)) product in
  let product :=
    setitem "material" (JStr (form_get "material" "PLA" rq)) product in
  let product :=
    if negb (Text.is_empty (form_get "wallapopLink" "" rq)) then
      setitem "wallapopLink" (JStr (form_get "wallapopLink" "" rq)) product
    else drop_key "wallapopLink" product in
  let product :=
    if form_contains "hidden" rq then setitem "hidden" (JBool true) product
    else drop_key "hidden" product in
  let offers_text := Text.strip (form_get "priceOffers" "" rq) in
  if negb (Text.is_empty offers_text) then
    let offers := parse_offers e offers_text in
    if negb (is_nil offers) then
      setitem "priceOffers" (JList (map JDict offers)) product
    else drop_key "priceOffers" product
  else drop_key "priceOffers" product.

Definition edit_product (e : env) (product_id : string) (rq : request)
  : M response :=
  products <- load_products ;;
  found <- lift (find_by_id product_id products) ;;
  match found with
  | None => ret product_not_found
  | Some (before, product, after) =>
      if negb (truthy (JDict product)) then ret product_not_found
      else
        match method rq with
        | POST =>
            name <- lift (form_getitem "name" rq) ;;
            price <- lift (form_price e rq) ;;
            let product := edited_product e rq name price product in
            save_products (before ++ product :: after) ;;;
            ret product_updated
        | GET =>
            categories <- load_categories ;;
            ret (render_product_form (Some product) categories)
        end
  end.

Definition delete_product (product_id : string) : M response :=
  products <- load_products ;;
  products <- lift (without_id product_id products) ;;
  save_products products ;;;
  ret product_deleted.

(* ------------------------------------------------------------------ *)
(** *** Routes: categories                                              *)

Definition default_icon : string := "📦".

(** The record [new_category] builds. *)
Definition new_category_record (rq : request) (new_id name : string) : dict :=
  let category : dict :=
    [("id", JStr new_id);
     ("name", JStr name);
     ("icon", JStr (form_get "icon" default_icon rq));
     ("popular", JBool (form_contains "popular" rq))] in
  let category :=
    if form_contains "seasonal" rq then
      setitem "seasonal" (JBool true) category
    else category in
  if form_contains "hidden" rq then setitem "hidden" (JBool true) category
  else category.

Definition new_category (e : env) (rq : request) : M response :=
  match method rq with
  | POST =>
      categories <- load_categories ;;
      raw_id <- lift (form_getitem "id" rq) ;;
      let new_id := normalize_id e raw_id in
      taken <- lift (any_id new_id categories) ;;
      if taken then ret category_exists
      else
        name <- lift (form_getitem "name" rq) ;;
        let category := new_category_record rq new_id name in
        save_categories (categories ++ [category]) ;;;
        ret category_created
  | GET => ret (render_category_form None)
  end.

(** The record [edit_category] leaves in the list. *)
Definition edited_category (rq : request) (name : string) (category : dict)
  : dict :=
  let category := setitem "name" (JStr name) category in
  let category :=
    setitem "icon" (JStr (form_get "icon" default_icon rq)) category in
  let category :=
    setitem "popular" (JBool (form_contains "popular" rq)) category in
  let category :=
    if form_contains "seasonal" rq then
      setitem "seasonal" (JBool true) category
    else drop_key "seasonal" category in
  if form_contains "hidden" rq then setitem "hidden" (JBool true) category
  else drop_key "hidden" category.

Definition edit_category (category_id : string) (rq : request) : M response :=
  categories <- load_categories ;;
  found <- lift (find_by_id category_id categories) ;;
  match found with
  | None => ret category_not_found
  | Some (before, category, after) =>
      if negb (truthy (JDict category)) then ret category_not_found
      else
        match method rq with
        | POST =>
            name <- lift (form_getitem "name" rq) ;;
            let category := edited_category rq name category in
            save_categories (before ++ category :: after) ;;;
            ret category_updated
        | GET => ret (render_category_form (Some category))
        end
  end.

Definition delete_category (category_id : string) : M response :=
  categories <- load_categories ;;
  categories <- lift (without_id category_id categories) ;;
  save_categories categories ;;;
  ret category_deleted.

(** The category list of the main page: the delete link of a card stands
    under [{% if category.id != 'all' %}]. *)
Definition shows_delete_link (category : dict) : bool :=
  negb (py_eq (get "id" category) (JStr "all")).

(* ================================================================== *)
(** ** The specification's wording, to compare the routes with         *)
(* ================================================================== *)

Module Spec.

Definition nonblank (line : string) : bool :=
  negb (Text.is_empty (Text.strip line)).

(** "zero or more additional image paths (one per input line, blank lines
    skipped)": the lines of the text as entered, each without the white
    space around it. *)
Definition additional_images (text : string) : list string :=
  map Text.strip (filter nonblank (Text.split Text.newline text)).

(** "the primary image plus [the] additional image paths" *)
Definition images (main_image text : string) : list string :=
  main_image :: additional_images text.

(** "each line ... is split on commas into (quantity, price, label?);
    quantity parsed as integer, price as float; a line that fails to parse
    is dropped; label defaults to <quantity>+ unidades when omitted", with
    [default_label] for the default: it is given the text of the quantity
    part and the integer read from it. *)
Definition offer_of_parts (e : env) (default_label : string -> Z -> string)
           (parts : list string) : option dict :=
  match parts with
  | quantity :: price :: rest =>
      match str_int e quantity, str_float e price with
      | Some q, Some p =>
          Some [("quantity", JInt q);
                ("price", JFloat p);
                ("label", JStr (match rest with
                                | label :: _ => label
                                | [] => default_label quantity q
                                end))]
      | _, _ => None
      end
  | _ => None
  end.

(** The default label as the specification writes it: the quantity, then
    "+ unidades". *)
Definition label_of_quantity (part : string) (quantity : Z) : string :=
  Num.str_of_Z quantity ++ "+ unidades".

(** The default label as the routes build it: the text of the quantity
    part as entered, then "+ unidades". *)
Definition label_of_text (part : string) (quantity : Z) : string :=
  part ++ "+ unidades".

Definition offer_with (e : env) (default_label : string -> Z -> string)
           (line : string) : option dict :=
  offer_of_parts e default_label (Text.split Text.comma (Text.strip line)).

Definition kept {A} (o : option A) : list A :=
  match o with Some a => [a] | None => [] end.

(** The offers of a multi-line text, line by line. *)
Definition offers_with (e : env) (default_label : string -> Z -> string)
           (text : string) : list dict :=
  flat_map (fun line => kept (offer_with e default_label line))
           (Text.split Text.newline text).

Definition offer (e : env) (line : string) : option dict :=
  offer_with e label_of_text line.

Definition offers (e : env) (text : string) : list dict :=
  offers_with e label_of_text text.

(** "the images array is the main image followed by the ... additional
    lines; when only the main image exists the images key is entirely
    absent; whenever the images key is present, images[0] equals the
    image field", on a stored record. *)
Definition stores_images (rq : request) (p : dict) : Prop :=
  let main_image := form_get "image" default_image rq in
  let extra := additional_images (form_get "additional_images" "" rq) in
  lookup "image" p = Some (JStr main_image)
  /\ lookup "images" p
     = match extra with
       | [] => None
       | _ => Some (json_strings (images main_image
                                    (form_get "additional_images" "" rq)))
       end
  /\ (forall l, lookup "images" p = Some (JList l) ->
                nth_error l 0 = lookup "image" p).

(** "If the resulting offer list is empty after parsing, the priceOffers
    key is omitted/removed", and it holds the offers otherwise. *)
Definition stores_offers_with (e : env)
           (default_label : string -> Z -> string) (rq : request) (p : dict)
  : Prop :=
  lookup "priceOffers" p
  = match offers_with e default_label (form_get "priceOffers" "" rq) with
    | [] => None
    | kept_offers => Some (JList (map JDict kept_offers))
    end.

Definition stores_offers (e : env) (rq : request) (p : dict) : Prop :=
  stores_offers_with e label_of_text rq p.

(** C9 as the specification states it, for a create: the stored record
    has the offers of the field, a line without a label under the label
    "<quantity>+ unidades". *)
Definition offers_labelled_by_quantity (e : env) (rq : request) (w : world)
  : Prop :=
  forall w',
    new_product e rq w = (Ok product_created, w') ->
    exists p,
      products_file w' = products_file w ++ [p]
      /\ stores_offers_with e label_of_quantity rq p.

(** C3 as the specification states it: with no pending change, a
    checkpoint answers success and runs no command. *)
Definition checkpoint_is_noop_when_clean (e : env) (w : world) : Prop :=
  fst (has_uncommitted_changes e w) = Ok false ->
  (exists text, fst (api_commit e w) = Ok (jsonify (mkOutcome true text)))
  /\ subprocess_calls (snd (api_commit e w)) = subprocess_calls w.

(** The price field of the form is no number. *)
Definition price_unparseable (e : env) (rq : request) : Prop :=
  exists text,
    form_getitem "price" rq = Ok text /\ str_float e text = None.

(** C4 as the specification states it: an unparseable price ends the
    create request with an answer, not an exception, and the catalog is
    as before. *)
Definition invalid_price_is_answered (e : env) (rq : request) (w : world)
  : Prop :=
  method rq = POST -> price_unparseable e rq ->
  exists answer, new_product e rq w = (Ok answer, w).

(** [not r.get('id')] and [not r.get('name')] *)
Definition id_missing (r : dict) : bool := negb (truthy (get "id" r)).
Definition name_missing (r : dict) : bool := negb (truthy (get "name" r)).

(** The errors a product brings on its own, whatever the other records
    are: no id, no name, no price. *)
Definition own_errors_of_product (p : dict) : list issue :=
  (if id_missing p then [ProductWithoutId] else [])
  ++ (if name_missing p
      then [ProductWithoutName (get_default "id" (JStr "?") p)] else [])
  ++ (if price_missing p
      then [ProductWithoutPrice (get_default "id" (JStr "?") p)] else []).

(** The errors a category brings on its own: no id, no name. *)
Definition own_errors_of_category (c : dict) : list issue :=
  (if id_missing c then [CategoryWithoutId] else [])
  ++ (if name_missing c
      then [CategoryWithoutName (get_default "id" (JStr "?") c)] else []).

Definition is_product_without_id (i : issue) : bool :=
  match i with ProductWithoutId => true | _ => false end.

Definition is_category_without_id (i : issue) : bool :=
  match i with CategoryWithoutId => true | _ => false end.

(** The id a duplicate-id error names. *)
Definition duplicate_of (i : issue) : option json :=
  match i with
  | DuplicateProductId id | DuplicateCategoryId id => Some id
  | _ => None
  end.

Definition is_price_issue (i : issue) : bool :=
  match i with ProductWithoutPrice _ => true | _ => false end.

Definition price_key_absent (p : dict) : bool := negb (contains "price" p).

Definition price_issue_of (p : dict) : issue :=
  ProductWithoutPrice (get_default "id" (JStr "?") p).

(** C5 as the specification states it: the missing-price errors of a
    report are those of the products with no price key, one each. *)
Definition price_errors_exactly_for_absent_key
           (products categories : list dict) : Prop :=
  forall rep,
    validate products categories = Ok rep ->
    filter is_price_issue (errors rep)
    = map price_issue_of (filter price_key_absent products).

(** Presence encodes true: the key holds [True] when the flag is set and
    is absent otherwise. *)
Definition presence_encodes (flag : string) (on : bool) (r : dict) : Prop :=
  lookup flag r = (if on then Some (JBool true) else None).

(** C6 as the specification states it, for a create: the three flags of
    the stored category follow the convention. *)
Definition category_flags_by_presence (e : env) (rq : request) (w : world)
  : Prop :=
  forall w',
    new_category e rq w = (Ok category_created, w') ->
    exists c,
      categories_file w' = categories_file w ++ [c]
      /\ presence_encodes "popular" (form_contains "popular" rq) c
      /\ presence_encodes "seasonal" (form_contains "seasonal" rq) c
      /\ presence_encodes "hidden" (form_contains "hidden" rq) c.

(** The flags as the category routes store them: [popular] always, as a
    boolean; [seasonal] and [hidden] by presence. *)
Definition stores_flags (rq : request) (c : dict) : Prop :=
  lookup "popular" c = Some (JBool (form_contains "popular" rq))
  /\ presence_encodes "seasonal" (form_contains "seasonal" rq) c
  /\ presence_encodes "hidden" (form_contains "hidden" rq) c.

(** C7 as the specification states it, for products: a create whose
    normalized id is the id of a stored record is answered with the
    duplicate-id message and changes nothing. *)
Definition duplicate_id_is_rejected (e : env) (rq : request) (w : world)
  : Prop :=
  forall raw r,
    method rq = POST ->
    form_getitem "id" rq = Ok raw ->
    In r (products_file w) ->
    lookup "id" r = Some (JStr (normalize_id e raw)) ->
    new_product e rq w = (Ok product_exists, w).

End Spec.

(* ================================================================== *)
(** ** Sample catalogs and requests                                    *)
(* ================================================================== *)

Module Samples.
Local Open Scope string_scope.

(** A clean working tree: [git status --porcelain db/] prints nothing,
    [git add] succeeds, and [git commit] finds nothing to commit (exit
    status 1, the note on stdout, stderr empty). *)
Definition clean_tree (argv : list string) : proc_outcome :=
  match argv with
  | _ :: command :: _ =>
      if String.eqb command "status" then Completed 0 "" ""
      else if String.eqb command "add" then Completed 0 "" ""
      else if String.eqb command "commit" then
        Completed 1 "nothing to commit, working tree clean" ""
      else Failed "unknown command"
  | _ => Failed "unknown command"
  end.

Definition clean_env : env :=
  mkEnv "2024-05-01" "2024-05-01 10:30" clean_tree
        (fun signal => "unknown signal " ++ Num.str_of_Z signal)
        Text.ascii_lower Num.py_int Num.py_float.

Definition all : dict :=
  [("id", JStr "all"); ("name", JStr "Todo"); ("icon", JStr "📦");
   ("popular", JBool false)].

Definition figuras : dict :=
  [("id", JStr "figuras"); ("name", JStr "Figuras"); ("icon", JStr "📦");
   ("popular", JBool true)].

Definition twelve_fifty : spec_float :=
  S754_finite false 7036874417766400 (-49).

Definition dragon : dict :=
  [("id", JStr "dragon"); ("name", JStr "Dragon");
   ("description", JStr ""); ("price", JFloat twelve_fifty);
   ("image", JStr "products/dragon.jpg");
   ("highlighted", JBool false);
   ("categories", JList [JStr "figuras"]);
   ("size", JStr ""); ("material", JStr "PLA");
   ("createdAt", JStr "2024-04-30")].

(** A catalog without defects. *)
Definition shop : world := mkWorld [dragon] [all; figuras] [].

(** The scenario of the specification: a price of 0, a category that does
    not exist, no image. *)
Definition widget : dict :=
  [("id", JStr "a"); ("name", JStr "Widget"); ("price", JInt 0);
   ("categories", JList [JStr "x"])].

Definition widget_world : world := mkWorld [widget] [] [].

(** A product whose price is [null]. *)
Definition unpriced : dict :=
  [("id", JStr "b"); ("name", JStr "Llavero"); ("price", JNull);
   ("image", JStr "products/llavero.jpg");
   ("categories", JList [JStr "figuras"])].

(** A product without the [price] key. *)
Definition priceless : dict :=
  [("id", JStr "c"); ("name", JStr "Maceta")].

(** A record without the [id] key. *)
Definition nameless : dict := [("name", JStr "Varios")].

Definition line_break : string := String Text.newline "".

(** U+00A0, the no-break space, and U+3000, the ideographic space. *)
Definition no_break_space : string :=
  String (ascii_of_nat 194) (String (ascii_of_nat 160) "").
Definition wide_space : string :=
  String (ascii_of_nat 227)
         (String (ascii_of_nat 128) (String (ascii_of_nat 128) "")).

(** Three lines of additional images with white space around them, a
    line of white space only among them, and a line feed at the end. *)
Definition two_more_images : string :=
  "  products/b.jpg " ++ line_break
  ++ " " ++ no_break_space ++ line_break
  ++ wide_space ++ "products/c.jpg" ++ no_break_space ++ line_break.

(** Six lines of offers, of which three parse: one has a quantity that is
    no integer, one a price that is no number, one nothing at all. *)
Definition six_offer_lines : string :=
  line_break
  ++ " 5,17.5" ++ no_break_space ++ line_break
  ++ "muchos,3" ++ line_break
  ++ "10,15,Pack de diez" ++ line_break
  ++ "20,barato" ++ line_break
  ++ "3,-2".

(** A create request: a new id, two additional images, six offer lines
    of which three parse. *)
Definition create_fenix : request :=
  mkRequest POST
    [("id", "Ave Fenix"); ("name", "Fénix"); ("price", "19.90");
     ("image", "products/a.jpg");
     ("additional_images", two_more_images);
     ("categories", "figuras");
     ("priceOffers", six_offer_lines)].

(** An update request: the same fields, no id. *)
Definition update_fields : request :=
  mkRequest POST
    [("name", "Dragón"); ("price", "14");
     ("image", "products/a.jpg");
     ("additional_images", two_more_images);
     ("priceOffers", six_offer_lines)].

(** A create request with a decimal comma in the price. *)
Definition create_comma_price : request :=
  mkRequest POST [("id", "fenix"); ("name", "Fénix"); ("price", "12,50")].

(** A create request under the id of the dragon. *)
Definition create_dragon_again : request :=
  mkRequest POST [("id", "Dragon"); ("name", "Otro"); ("price", "1")].

(** A category form with the seasonal box ticked and no other. *)
Definition create_navidad : request :=
  mkRequest POST
    [("id", "Navidad 2024"); ("name", "Navidad"); ("icon", "🎄");
     ("seasonal", "on")].

End Samples.

(* ================================================================== *)
(** ** The rest of the git helpers, and views of records and reports   *)
(* ================================================================== *)

(** Get readable git status *)
Definition get_git_status (e : env) : M (list string) :=
  result <- subprocess_run e git_status_argv ;;
  match result with
  | Completed _ stdout _ =>
      let changes :=
        if negb (Text.is_empty (Text.strip stdout))
        then Text.split Text.newline (Text.strip stdout) else [] in
      ret (map Text.strip
               (filter (fun c => negb (Text.is_empty (Text.strip c)))
                       changes))
  | Failed _ => ret []
  end.

Module View.

(** The text holds the character [c], of one byte. *)
Fixpoint has_char (c : ascii) (s : string) : bool :=
  match s with
  | EmptyString => false
  | String a s' => Ascii.eqb a c || has_char c s'
  end.

(** The text ends with a white-space character. *)
Definition ends_with_space (s : string) : Prop :=
  exists before space,
    s = (before ++ space)%string /\ Text.after_space space = Some "".

(** A text that is not empty and has no white space around it: it starts
    with no white-space character, ends with none, and is what [strip]
    gives of it. *)
Definition trimmed (s : string) : Prop :=
  s <> ""
  /\ Text.after_space s = None
  /\ ~ ends_with_space s
  /\ Text.strip s = s.

(** The entry a line of the field gives: the line without the white
    space before and after it. *)
Definition core_of (line entry : string) : Prop :=
  exists before after,
    line = (before ++ entry ++ after)%string
    /\ Text.blank before /\ Text.blank after /\ trimmed entry.

(** The entries the lines give, in order: a line of white space only
    gives none, any other line its core. *)
Inductive picked : list string -> list string -> Prop :=
| picked_nil : picked [] []
| picked_skip (line : string) (lines entries : list string) :
    Text.blank line -> picked lines entries ->
    picked (line :: lines) entries
| picked_take (line entry : string) (lines entries : list string) :
    core_of line entry -> picked lines entries ->
    picked (line :: lines) (entry :: entries).

(** The lines of a text: with a line feed between them they are the
    text, and none of them holds a line feed. *)
Definition lines_of (text : string) (lines : list string) : Prop :=
  Text.join lines = text
  /\ lines <> []
  /\ Forall (fun line => Text.without Text.newline line = true) lines.

(** The images of a stored record, told from the lines of the field
    alone: [image] is the main image, and [images] is the main image and
    then the entries the lines give, or is absent when they give none. *)
Definition images_from_lines (rq : request) (p : dict) : Prop :=
  let main_image := form_get "image" default_image rq in
  exists lines entries,
    lines_of (form_get "additional_images" "" rq) lines
    /\ picked lines entries
    /\ lookup "image" p = Some (JStr main_image)
    /\ lookup "images" p
       = match entries with
         | [] => None
         | _ => Some (json_strings (main_image :: entries))
         end.

(** How a route ends that has come to [save_products(records)] and has
    [answer] to give after it: with the answer and the records in the
    file, or with the exception of the write and the file cut off. *)
Definition products_written (answer : response) (records : list dict)
           (w : world) : res response * world :=
  if writable records then
    (Ok answer, mkWorld records (categories_file w) (subprocess_calls w))
  else
    (Raise UnicodeEncodeError,
     mkWorld [] (categories_file w) (subprocess_calls w)).

(** The same for [save_categories(records)]. *)
Definition categories_written (answer : response) (records : list dict)
           (w : world) : res response * world :=
  if writable records then
    (Ok answer, mkWorld (products_file w) records (subprocess_calls w))
  else
    (Raise UnicodeEncodeError,
     mkWorld (products_file w) [] (subprocess_calls w)).

Definition has_id (r : dict) : bool := contains "id" r.

(** [r['id'] != id], for a record that has an id. *)
Definition other_id (id : string) (r : dict) : bool :=
  negb (py_eq (get "id" r) (JStr id)).

(** The optional keys of a product as the product routes store them:
    [highlighted] always, as a boolean; [hidden] by presence;
    [wallapopLink] when the field is not empty. *)
Definition stores_product_flags (rq : request) (p : dict) : Prop :=
  lookup "highlighted" p = Some (JBool (form_contains "highlighted" rq))
  /\ lookup "hidden" p
     = (if form_contains "hidden" rq then Some (JBool true) else None)
  /\ lookup "wallapopLink" p
     = (if Text.is_empty (form_get "wallapopLink" "" rq) then None
        else Some (JStr (form_get "wallapopLink" "" rq))).

(** The plain fields of a product as the product routes store them, with
    the default of each field that the form may leave out. *)
Definition stores_product_fields (rq : request) (name : string)
           (price : spec_float) (p : dict) : Prop :=
  lookup "name" p = Some (JStr name)
  /\ lookup "description" p = Some (JStr (form_get "description" "" rq))
  /\ lookup "price" p = Some (JFloat price)
  /\ lookup "categories" p
     = Some (json_strings (form_getlist "categories" rq))
  /\ lookup "size" p = Some (JStr (form_get "size" "" rq))
  /\ lookup "material" p = Some (JStr (form_get "material" "PLA" rq)).

(** The keys [edit_product] assigns or deletes. *)
Definition product_keys_written : list string :=
  ["name"; "description"; "price"; "image"; "images"; "highlighted";
   "categories"; "size"; "material"; "wallapopLink"; "hidden";
   "priceOffers"].

(** The keys [edit_category] assigns or deletes. *)
Definition category_keys_written : list string :=
  ["name"; "icon"; "popular"; "seasonal"; "hidden"].

(** The warnings a product brings: no categories, no image. *)
Definition own_warnings_of_product (p : dict) : list issue :=
  (if negb (truthy (get "categories" p))
   then [ProductWithoutCategories
           (get_default "name" (get_default "id" (JStr "?") p) p)]
   else [])
  ++ (if negb (truthy (get "image" p))
      then [ProductWithoutImage (get_default "name" (JStr "?") p)] else []).

(** The errors that compare a record with the others: a duplicate id, a
    category that is not there. *)
Definition is_relational (i : issue) : bool :=
  match i with
  | DuplicateProductId _ | DuplicateCategoryId _ | UnknownCategory _ _ => true
  | _ => false
  end.

Definition is_own (i : issue) : bool := negb (is_relational i).

(** A record with all the fields the validator asks of a product. *)
Definition complete_product (p : dict) : Prop :=
  Spec.id_missing p = false /\ Spec.name_missing p = false
  /\ price_missing p = false.

(** A record with all the fields the validator asks of a category. *)
Definition complete_category (c : dict) : Prop :=
  Spec.id_missing c = false /\ Spec.name_missing c = false.

(** No record has the id of a record before it, as a set compares ids. *)
Definition distinct_ids (records : list dict) : Prop :=
  ForallOrdPairs
    (fun earlier later =>
       same_or_equal (get "id" later) (get "id" earlier) = false)
    records.

(** The id [s] is the id of one of the records. *)
Definition stored_id (s : string) (records : list dict) : Prop :=
  exists r, In r records /\ lookup "id" r = Some (JStr s).

(** A product with what the routes give every product they write, as far
    as the validator reads it: a text as id, a list of texts as
    categories. *)
Definition routed_product (p : dict) : Prop :=
  (exists s, lookup "id" p = Some (JStr s))
  /\ exists l, lookup "categories" p = Some (json_strings l).

(** A category with a text as id. *)
Definition routed_category (c : dict) : Prop :=
  exists s, lookup "id" c = Some (JStr s).

(** Catalog files that hold such records only. *)
Definition routed (w : world) : Prop :=
  Forall routed_product (products_file w)
  /\ Forall routed_category (categories_file w).

End View.

(** More sample data. *)
Module Cases.
Local Open Scope string_scope.

(** [git status --porcelain db/] with two changed files. *)
Definition dirty_tree (argv : list string) : proc_outcome :=
  match argv with
  | _ :: command :: _ =>
      if String.eqb command "status" then
        Completed 0 (" M db/products.json" ++ Samples.line_break
                     ++ "?? db/settings.json" ++ Samples.line_break) ""
      else if String.eqb command "add" then Completed 0 "" ""
      else if String.eqb command "commit" then
        Completed 0 "[main 1a2b3c4] Actualización" ""
      else Failed "unknown command"
  | _ => Failed "unknown command"
  end.

Definition dirty_env : env :=
  mkEnv "2024-05-01" "2024-05-01 10:30" dirty_tree
        (fun signal => "unknown signal " ++ Num.str_of_Z signal)
        Text.ascii_lower Num.py_int Num.py_float.

(** [git add] fails: not a repository. *)
Definition no_repository (argv : list string) : proc_outcome :=
  Completed 128 "" "fatal: not a git repository".

Definition broken_env : env :=
  mkEnv "2024-05-01" "2024-05-01 10:30" no_repository
        (fun signal => "unknown signal " ++ Num.str_of_Z signal)
        Text.ascii_lower Num.py_int Num.py_float.

(** A second record under the id of the dragon. *)
Definition dragon_copy : dict :=
  [("id", JStr "dragon"); ("name", JStr "Dragon rojo");
   ("price", JInt 15); ("image", JStr "products/rojo.jpg");
   ("categories", JList [JStr "figuras"])].

(** A create request with one offer line, whose quantity is written with
    a zero before it. *)
Definition create_zero_five : request :=
  mkRequest POST
    [("id", "llavero"); ("name", "Llavero"); ("price", "2");
     ("priceOffers", "05,1")].

(** A lone surrogate, U+D800, as [json.load] gives it for "\ud800". *)
Definition lone_surrogate : string :=
  String (ascii_of_nat 237)
         (String (ascii_of_nat 160) (String (ascii_of_nat 128) "")).

(** A product whose name cannot be written in UTF-8. *)
Definition unwritable : dict :=
  [("id", JStr "roto"); ("name", JStr lone_surrogate);
   ("price", JInt 1)].

(** A create request with a negative price. *)
Definition create_refund : request :=
  mkRequest POST [("id", "vale"); ("name", "Vale"); ("price", "-5")].

(** An update request with every optional field set. *)
Definition update_all_fields : request :=
  mkRequest POST
    [("name", "Dragón"); ("price", "0"); ("description", "Verde");
     ("highlighted", "on"); ("hidden", "on");
     ("wallapopLink", "https://es.wallapop.com/item/dragon");
     ("categories", "figuras"); ("categories", "all");
     ("size", "10 cm"); ("material", "PETG")].

End Cases.

(* ================================================================== *)
(** ** Facts about text                                                *)
(* ================================================================== *)

Module TextFacts.
Import Text.
Local Open Scope string_scope.

Lemma append_empty_r (s : string) : s ++ "" = s.
Proof. induction s as [|c s IH]; simpl; [reflexivity | now rewrite IH]. Qed.

Lemma append_assoc (s t u : string) : (s ++ t) ++ u = s ++ t ++ u.
Proof. induction s as [|c s IH]; simpl; [reflexivity | now rewrite IH]. Qed.

Lemma is_empty_true (s : string) : is_empty s = true -> s = "".
Proof. destruct s; simpl; [reflexivity | discriminate]. Qed.

(* --- one white-space character ------------------------------------ *)

Lemma lstrip_eq (s : string) :
  lstrip s = match after_space s with Some r => lstrip r | None => s end.
Proof.
  destruct s as [|a [|b [|c r]]]; simpl; try reflexivity.
  - destruct (space1 a); reflexivity.
  - destruct (space1 a); [reflexivity |]. destruct (space2 a b); reflexivity.
  - destruct (space1 a); [reflexivity |].
    destruct (space2 a b); [reflexivity |].
    destruct (space3 a b c); reflexivity.
Qed.

Lemma after_space_shorter (s r : string) :
  after_space s = Some r -> String.length r < String.length s.
Proof.
  destruct s as [|a [|b [|c t]]]; simpl; try discriminate.
  - destruct (space1 a); [| discriminate]. intros [= <-]. simpl. lia.
  - destruct (space1 a); [intros [= <-]; simpl; lia |].
    destruct (space2 a b); [| discriminate]. intros [= <-]. simpl. lia.
  - destruct (space1 a); [intros [= <-]; simpl; lia |].
    destruct (space2 a b); [intros [= <-]; simpl; lia |].
    destruct (space3 a b c); [| discriminate]. intros [= <-]. simpl. lia.
Qed.

Lemma after_space_app (s r t : string) :
  after_space s = Some r -> after_space (s ++ t) = Some (r ++ t).
Proof.
  destruct s as [|a [|b [|c u]]]; simpl; try discriminate.
  - destruct (space1 a); [| discriminate]. now intros [= <-].
  - destruct (space1 a); [now intros [= <-] |].
    destruct (space2 a b); [| discriminate]. now intros [= <-].
  - destruct (space1 a); [now intros [= <-] |].
    destruct (space2 a b); [now intros [= <-] |].
    destruct (space3 a b c); [| discriminate]. now intros [= <-].
Qed.

Lemma space1_clean (a : ascii) : space1 a = true -> is_continuation a = false.
Proof.
  unfold space1, is_continuation. intros H.
  destruct (128 <=? nat_of_ascii a)%nat eqn:E; [| reflexivity].
  apply Nat.leb_le in E.
  apply orb_true_iff in H. destruct H as [H | H];
    apply andb_true_iff in H; destruct H as [_ H]; apply Nat.leb_le in H; lia.
Qed.

Lemma space2_continues (a b : ascii) :
  space2 a b = true -> is_continuation a = false /\ is_continuation b = true.
Proof.
  unfold space2, is_continuation. intros H.
  apply andb_true_iff in H. destruct H as [Ha Hb].
  apply Nat.eqb_eq in Ha. rewrite Ha. split; [reflexivity |].
  apply orb_true_iff in Hb. destruct Hb as [Hb | Hb];
    apply Nat.eqb_eq in Hb; rewrite Hb; reflexivity.
Qed.

Lemma space3_continues (a b c : ascii) :
  space3 a b c = true ->
  is_continuation a = false
  /\ is_continuation b = true /\ is_continuation c = true.
Proof.
  unfold space3, is_continuation. intros H.
  repeat match type of H with
         | (_ || _)%bool = true =>
             apply orb_true_iff in H; destruct H as [H | H]
         end;
    repeat match goal with
           | H : (_ && _)%bool = true |- _ =>
               apply andb_true_iff in H; destruct H
           | H : (_ || _)%bool = true |- _ =>
               apply orb_true_iff in H; destruct H
           | H : (_ =? _)%nat = true |- _ => apply Nat.eqb_eq in H; rewrite H
           end;
    repeat split; try reflexivity.
  all: repeat match goal with
              | H : (_ <=? _)%nat = true |- _ => apply Nat.leb_le in H
              end.
  all: apply andb_true_iff; split; apply Nat.leb_le; lia.
Qed.

Lemma after_space_clean (s r : string) :
  after_space s = Some r -> starts_clean s = true.
Proof.
  destruct s as [|a [|b [|c t]]]; simpl; try discriminate.
  - destruct (space1 a) eqn:E; [| discriminate].
    intros _. now rewrite (space1_clean _ E).
  - destruct (space1 a) eqn:E; [intros _; now rewrite (space1_clean _ E) |].
    destruct (space2 a b) eqn:E2; [| discriminate].
    intros _. now rewrite (proj1 (space2_continues _ _ E2)).
  - destruct (space1 a) eqn:E; [intros _; now rewrite (space1_clean _ E) |].
    destruct (space2 a b) eqn:E2;
      [intros _; now rewrite (proj1 (space2_continues _ _ E2)) |].
    destruct (space3 a b c) eqn:E3; [| discriminate].
    intros _. now rewrite (proj1 (space3_continues _ _ _ E3)).
Qed.

(** No white-space character straddles the place where a text is
    followed by one that starts a character. *)
Lemma after_space_app_inv (y t r : string) :
  y <> "" -> starts_clean t = true ->
  after_space (y ++ t) = Some r ->
  exists y', after_space y = Some y' /\ r = y' ++ t.
Proof.
  intros Hy Ht.
  destruct y as [|a [|b [|c y3]]]; [congruence | | |]; simpl.
  - destruct (space1 a); [intros [= <-]; now exists "" |].
    destruct t as [|b t]; [discriminate |]. simpl in Ht.
    apply negb_true_iff in Ht.
    destruct (space2 a b) eqn:E2.
    + apply space2_continues in E2. destruct E2 as [_ E2]. congruence.
    + destruct t as [|c t]; [discriminate |].
      destruct (space3 a b c) eqn:E3; [| discriminate].
      apply space3_continues in E3. destruct E3 as (_ & E3 & _). congruence.
  - destruct (space1 a); [intros [= <-]; now exists (String b "") |].
    destruct (space2 a b); [intros [= <-]; now exists "" |].
    destruct t as [|c t]; [discriminate |]. simpl in Ht.
    apply negb_true_iff in Ht.
    destruct (space3 a b c) eqn:E3; [| discriminate].
    apply space3_continues in E3. destruct E3 as (_ & _ & E3). congruence.
  - destruct (space1 a); [intros [= <-]; now eexists |].
    destruct (space2 a b); [intros [= <-]; now eexists |].
    destruct (space3 a b c); [| discriminate]. intros [= <-]. now eexists.
Qed.

(* --- texts of white space only ------------------------------------ *)

Lemma by_length (P : string -> Prop) :
  (forall s, (forall t, String.length t < String.length s -> P t) -> P s) ->
  forall s, P s.
Proof.
  intros H s. remember (String.length s) as n eqn:Hn.
  revert s Hn. induction n as [n IH] using lt_wf_ind. intros s ->.
  apply H. intros t Ht. exact (IH _ Ht t eq_refl).
Qed.

Lemma lstrip_blank (s : string) : lstrip s = "" <-> blank s.
Proof.
  induction s as [s IH] using by_length.
  rewrite lstrip_eq. destruct (after_space s) as [r|] eqn:E.
  - rewrite (IH r (after_space_shorter _ _ E)). split.
    + now apply blank_space.
    + intros H. inversion H as [Hs | ? r' E' Hr]; subst.
      * discriminate.
      * rewrite E in E'. now injection E' as <-.
  - split.
    + intros ->. constructor.
    + intros H. inversion H as [Hs | ? r' E' Hr]; subst; [reflexivity |].
      congruence.
Qed.

Lemma after_space_lstrip (s : string) : after_space (lstrip s) = None.
Proof.
  induction s as [s IH] using by_length.
  rewrite lstrip_eq. destruct (after_space s) as [r|] eqn:E.
  - apply IH. exact (after_space_shorter _ _ E).
  - exact E.
Qed.

Lemma blank_app (s t : string) : blank s -> blank t -> blank (s ++ t).
Proof.
  intros Hs Ht. induction Hs as [|s r E Hr IH]; [exact Ht |].
  exact (blank_space _ _ (after_space_app _ _ t E) IH).
Qed.

Lemma blank_clean (t : string) : blank t -> starts_clean t = true.
Proof.
  intros [|s r E _]; [reflexivity | exact (after_space_clean _ _ E)].
Qed.

(** White space after a text does not make the text white space. *)
Lemma blank_app_inv (y t : string) :
  starts_clean t = true -> blank (y ++ t) -> blank y.
Proof.
  intros Ht. induction y as [y IH] using by_length. intros H.
  destruct (string_dec y "") as [-> | Hy]; [constructor |].
  inversion H as [Hs | ? r E Hr]; subst.
  - destruct y; [congruence | discriminate].
  - destruct (after_space_app_inv _ _ _ Hy Ht E) as (y2 & Ey2 & ->).
    apply (blank_space _ _ Ey2).
    apply IH; [exact (after_space_shorter _ _ Ey2) | exact Hr].
Qed.

Lemma lstrip_after (s r : string) :
  after_space s = Some r -> lstrip s = lstrip r.
Proof. intros E. now rewrite lstrip_eq, E. Qed.

Lemma lstrip_blank_app (s t : string) : blank s -> lstrip (s ++ t) = lstrip t.
Proof.
  induction 1 as [|s r E Hr IH]; [reflexivity |].
  now rewrite (lstrip_after _ _ (after_space_app _ _ t E)).
Qed.

(** White space after a text that is not white space stays where it is
    when the text is stripped on the left. *)
Lemma lstrip_app_clean (y t : string) :
  starts_clean t = true -> ~ blank y -> lstrip (y ++ t) = lstrip y ++ t.
Proof.
  intros Ht. induction y as [y IH] using by_length. intros Hy.
  assert (Hne : y <> "") by (intros ->; apply Hy; constructor).
  rewrite (lstrip_eq y), (lstrip_eq (y ++ t)).
  destruct (after_space (y ++ t)) as [r|] eqn:E.
  - destruct (after_space_app_inv _ _ _ Hne Ht E) as (y2 & Ey2 & ->).
    rewrite Ey2. apply IH; [exact (after_space_shorter _ _ Ey2) |].
    intros Hb. apply Hy. exact (blank_space _ _ Ey2 Hb).
  - destruct (after_space y) as [y2|] eqn:Ey2; [| reflexivity].
    rewrite (after_space_app _ _ t Ey2) in E. discriminate.
Qed.

Lemma rstrip_empty (s : string) : rstrip s = "" <-> blank s.
Proof.
  destruct s as [|c s]; [split; [constructor | reflexivity] |].
  cbn [rstrip]. destruct (is_empty (lstrip (String c s))) eqn:E.
  - apply is_empty_true in E. apply lstrip_blank in E. tauto.
  - split; [discriminate |]. intros H. apply lstrip_blank in H.
    rewrite H in E. discriminate.
Qed.

Lemma rstrip_eq (c : ascii) (s : string) :
  ~ blank (String c s) -> rstrip (String c s) = String c (rstrip s).
Proof.
  intros H. cbn [rstrip]. destruct (is_empty (lstrip (String c s))) eqn:E;
    [| reflexivity].
  apply is_empty_true in E. apply lstrip_blank in E. contradiction.
Qed.

(** A text is what [rstrip] keeps of it, then white space. *)
Lemma rstrip_split (s : string) : exists t, s = rstrip s ++ t /\ blank t.
Proof.
  induction s as [|c s (t & Hs & Ht)].
  - exists "". split; [reflexivity | constructor].
  - cbn [rstrip]. destruct (is_empty (lstrip (String c s))) eqn:E.
    + apply is_empty_true in E. apply lstrip_blank in E.
      exists (String c s). now split.
    + exists t. split; [| exact Ht]. simpl. now rewrite <- Hs.
Qed.

Lemma rstrip_app_blank (y t : string) : blank t -> rstrip (y ++ t) = rstrip y.
Proof.
  intros Ht. induction y as [|c y IH].
  - simpl. now apply rstrip_empty.
  - assert (Hiff : blank (String c y ++ t) <-> blank (String c y)).
    { split.
      - apply blank_app_inv. now apply blank_clean.
      - intros H. now apply blank_app. }
    destruct (rstrip (String c y)) as [|c' r] eqn:E.
    + apply rstrip_empty. apply Hiff. now apply rstrip_empty.
    + assert (Hnb : ~ blank (String c y)).
      { intros H. apply rstrip_empty in H. congruence. }
      rewrite <- E, (rstrip_eq _ _ Hnb).
      change (String c y ++ t) with (String c (y ++ t)).
      rewrite rstrip_eq; [now rewrite IH |].
      intros H. apply Hnb. now apply Hiff.
Qed.

Lemma rstrip_not_blank (s : string) :
  rstrip s <> "" -> ~ blank (rstrip s).
Proof.
  intros Hne Hb. destruct (rstrip_split s) as (t & Hs & Ht).
  apply Hne. apply rstrip_empty. rewrite Hs. now apply blank_app.
Qed.

Lemma rstrip_idem (s : string) : rstrip (rstrip s) = rstrip s.
Proof.
  destruct (rstrip_split s) as (t & Hs & Ht).
  rewrite Hs at 2. symmetry. now apply rstrip_app_blank.
Qed.

Lemma strip_blank (s : string) : strip s = "" <-> blank s.
Proof.
  unfold strip. rewrite rstrip_empty. split.
  - intros H. apply lstrip_blank.
    inversion H as [Hs | ? r E Hr]; subst; [reflexivity |].
    rewrite after_space_lstrip in E. discriminate.
  - intros H. apply lstrip_blank in H. rewrite H. constructor.
Qed.

(** White space before a text is stripped away. *)
Lemma strip_blank_app (s t : string) : blank s -> strip (s ++ t) = strip t.
Proof. intros H. unfold strip. now rewrite lstrip_blank_app. Qed.

(** White space after a text is stripped away. *)
Lemma strip_app_blank (y t : string) : blank t -> strip (y ++ t) = strip y.
Proof.
  intros Ht. unfold strip.
  destruct (lstrip y) as [|c r] eqn:E.
  - assert (Hy : blank y) by now apply lstrip_blank.
    assert (Hyt : lstrip (y ++ t) = "")
      by (apply lstrip_blank; now apply blank_app).
    now rewrite Hyt.
  - rewrite lstrip_app_clean.
    + rewrite E. now apply rstrip_app_blank.
    + now apply blank_clean.
    + intros Hy. apply lstrip_blank in Hy. congruence.
Qed.

(** Stripping twice is stripping once. *)
Lemma strip_idem (s : string) : strip (strip s) = strip s.
Proof.
  unfold strip at 1.
  assert (H : lstrip (strip s) = strip s).
  { unfold strip. destruct (rstrip_split (lstrip s)) as (t & Hs & Ht).
    rewrite lstrip_eq.
    destruct (after_space (rstrip (lstrip s))) as [r|] eqn:E; [| reflexivity].
    pose proof (after_space_app _ _ t E) as E'. rewrite <- Hs in E'.
    rewrite after_space_lstrip in E'. discriminate. }
  rewrite H. unfold strip. apply rstrip_idem.
Qed.

(* --- lines --------------------------------------------------------- *)

Lemma split_from_cur (sep : ascii) (cur s : string) :
  split_from sep cur s
  = match split_from sep "" s with
    | first :: rest => (cur ++ first) :: rest
    | [] => [cur]
    end.
Proof.
  revert cur. induction s as [|c s IH]; intros cur; simpl.
  - now rewrite append_empty_r.
  - destruct (Ascii.eqb c sep).
    + now rewrite append_empty_r.
    + rewrite (IH (cur ++ String c "")), (IH (String c "")).
      destruct (split_from sep "" s); [reflexivity |].
      now rewrite append_assoc.
Qed.

Lemma split_from_nonempty (sep : ascii) (cur s : string) :
  split_from sep cur s <> [].
Proof.
  revert cur. induction s as [|c s IH]; intros cur; simpl; [discriminate |].
  destruct (Ascii.eqb c sep); [discriminate | apply IH].
Qed.

Lemma split_from_app_without (sep : ascii) (p cur s : string) :
  without sep p = true ->
  split_from sep cur (p ++ s) = split_from sep (cur ++ p) s.
Proof.
  revert cur. induction p as [|c p IH]; intros cur Hp; simpl.
  - now rewrite append_empty_r.
  - simpl in Hp. apply andb_true_iff in Hp. destruct Hp as [Hc Hp].
    apply negb_true_iff in Hc. rewrite Hc, (IH _ Hp).
    now rewrite append_assoc.
Qed.

Lemma split_from_app_sep (sep : ascii) (cur x y : string) :
  split_from sep cur (x ++ String sep y)
  = (split_from sep cur x ++ split_from sep "" y)%list.
Proof.
  revert cur. induction x as [|c x IH]; intros cur; simpl.
  - now rewrite Ascii.eqb_refl.
  - destruct (Ascii.eqb c sep); [simpl; now rewrite IH | apply IH].
Qed.

Lemma split_from_app_last (sep : ascii) (cur x p : string) :
  without sep p = true ->
  exists init last,
    split_from sep cur x = (init ++ [last])%list
    /\ split_from sep cur (x ++ p) = (init ++ [(last ++ p)%string])%list.
Proof.
  intros Hp. revert cur. induction x as [|c x IH]; intros cur; simpl.
  - exists [], cur. split; [reflexivity |].
    rewrite <- (append_empty_r p) at 1.
    rewrite (split_from_app_without _ _ _ _ Hp). reflexivity.
  - destruct (Ascii.eqb c sep).
    + destruct (IH "") as (init & last & H1 & H2).
      exists (cur :: init), last. simpl. now rewrite H1, H2.
    + apply IH.
Qed.

Lemma space1_newline (a : ascii) :
  space1 a = true -> a = newline \/ Ascii.eqb a newline = false.
Proof.
  intros _. destruct (Ascii.eqb a newline) eqn:E; [left | now right].
  now apply Ascii.eqb_eq.
Qed.

Lemma continuation_not_newline (a : ascii) :
  is_continuation a = true -> Ascii.eqb a newline = false.
Proof.
  intros H. apply Ascii.eqb_neq. intros ->. discriminate.
Qed.

Lemma clean_lead_not_newline (a b : ascii) :
  space1 a = false -> is_continuation b = true ->
  (space2 a b = true \/ exists c, space3 a b c = true) ->
  Ascii.eqb a newline = false.
Proof.
  intros H1 _ _. apply Ascii.eqb_neq. intros ->. discriminate.
Qed.

(** A white-space character is the line feed, or has no line feed. *)
Lemma after_space_inv (s r : string) :
  after_space s = Some r ->
  exists p, s = p ++ r /\ after_space p = Some ""
            /\ (p = String newline "" \/ without newline p = true).
Proof.
  assert (H1 : forall a, space1 a = false -> Ascii.eqb a newline = false).
  { intros a Ha. apply Ascii.eqb_neq. intros ->. discriminate. }
  destruct s as [|a [|b [|c t]]]; simpl; try discriminate.
  - destruct (space1 a) eqn:E; [| discriminate]. intros [= <-].
    exists (String a ""). simpl. rewrite E. repeat split.
    destruct (space1_newline _ E) as [-> | Hn]; [now left |].
    right. now rewrite Hn.
  - destruct (space1 a) eqn:E.
    + intros [= <-]. exists (String a ""). simpl. rewrite E. repeat split.
      destruct (space1_newline _ E) as [-> | Hn]; [now left |].
      right. now rewrite Hn.
    + destruct (space2 a b) eqn:E2; [| discriminate]. intros [= <-].
      exists (String a (String b "")). simpl. rewrite E, E2. repeat split.
      right. rewrite (H1 _ E).
      now rewrite (continuation_not_newline _ (proj2 (space2_continues _ _ E2))).
  - destruct (space1 a) eqn:E.
    + intros [= <-]. exists (String a ""). simpl. rewrite E. repeat split.
      destruct (space1_newline _ E) as [-> | Hn]; [now left |].
      right. now rewrite Hn.
    + destruct (space2 a b) eqn:E2.
      * intros [= <-].
        exists (String a (String b "")). simpl. rewrite E, E2. repeat split.
        right. rewrite (H1 _ E).
        now rewrite
          (continuation_not_newline _ (proj2 (space2_continues _ _ E2))).
      * destruct (space3 a b c) eqn:E3; [| discriminate]. intros [= <-].
        exists (String a (String b (String c ""))). simpl.
        rewrite E, E2, E3. repeat split. right. rewrite (H1 _ E).
        destruct (space3_continues _ _ _ E3) as (_ & Hb & Hc).
        now rewrite (continuation_not_newline _ Hb),
          (continuation_not_newline _ Hc).
Qed.

Lemma blank_one (p : string) : after_space p = Some "" -> blank p.
Proof. intros H. exact (blank_space _ _ H blank_empty). Qed.

Section Lines.

Context {A : Type}.
Variable h : string -> list A.
Hypothesis h_empty : h "" = [].

(** What a loop over the lines collects when each line is stripped first
    and a blank line yields nothing. *)
Abbreviation collect s :=
  (flat_map (fun line => h (strip line)) (split newline s)).

Lemma collect_after_space (s r : string) :
  after_space s = Some r -> collect s = collect r.
Proof.
  intros E. destruct (after_space_inv _ _ E) as (p & -> & Hp & [-> | Hn]).
  - unfold split. simpl. change (strip "") with "". now rewrite h_empty.
  - unfold split. rewrite (split_from_app_without _ _ _ _ Hn). simpl.
    rewrite split_from_cur.
    destruct (split_from newline "" r) as [|first rest] eqn:Er.
    + now apply split_from_nonempty in Er.
    + simpl. now rewrite (strip_blank_app _ _ (blank_one _ Hp)).
Qed.

Lemma collect_lstrip (s : string) : collect (lstrip s) = collect s.
Proof.
  induction s as [s IH] using by_length.
  rewrite lstrip_eq. destruct (after_space s) as [r|] eqn:E; [| reflexivity].
  rewrite (IH r (after_space_shorter _ _ E)).
  symmetry. now apply collect_after_space.
Qed.

Lemma collect_app_space (x p : string) :
  after_space p = Some "" ->
  p = String newline "" \/ without newline p = true ->
  collect (x ++ p) = collect x.
Proof.
  intros Hp [-> | Hn]; unfold split.
  - rewrite split_from_app_sep, flat_map_app. simpl.
    change (strip "") with "". rewrite h_empty. now rewrite !app_nil_r.
  - destruct (split_from_app_last newline "" x p Hn)
      as (init & last & H1 & H2).
    rewrite H1, H2, !flat_map_app. simpl.
    now rewrite (strip_app_blank _ _ (blank_one _ Hp)).
Qed.

Lemma collect_app_blank (t : string) :
  blank t -> forall x, collect (x ++ t) = collect x.
Proof.
  induction 1 as [|s r E Hr IH]; intros x.
  - now rewrite append_empty_r.
  - destruct (after_space_inv _ _ E) as (p & -> & Hp & Hn).
    rewrite <- append_assoc, IH. now apply collect_app_space.
Qed.

Lemma collect_rstrip (s : string) : collect (rstrip s) = collect s.
Proof.
  destruct (rstrip_split s) as (t & Hs & Ht).
  rewrite Hs at 2. symmetry. now apply collect_app_blank.
Qed.

(** The loop collects the same from the stripped text as from the text
    as entered. *)
Lemma collect_strip (s : string) :
  flat_map (fun line => h (strip line)) (split newline (strip s))
  = flat_map (fun line => h (strip line)) (split newline s).
Proof. unfold strip. rewrite collect_rstrip. apply collect_lstrip. Qed.

(** A text of white space only has nothing to collect. *)
Lemma collect_strip_empty (s : string) :
  strip s = "" ->
  flat_map (fun line => h (strip line)) (split newline s) = [].
Proof.
  intros Hs. rewrite <- collect_strip, Hs. simpl.
  change (strip "") with "". now rewrite h_empty.
Qed.

End Lines.

Lemma join_split_from (cur s : string) :
  join (split_from newline cur s) = cur ++ s.
Proof.
  revert cur. induction s as [|c s IH]; intros cur; simpl.
  - now rewrite append_empty_r.
  - destruct (Ascii.eqb c newline) eqn:E.
    + apply Ascii.eqb_eq in E. subst c.
      pose proof (IH "") as H.
      destruct (split_from newline "" s) as [|first rest] eqn:Es.
      * now apply split_from_nonempty in Es.
      * cbn [join] in *. now rewrite H.
    + rewrite IH, append_assoc. reflexivity.
Qed.

Lemma blank_newline : blank (String newline "").
Proof. apply blank_one. reflexivity. Qed.

Lemma blank_join (lines : list string) :
  Forall blank lines -> blank (join lines).
Proof.
  induction 1 as [|line rest Hl Hr IH]; [constructor |].
  destruct rest as [|next rest]; [exact Hl |].
  change (join (line :: next :: rest))
    with (line ++ (String newline "" ++ join (next :: rest))).
  apply blank_app; [exact Hl |].
  apply blank_app; [apply blank_newline | exact IH].
Qed.

(** A text whose lines are all blank is blank. *)
Lemma no_line_blank (s : string) :
  flat_map (fun line => (fun x => if is_empty x then [] else [x])
                          (strip line))
           (split newline s) = [] ->
  strip s = "".
Proof.
  intros H. apply strip_blank.
  pose proof (join_split_from "" s) as Hj. simpl in Hj.
  rewrite <- Hj. clear Hj. apply blank_join.
  unfold split in H. induction (split_from newline "" s) as [|line rest IH].
  - constructor.
  - simpl in H. apply app_eq_nil in H. destruct H as [Hl Hr].
    constructor; [| exact (IH Hr)].
    apply strip_blank. destruct (strip line); [reflexivity | discriminate].
Qed.

(** A stripped text neither starts nor ends with white space. *)
Lemma strip_starts (s : string) : after_space (strip s) = None.
Proof.
  unfold strip. destruct (rstrip_split (lstrip s)) as (t & Hs & Ht).
  destruct (after_space (rstrip (lstrip s))) as [r|] eqn:E; [| reflexivity].
  pose proof (after_space_app _ _ t E) as E'. rewrite <- Hs in E'.
  rewrite after_space_lstrip in E'. discriminate.
Qed.

Lemma rstrip_ends (s x p : string) :
  rstrip s = x ++ p -> blank p -> p = "".
Proof.
  revert x. induction s as [|c s IH]; intros x H Hp.
  - destruct x; [simpl in H; now subst | discriminate].
  - destruct (rstrip (String c s)) as [|c' r] eqn:E.
    + destruct x; [simpl in H; now subst | discriminate].
    + assert (Hnb : ~ blank (String c s)).
      { intros Hb. apply rstrip_empty in Hb. congruence. }
      rewrite (rstrip_eq _ _ Hnb) in E. injection E as <- <-.
      destruct x as [|a x]; simpl in H.
      * exfalso. apply Hnb. destruct (rstrip_split s) as (t & Hs & Ht).
        rewrite Hs.
        change (String c (rstrip s ++ t)) with (String c (rstrip s) ++ t).
        apply blank_app; [| exact Ht]. now rewrite H.
      * injection H as <- H. exact (IH _ H Hp).
Qed.

Lemma strip_ends (s x p : string) :
  strip s = x ++ p -> blank p -> p = "".
Proof. unfold strip. apply rstrip_ends. Qed.

Lemma lstrip_split (s : string) : exists l, s = l ++ lstrip s /\ blank l.
Proof.
  induction s as [s IH] using by_length.
  rewrite lstrip_eq. destruct (after_space s) as [r|] eqn:E.
  - destruct (after_space_inv _ _ E) as (p & Hs & Hp & _).
    destruct (IH r (after_space_shorter _ _ E)) as (l & Hr & Hl).
    exists (p ++ l). split.
    + rewrite append_assoc, <- Hr. exact Hs.
    + apply blank_app; [now apply blank_one | exact Hl].
  - exists "". split; [reflexivity | constructor].
Qed.

(** A text is white space, what [strip] gives of it, and white space. *)
Lemma strip_split (s : string) :
  exists l r, s = l ++ strip s ++ r /\ blank l /\ blank r.
Proof.
  destruct (lstrip_split s) as (l & Hs & Hl).
  destruct (rstrip_split (lstrip s)) as (r & Hr & Hb).
  exists l, r. unfold strip. rewrite <- Hr. auto.
Qed.

Lemma without_app (sep : ascii) (x y : string) :
  without sep (x ++ y) = without sep x && without sep y.
Proof.
  induction x as [|c x IH]; simpl; [reflexivity |].
  now rewrite IH, andb_assoc.
Qed.

Lemma split_from_without (sep : ascii) (cur s : string) :
  without sep cur = true ->
  Forall (fun part => without sep part = true) (split_from sep cur s).
Proof.
  revert cur. induction s as [|c s IH]; intros cur Hcur; simpl.
  - now constructor.
  - destruct (Ascii.eqb c sep) eqn:E.
    + constructor; [exact Hcur | now apply IH].
    + apply IH. rewrite without_app, Hcur. simpl. now rewrite E.
Qed.

End TextFacts.

(* ================================================================== *)
(** ** Facts about dicts                                               *)
(* ================================================================== *)

Module DictFacts.

Lemma lookup_setitem_same (k : string) (v : json) (d : dict) :
  lookup k (setitem k v d) = Some v.
Proof.
  induction d as [|[k' v'] d IH]; simpl.
  - now rewrite String.eqb_refl.
  - destruct (String.eqb k' k) eqn:E; simpl.
    + now rewrite String.eqb_refl.
    + now rewrite E.
Qed.

Lemma lookup_setitem_other (k k' : string) (v : json) (d : dict) :
  k <> k' -> lookup k' (setitem k v d) = lookup k' d.
Proof.
  intros Hk. induction d as [|[k0 v0] d IH]; simpl.
  - apply String.eqb_neq in Hk. now rewrite Hk.
  - destruct (String.eqb k0 k) eqn:E; simpl.
    + apply String.eqb_eq in E. subst k0.
      apply String.eqb_neq in Hk. now rewrite Hk.
    + now rewrite IH.
Qed.

Lemma lookup_delitem_same (k : string) (d : dict) :
  lookup k (delitem k d) = None.
Proof.
  induction d as [|[k' v'] d IH]; simpl; [reflexivity |].
  destruct (String.eqb k' k) eqn:E; simpl; [exact IH | now rewrite E].
Qed.

Lemma lookup_delitem_other (k k' : string) (d : dict) :
  k <> k' -> lookup k' (delitem k d) = lookup k' d.
Proof.
  intros Hk. induction d as [|[k0 v0] d IH]; simpl; [reflexivity |].
  destruct (String.eqb k0 k) eqn:E; simpl.
  - apply String.eqb_eq in E. subst k0.
    apply String.eqb_neq in Hk. now rewrite Hk.
  - now rewrite IH.
Qed.

Lemma lookup_drop_key_same (k : string) (d : dict) :
  lookup k (drop_key k d) = None.
Proof.
  unfold drop_key, contains. destruct (lookup k d) eqn:E.
  - apply lookup_delitem_same.
  - exact E.
Qed.

Lemma lookup_drop_key_other (k k' : string) (d : dict) :
  k <> k' -> lookup k' (drop_key k d) = lookup k' d.
Proof.
  intros Hk. unfold drop_key. destruct (contains k d); [| reflexivity].
  now apply lookup_delitem_other.
Qed.

End DictFacts.

Create Rewrite HintDb dict.
#[local] Hint Rewrite
  DictFacts.lookup_setitem_same DictFacts.lookup_delitem_same
  DictFacts.lookup_drop_key_same : dict.
#[local] Hint Rewrite
  DictFacts.lookup_setitem_other DictFacts.lookup_delitem_other
  DictFacts.lookup_drop_key_other
  using (let H := fresh in intro H; discriminate H) : dict.

(** Lookups through a chain of assignments and deletions of known keys. *)
Ltac dict_lookup := autorewrite with dict; try reflexivity.

(* ================================================================== *)
(** ** The image list and the offers against the specification         *)
(* ================================================================== *)

Module Refinement.
Import Text TextFacts.

Lemma additional_images_collect (text : string) :
  Spec.additional_images text
  = flat_map (fun line =>
                (fun x => if is_empty x then [] else [x]) (strip line))
             (split newline text).
Proof.
  unfold Spec.additional_images, Spec.nonblank.
  induction (split newline text) as [|line lines IH]; simpl; [reflexivity |].
  destruct (is_empty (strip line)); simpl; now rewrite IH.
Qed.

(** The "Handle images" loop builds the list the specification
    describes. *)
Lemma image_list_spec (main_image text : string) :
  image_list main_image text = Spec.images main_image text.
Proof.
  unfold image_list, Spec.images.
  set (h := fun x : string => if is_empty x then [] else [x]).
  assert (Hspec : Spec.additional_images text
                  = flat_map (fun line => h (strip line))
                             (split newline text))
    by apply additional_images_collect.
  rewrite Hspec.
  assert (Hloop : forall lines acc,
             fold_left (fun images line =>
                          if negb (is_empty (strip line))
                          then images ++ [strip line] else images)
                       lines acc
             = acc ++ flat_map (fun line => h (strip line)) lines).
  { induction lines as [|line lines IH]; intros acc; simpl.
    - now rewrite app_nil_r.
    - rewrite IH. unfold h at 2.
      destruct (is_empty (strip line)); simpl.
      + reflexivity.
      + now rewrite <- app_assoc. }
  rewrite Hloop, (collect_strip h eq_refl).
  destruct (is_empty (strip text)) eqn:E; [| reflexivity].
  apply is_empty_true in E.
  now rewrite (collect_strip_empty h eq_refl text E).
Qed.

Lemma offer_of_line_spec (e : env) (line : string) :
  offer_of_line e line = Spec.offer e line.
Proof.
  unfold offer_of_line, Spec.offer, Spec.offer_with, Spec.label_of_text.
  destruct (split comma (strip line)) as [|q [|p rest]]; simpl;
    try reflexivity.
  destruct (str_int e q); [| reflexivity].
  destruct (str_float e p); [| reflexivity].
  destruct rest; reflexivity.
Qed.

(** The offers loop on the stripped field collects the offers of the
    lines of the field as entered. *)
Lemma parse_offers_spec (e : env) (text : string) :
  parse_offers e (strip text) = Spec.offers e text.
Proof.
  unfold parse_offers, Spec.offers, Spec.offers_with.
  set (h := fun x : string =>
              Spec.kept (Spec.offer_of_parts e Spec.label_of_text
                                             (split comma x))).
  assert (Hloop : forall lines acc,
             fold_left (fun offers line =>
                          match offer_of_line e line with
                          | Some offer => offers ++ [offer]
                          | None => offers
                          end) lines acc
             = acc ++ flat_map (fun line => h (strip line)) lines).
  { induction lines as [|line lines IH]; intros acc; simpl.
    - now rewrite app_nil_r.
    - rewrite IH, offer_of_line_spec.
      unfold h at 2, Spec.offer, Spec.offer_with.
      destruct (Spec.offer_of_parts e Spec.label_of_text
                                    (split comma (strip line))); simpl.
      + now rewrite <- app_assoc.
      + reflexivity. }
  rewrite Hloop. simpl. apply (collect_strip h eq_refl).
Qed.

(** A field of white space only holds no offer. *)
Lemma offers_of_blank (e : env) (text : string) :
  strip text = "" -> Spec.offers e text = [].
Proof.
  intros E. rewrite <- parse_offers_spec, E. reflexivity.
Qed.

End Refinement.

(* ================================================================== *)
(** ** Facts about the validator                                       *)
(* ================================================================== *)

Module ValidatorFacts.

Lemma res_bind_Ok {A B} (r : res A) (k : A -> res B) (b : B) :
  res_bind r k = Ok b -> exists a, r = Ok a /\ k a = Ok b.
Proof. destruct r as [a|e]; simpl; [eauto | discriminate]. Qed.

(** An invariant of a loop body is an invariant of the loop. *)
Lemma for_each_invariant {S X} (body : S -> X -> res S) (R : S -> S -> Prop) :
  (forall st, R st st) ->
  (forall a b c, R a b -> R b c -> R a c) ->
  (forall st x st', body st x = Ok st' -> R st st') ->
  forall xs st st', for_each body xs st = Ok st' -> R st st'.
Proof.
  intros Hrefl Htrans Hbody. induction xs as [|x xs IH]; intros st st' H.
  - simpl in H. injection H as <-. apply Hrefl.
  - simpl in H. apply res_bind_Ok in H. destruct H as (st1 & H1 & H2).
    eapply Htrans; [eapply Hbody; eassumption | now apply IH].
Qed.

(** [valid] says that [errors] is empty. *)
Lemma validate_valid (products categories : list dict) (rep : report) :
  validate products categories = Ok rep -> valid rep = is_nil (errors rep).
Proof.
  unfold validate. intros H.
  apply res_bind_Ok in H. destruct H as (ids & _ & H).
  apply res_bind_Ok in H. destruct H as (st & _ & H).
  apply res_bind_Ok in H. destruct H as (st' & _ & H).
  injection H as <-. reflexivity.
Qed.

Lemma validate_database_run (w : world) :
  validate_database w = (validate (products_file w) (categories_file w), w).
Proof. reflexivity. Qed.

(* --- the errors a record brings on its own ------------------------ *)

Section Selected.

(** A choice of errors that leaves out those that compare records with
    each other: duplicate ids and unknown categories. *)
Variable sel : issue -> bool.
Hypothesis sel_duplicate_product : forall id, sel (DuplicateProductId id) = false.
Hypothesis sel_duplicate_category :
  forall id, sel (DuplicateCategoryId id) = false.
Hypothesis sel_unknown_category :
  forall name cat, sel (UnknownCategory name cat) = false.

Abbreviation selected st := (filter sel (v_errors st)).

Lemma check_id_selected (a : issue) (d : json -> issue) (st st' : vstate)
      (r : dict) :
  (forall id, sel (d id) = false) ->
  check_id a d st r = Ok st' ->
  selected st' = selected st ++ filter sel (if Spec.id_missing r then [a] else []).
Proof.
  intros Hd. unfold check_id, Spec.id_missing.
  destruct (negb (truthy (get "id" r))).
  - intros H. injection H as <-. simpl. now rewrite filter_app.
  - intros H. apply res_bind_Ok in H. destruct H as (id & _ & H).
    apply res_bind_Ok in H. destruct H as (met & _ & H).
    destruct met; injection H as <-; simpl; rewrite ?filter_app; simpl;
      rewrite ?Hd; now rewrite ?app_nil_r.
Qed.

Lemma check_categories_selected (ids : pyset) (p : dict) (st st' : vstate) :
  check_categories ids p st = Ok st' -> selected st' = selected st.
Proof.
  unfold check_categories. intros H.
  apply res_bind_Ok in H. destruct H as (cats & _ & H).
  revert H.
  apply (for_each_invariant _ (fun a b => selected b = selected a)).
  - reflexivity.
  - intros a b c Hab Hbc. now rewrite Hbc.
  - intros s cat s' Hs. apply res_bind_Ok in Hs.
    destruct Hs as (known & _ & Hs).
    destruct known; simpl in Hs; injection Hs as <-; [reflexivity |].
    simpl. rewrite filter_app. simpl.
    rewrite sel_unknown_category. apply app_nil_r.
Qed.

(** One pass of the product loop adds, of the chosen errors, those the
    product brings on its own. *)
Lemma check_product_selected (ids : pyset) (st : vstate) (p : dict)
      (st' : vstate) :
  check_product ids st p = Ok st' ->
  selected st' = selected st ++ filter sel (Spec.own_errors_of_product p).
Proof.
  unfold check_product. intros H.
  apply res_bind_Ok in H. destruct H as (st1 & H1 & H).
  apply check_id_selected in H1; [| exact sel_duplicate_product].
  apply res_bind_Ok in H. destruct H as (st4 & H4 & H).
  assert (H5 : selected st' = selected st4).
  { destruct (negb (truthy (get "image" p))); injection H as <-;
      reflexivity. }
  rewrite H5. clear H H5.
  match type of H4 with
  | (if _ then _ else check_categories _ _ ?s) = _ =>
      assert (H3 : selected st4 = selected s)
  end.
  { destruct (negb (truthy (get "categories" p))).
    - injection H4 as <-. reflexivity.
    - now apply check_categories_selected in H4. }
  rewrite H3. clear H3 H4.
  unfold Spec.own_errors_of_product, Spec.name_missing.
  rewrite !filter_app, app_assoc, <- H1.
  destruct (price_missing p), (negb (truthy (get "name" p))); simpl;
    rewrite ?filter_app; simpl; rewrite ?app_nil_r; try reflexivity;
    now rewrite <- ?app_assoc.
Qed.

Lemma check_category_selected (st : vstate) (c : dict) (st' : vstate) :
  check_category st c = Ok st' ->
  selected st' = selected st ++ filter sel (Spec.own_errors_of_category c).
Proof.
  unfold check_category. intros H.
  apply res_bind_Ok in H. destruct H as (st1 & H1 & H).
  apply check_id_selected in H1; [| exact sel_duplicate_category].
  unfold Spec.own_errors_of_category, Spec.name_missing.
  rewrite filter_app, app_assoc, <- H1.
  destruct (negb (truthy (get "name" c))); injection H as <-; simpl.
  - now rewrite filter_app.
  - now rewrite app_nil_r.
Qed.

Lemma loop_selected {X} (body : vstate -> X -> res vstate)
      (own : X -> list issue) :
  (forall st x st',
      body st x = Ok st' -> selected st' = selected st ++ filter sel (own x)) ->
  forall xs st st',
    for_each body xs st = Ok st' ->
    selected st' = selected st ++ filter sel (flat_map own xs).
Proof.
  intros Hbody. induction xs as [|x xs IH]; intros st st' H; simpl in H.
  - injection H as <-. simpl. now rewrite app_nil_r.
  - apply res_bind_Ok in H. destruct H as (st1 & H1 & H).
    apply IH in H. apply Hbody in H1.
    simpl. now rewrite filter_app, H, H1, <- app_assoc.
Qed.

(** Of the chosen errors, a report holds those each product brings on its
    own, product after product, then those of each category. *)
Lemma validate_selected (products categories : list dict) (rep : report) :
  validate products categories = Ok rep ->
  filter sel (errors rep)
  = filter sel (flat_map Spec.own_errors_of_product products)
    ++ filter sel (flat_map Spec.own_errors_of_category categories).
Proof.
  unfold validate. intros H.
  apply res_bind_Ok in H. destruct H as (ids & _ & H).
  apply res_bind_Ok in H. destruct H as (st & Hp & H).
  apply res_bind_Ok in H. destruct H as (st' & Hc & H).
  injection H as <-. simpl.
  apply (loop_selected _ _ (check_product_selected ids)) in Hp.
  apply (loop_selected _ _ check_category_selected) in Hc.
  simpl in Hp, Hc. now rewrite Hc, Hp.
Qed.

End Selected.

(** Choosing one kind of error among those a list of records brings. *)
Lemma filter_flat_map_one {X} (sel : issue -> bool) (own : X -> list issue)
      (test : X -> bool) (one : X -> issue) (xs : list X) :
  (forall x, filter sel (own x) = if test x then [one x] else []) ->
  filter sel (flat_map own xs) = map one (filter test xs).
Proof.
  intros Hown. induction xs as [|x xs IH]; simpl; [reflexivity |].
  rewrite filter_app, Hown, IH. destruct (test x); reflexivity.
Qed.

Lemma filter_flat_map_none {X} (sel : issue -> bool) (own : X -> list issue)
      (xs : list X) :
  (forall x, filter sel (own x) = []) -> filter sel (flat_map own xs) = [].
Proof.
  intros Hown. induction xs as [|x xs IH]; simpl; [reflexivity |].
  now rewrite filter_app, Hown, IH.
Qed.

(** The missing-price errors of a report, in order: one for each product
    on which the price test of the validator fires. *)
Lemma validate_price_errors (products categories : list dict) (rep : report) :
  validate products categories = Ok rep ->
  filter Spec.is_price_issue (errors rep)
  = map Spec.price_issue_of (filter price_missing products).
Proof.
  intros H.
  rewrite (validate_selected Spec.is_price_issue
             (fun _ => eq_refl) (fun _ => eq_refl) (fun _ _ => eq_refl)
             _ _ _ H).
  rewrite (filter_flat_map_none _ Spec.own_errors_of_category).
  - rewrite app_nil_r.
    apply filter_flat_map_one. intros p.
    unfold Spec.own_errors_of_product.
    destruct (Spec.id_missing p), (Spec.name_missing p), (price_missing p);
      reflexivity.
  - intros c. unfold Spec.own_errors_of_category.
    destruct (Spec.id_missing c), (Spec.name_missing c); reflexivity.
Qed.

(** The "without ID" errors of a report: one for each product, and one
    for each category, whose id is absent, empty or otherwise false. *)
Lemma validate_without_id_errors (products categories : list dict)
      (rep : report) :
  validate products categories = Ok rep ->
  filter Spec.is_product_without_id (errors rep)
  = map (fun _ => ProductWithoutId) (filter Spec.id_missing products)
  /\ filter Spec.is_category_without_id (errors rep)
     = map (fun _ => CategoryWithoutId) (filter Spec.id_missing categories).
Proof.
  intros H. split.
  - rewrite (validate_selected Spec.is_product_without_id
               (fun _ => eq_refl) (fun _ => eq_refl) (fun _ _ => eq_refl)
               _ _ _ H).
    rewrite (filter_flat_map_none _ Spec.own_errors_of_category).
    + rewrite app_nil_r.
      apply filter_flat_map_one. intros p.
      unfold Spec.own_errors_of_product.
      destruct (Spec.id_missing p), (Spec.name_missing p), (price_missing p);
        reflexivity.
    + intros c. unfold Spec.own_errors_of_category.
      destruct (Spec.id_missing c), (Spec.name_missing c); reflexivity.
  - rewrite (validate_selected Spec.is_category_without_id
               (fun _ => eq_refl) (fun _ => eq_refl) (fun _ _ => eq_refl)
               _ _ _ H).
    rewrite (filter_flat_map_none _ Spec.own_errors_of_product).
    + apply filter_flat_map_one. intros c.
      unfold Spec.own_errors_of_category.
      destruct (Spec.id_missing c), (Spec.name_missing c); reflexivity.
    + intros p. unfold Spec.own_errors_of_product.
      destruct (Spec.id_missing p), (Spec.name_missing p), (price_missing p);
        reflexivity.
Qed.

(* --- duplicate-id errors name ids that are there ------------------- *)

Abbreviation names_true_ids l :=
  (Forall (fun i => forall id, Spec.duplicate_of i = Some id ->
                               truthy id = true) l).

Lemma names_true_ids_snoc (l : list issue) (i : issue) :
  names_true_ids l ->
  (forall id, Spec.duplicate_of i = Some id -> truthy id = true) ->
  names_true_ids (l ++ [i]).
Proof. intros Hl Hi. apply Forall_app. split; [exact Hl | now constructor]. Qed.

Lemma check_id_duplicates (a : issue) (d : json -> issue) (st st' : vstate)
      (r : dict) :
  Spec.duplicate_of a = None ->
  (forall id, Spec.duplicate_of (d id) = Some id) ->
  check_id a d st r = Ok st' ->
  names_true_ids (v_errors st) -> names_true_ids (v_errors st').
Proof.
  intros Ha Hd. unfold check_id.
  destruct (negb (truthy (get "id" r))) eqn:E.
  - intros H Hst. injection H as <-. simpl.
    apply names_true_ids_snoc; [exact Hst |].
    intros id Hid. congruence.
  - intros H Hst. apply res_bind_Ok in H. destruct H as (id & Hget & H).
    apply res_bind_Ok in H. destruct H as (met & _ & H).
    destruct met; injection H as <-; simpl; [| exact Hst].
    apply names_true_ids_snoc; [exact Hst |].
    intros id' Hid'. rewrite Hd in Hid'. injection Hid' as <-.
    unfold getitem in Hget. unfold get, get_default in E.
    destruct (lookup "id" r); [| discriminate].
    injection Hget as ->. now apply negb_false_iff in E.
Qed.

Lemma check_product_duplicates (ids : pyset) (st : vstate) (p : dict)
      (st' : vstate) :
  check_product ids st p = Ok st' ->
  names_true_ids (v_errors st) -> names_true_ids (v_errors st').
Proof.
  unfold check_product. intros H Hst.
  apply res_bind_Ok in H. destruct H as (st1 & H1 & H).
  apply check_id_duplicates in H1; [| reflexivity | reflexivity | exact Hst].
  apply res_bind_Ok in H. destruct H as (st4 & H4 & H).
  assert (H5 : v_errors st' = v_errors st4).
  { destruct (negb (truthy (get "image" p))); injection H as <-;
      reflexivity. }
  rewrite H5. clear H H5.
  match type of H4 with
  | (if _ then _ else check_categories _ _ ?s) = _ =>
      assert (H3 : names_true_ids (v_errors s))
  end.
  { destruct (price_missing p), (negb (truthy (get "name" p))); simpl;
      repeat (apply names_true_ids_snoc; [| discriminate]); exact H1. }
  destruct (negb (truthy (get "categories" p))).
  - injection H4 as <-. exact H3.
  - unfold check_categories in H4.
    apply res_bind_Ok in H4. destruct H4 as (cats & _ & H4).
    revert H3. revert H4.
    apply (for_each_invariant _
             (fun a b => names_true_ids (v_errors a) ->
                         names_true_ids (v_errors b))).
    + auto.
    + auto.
    + intros s cat s' Hs Hs0. apply res_bind_Ok in Hs.
      destruct Hs as (known & _ & Hs).
      destruct known; simpl in Hs; injection Hs as <-; [exact Hs0 |].
      simpl. apply names_true_ids_snoc; [exact Hs0 | discriminate].
Qed.

Lemma check_category_duplicates (st : vstate) (c : dict) (st' : vstate) :
  check_category st c = Ok st' ->
  names_true_ids (v_errors st) -> names_true_ids (v_errors st').
Proof.
  unfold check_category. intros H Hst.
  apply res_bind_Ok in H. destruct H as (st1 & H1 & H).
  apply check_id_duplicates in H1; [| reflexivity | reflexivity | exact Hst].
  destruct (negb (truthy (get "name" c))); injection H as <-; [| exact H1].
  simpl. apply names_true_ids_snoc; [exact H1 | discriminate].
Qed.

(** No duplicate-id error of a report names an id that is absent, empty
    or otherwise false: such records never reach the set of ids met. *)
Lemma validate_duplicates_name_ids (products categories : list dict)
      (rep : report) :
  validate products categories = Ok rep ->
  forall i id,
    In i (errors rep) -> Spec.duplicate_of i = Some id -> truthy id = true.
Proof.
  unfold validate. intros H.
  apply res_bind_Ok in H. destruct H as (ids & _ & H).
  apply res_bind_Ok in H. destruct H as (st & Hp & H).
  apply res_bind_Ok in H. destruct H as (st' & Hc & H).
  injection H as <-. simpl.
  assert (Hst : names_true_ids (v_errors st)).
  { refine (for_each_invariant _
              (fun a b => names_true_ids (v_errors a) ->
                          names_true_ids (v_errors b))
              _ _ (check_product_duplicates ids) _ _ _ Hp _);
      [auto | auto | constructor]. }
  assert (Hst' : names_true_ids (v_errors st')).
  { refine (for_each_invariant _
              (fun a b => names_true_ids (v_errors a) ->
                          names_true_ids (v_errors b))
              _ _ check_category_duplicates _ _ _ Hc _);
      [auto | auto | exact Hst]. }
  intros i id Hin. rewrite Forall_forall in Hst'. now apply Hst'.
Qed.

(** What the price test of the validator fires on. *)
Lemma price_missing_iff (p : dict) :
  price_missing p = true
  <-> lookup "price" p = None
      \/ exists v, lookup "price" p = Some v
                   /\ In v [JNull; JStr ""; JList []; JDict []].
Proof.
  unfold price_missing, get, get_default.
  destruct (lookup "price" p) as [v|]; simpl.
  - split.
    + intros H. right. exists v. split; [reflexivity |].
      destruct v as [|b|z|f|s|l|d]; simpl in *.
      * auto.
      * destruct b; discriminate.
      * destruct (Z.eqb z 0); discriminate.
      * destruct f; simpl in H; discriminate.
      * destruct s; [auto | discriminate].
      * destruct l; [auto | discriminate].
      * destruct d; [auto 6 | discriminate].
    + intros [H | (v' & Hv & Hin)]; [discriminate |].
      injection Hv as <-.
      destruct Hin as [<- | [<- | [<- | [<- | []]]]]; reflexivity.
  - split; auto.
Qed.

End ValidatorFacts.

(* ================================================================== *)
(** ** Facts about the routes                                          *)
(* ================================================================== *)

Module RouteFacts.
Import ValidatorFacts.

Ltac split_ifs :=
  repeat (match goal with
          | |- context [if ?c then _ else _] => destruct c eqn:?
          end; simpl in *; try discriminate).

Lemma py_eq_str_inv (v : json) (s : string) :
  py_eq v (JStr s) = true -> v = JStr s.
Proof.
  destruct v; simpl; try discriminate.
  intros H. apply String.eqb_eq in H. now subst.
Qed.

(** [any] finds the id when every record before it has an id to read. *)
Lemma any_id_found (new_id : string) (before after : list dict) (r : dict) :
  Forall (fun x => contains "id" x = true) before ->
  lookup "id" r = Some (JStr new_id) ->
  any_id new_id (before ++ r :: after) = Ok true.
Proof.
  intros Hb Hr. induction Hb as [|x before Hx Hb IH]; simpl.
  - unfold getitem. rewrite Hr. simpl. now rewrite String.eqb_refl.
  - unfold getitem, contains in *. destruct (lookup "id" x); [| discriminate].
    simpl. destruct (py_eq j (JStr new_id)); [reflexivity | exact IH].
Qed.

(** The record [next(...)] returns is part of the list, under the id
    asked for. *)
Lemma find_by_id_split (wanted : string) (records before after : list dict)
      (r : dict) :
  find_by_id wanted records = Ok (Some (before, r, after)) ->
  records = before ++ r :: after /\ lookup "id" r = Some (JStr wanted).
Proof.
  revert before. induction records as [|x xs IH]; intros before H; simpl in H.
  - discriminate.
  - apply res_bind_Ok in H. destruct H as (id & Hid & H).
    unfold getitem in Hid.
    destruct (lookup "id" x) as [v|] eqn:Hx; [| discriminate].
    injection Hid as ->.
    destruct (py_eq id (JStr wanted)) eqn:E.
    + injection H as <- <- <-. apply py_eq_str_inv in E. subst id. auto.
    + apply res_bind_Ok in H. destruct H as (found & Hf & H).
      destruct found as [[[b y] a]|]; [| discriminate].
      injection H as <- <- <-.
      destruct (IH b Hf) as [-> Hy]. auto.
Qed.

Lemma found_is_truthy (r : dict) (v : json) :
  lookup "id" r = Some v -> truthy (JDict r) = true.
Proof. destruct r; [discriminate | reflexivity]. Qed.

(* --- what a finished request did ---------------------------------- *)

Lemma new_product_created_inv (e : env) (rq : request) (w w' : world) :
  new_product e rq w = (Ok product_created, w') ->
  exists raw name price,
    method rq = POST
    /\ form_getitem "id" rq = Ok raw
    /\ any_id (normalize_id e raw) (products_file w) = Ok false
    /\ form_getitem "name" rq = Ok name
    /\ form_price e rq = Ok price
    /\ w' = mkWorld
              (products_file w
               ++ [new_product_record e rq (normalize_id e raw) name price])
              (categories_file w) (subprocess_calls w).
Proof.
  unfold new_product, bind, load_products, load_categories, lift, ret,
    save_products, product_exists, product_created.
  destruct (method rq); [discriminate |].
  destruct (form_getitem "id" rq) as [raw|]; [| discriminate].
  destruct (any_id (normalize_id e raw) (products_file w)) as [[|]|] eqn:Hany;
    try discriminate.
  destruct (form_getitem "name" rq) as [name|]; [| discriminate].
  destruct (form_price e rq) as [price|]; [| discriminate].
  destruct (writable _); [| discriminate].
  simpl. intros H. injection H as <-.
  exists raw, name, price. repeat split; reflexivity || assumption.
Qed.

Lemma new_product_succeeds (e : env) (rq : request) (w : world)
      (raw name : string) (price : spec_float) :
  method rq = POST ->
  form_getitem "id" rq = Ok raw ->
  any_id (normalize_id e raw) (products_file w) = Ok false ->
  form_getitem "name" rq = Ok name ->
  form_price e rq = Ok price ->
  new_product e rq w
  = View.products_written
      product_created
      (products_file w
       ++ [new_product_record e rq (normalize_id e raw) name price])
      w.
Proof.
  intros Hm Hid Hany Hname Hprice.
  unfold new_product, bind, load_products, lift, ret, save_products,
    View.products_written.
  rewrite Hm, Hid, Hany, Hname, Hprice.
  destruct (writable _); reflexivity.
Qed.

Lemma edit_product_updated_inv (e : env) (product_id : string) (rq : request)
      (w w' : world) :
  edit_product e product_id rq w = (Ok product_updated, w') ->
  exists before old after name price,
    method rq = POST
    /\ find_by_id product_id (products_file w) = Ok (Some (before, old, after))
    /\ form_getitem "name" rq = Ok name
    /\ form_price e rq = Ok price
    /\ w' = mkWorld (before ++ edited_product e rq name price old :: after)
                    (categories_file w) (subprocess_calls w).
Proof.
  unfold edit_product, bind, load_products, load_categories, lift, ret,
    save_products, product_not_found, product_updated.
  destruct (find_by_id product_id (products_file w))
    as [[[[before old] after]|]|] eqn:Hfind; try discriminate.
  destruct (negb (truthy (JDict old))); [discriminate |].
  destruct (method rq); [discriminate |].
  destruct (form_getitem "name" rq) as [name|]; [| discriminate].
  destruct (form_price e rq) as [price|]; [| discriminate].
  destruct (writable _); [| discriminate].
  simpl. intros H. injection H as <-.
  exists before, old, after, name, price. repeat split; reflexivity || assumption.
Qed.

Lemma edit_product_succeeds (e : env) (product_id : string) (rq : request)
      (w : world) (before after : list dict) (old : dict) (name : string)
      (price : spec_float) :
  method rq = POST ->
  find_by_id product_id (products_file w) = Ok (Some (before, old, after)) ->
  form_getitem "name" rq = Ok name ->
  form_price e rq = Ok price ->
  edit_product e product_id rq w
  = View.products_written
      product_updated
      (before ++ edited_product e rq name price old :: after) w.
Proof.
  intros Hm Hfind Hname Hprice.
  unfold edit_product, bind, load_products, lift, ret, save_products,
    View.products_written.
  rewrite Hfind.
  destruct (find_by_id_split _ _ _ _ _ Hfind) as [_ Hid].
  rewrite (found_is_truthy _ _ Hid). simpl.
  rewrite Hm, Hname, Hprice.
  destruct (writable _); reflexivity.
Qed.

Lemma new_category_created_inv (e : env) (rq : request) (w w' : world) :
  new_category e rq w = (Ok category_created, w') ->
  exists raw name,
    method rq = POST
    /\ form_getitem "id" rq = Ok raw
    /\ any_id (normalize_id e raw) (categories_file w) = Ok false
    /\ form_getitem "name" rq = Ok name
    /\ w' = mkWorld (products_file w)
              (categories_file w
               ++ [new_category_record rq (normalize_id e raw) name])
              (subprocess_calls w).
Proof.
  unfold new_category, bind, load_categories, lift, ret, save_categories,
    category_exists, category_created.
  destruct (method rq); [discriminate |].
  destruct (form_getitem "id" rq) as [raw|]; [| discriminate].
  destruct (any_id (normalize_id e raw) (categories_file w))
    as [[|]|] eqn:Hany; try discriminate.
  destruct (form_getitem "name" rq) as [name|]; [| discriminate].
  destruct (writable _); [| discriminate].
  simpl. intros H. injection H as <-.
  exists raw, name. repeat split; reflexivity || assumption.
Qed.

Lemma edit_category_updated_inv (category_id : string) (rq : request)
      (w w' : world) :
  edit_category category_id rq w = (Ok category_updated, w') ->
  exists before old after name,
    method rq = POST
    /\ find_by_id category_id (categories_file w)
       = Ok (Some (before, old, after))
    /\ form_getitem "name" rq = Ok name
    /\ w' = mkWorld (products_file w)
                    (before ++ edited_category rq name old :: after)
                    (subprocess_calls w).
Proof.
  unfold edit_category, bind, load_categories, lift, ret, save_categories,
    category_not_found, category_updated.
  destruct (find_by_id category_id (categories_file w))
    as [[[[before old] after]|]|] eqn:Hfind; try discriminate.
  destruct (negb (truthy (JDict old))); [discriminate |].
  destruct (method rq); [discriminate |].
  destruct (form_getitem "name" rq) as [name|]; [| discriminate].
  destruct (writable _); [| discriminate].
  simpl. intros H. injection H as <-.
  exists before, old, after, name. repeat split; reflexivity || assumption.
Qed.

(** A route that answers after its save has written records that can be
    written. *)
Lemma product_route_writable (e : env) (id : string) (rq : request)
      (w w' : world) :
  new_product e rq w = (Ok product_created, w')
  \/ edit_product e id rq w = (Ok product_updated, w')
  \/ delete_product id w = (Ok product_deleted, w') ->
  writable (products_file w') = true.
Proof.
  intros [H | [H | H]]; revert H.
  - unfold new_product, bind, load_products, load_categories, lift, ret,
      save_products, product_exists, product_created.
    destruct (method rq); [discriminate |].
    destruct (form_getitem "id" rq) as [raw|]; [| discriminate].
    destruct (any_id _ _) as [[|]|]; try discriminate.
    destruct (form_getitem "name" rq) as [name|]; [| discriminate].
    destruct (form_price e rq) as [price|]; [| discriminate].
    destruct (writable _) eqn:E; [| discriminate].
    now intros [= <-].
  - unfold edit_product, bind, load_products, load_categories, lift, ret,
      save_products, product_not_found, product_updated.
    destruct (find_by_id _ _) as [[[[before old] after]|]|];
      try discriminate.
    destruct (negb (truthy (JDict old))); [discriminate |].
    destruct (method rq); [discriminate |].
    destruct (form_getitem "name" rq) as [name|]; [| discriminate].
    destruct (form_price e rq) as [price|]; [| discriminate].
    destruct (writable _) eqn:E; [| discriminate].
    now intros [= <-].
  - unfold delete_product, bind, load_products, lift, ret, save_products.
    destruct (without_id _ _); [| discriminate].
    destruct (writable _) eqn:E; [| discriminate].
    now intros [= <-].
Qed.

Lemma category_route_writable (e : env) (id : string) (rq : request)
      (w w' : world) :
  new_category e rq w = (Ok category_created, w')
  \/ edit_category id rq w = (Ok category_updated, w')
  \/ delete_category id w = (Ok category_deleted, w') ->
  writable (categories_file w') = true.
Proof.
  intros [H | [H | H]]; revert H.
  - unfold new_category, bind, load_categories, lift, ret, save_categories,
      category_exists, category_created.
    destruct (method rq); [discriminate |].
    destruct (form_getitem "id" rq) as [raw|]; [| discriminate].
    destruct (any_id _ _) as [[|]|]; try discriminate.
    destruct (form_getitem "name" rq) as [name|]; [| discriminate].
    destruct (writable _) eqn:E; [| discriminate].
    now intros [= <-].
  - unfold edit_category, bind, load_categories, lift, ret, save_categories,
      category_not_found, category_updated.
    destruct (find_by_id _ _) as [[[[before old] after]|]|];
      try discriminate.
    destruct (negb (truthy (JDict old))); [discriminate |].
    destruct (method rq); [discriminate |].
    destruct (form_getitem "name" rq) as [name|]; [| discriminate].
    destruct (writable _) eqn:E; [| discriminate].
    now intros [= <-].
  - unfold delete_category, bind, load_categories, lift, ret, save_categories.
    destruct (without_id _ _); [| discriminate].
    destruct (writable _) eqn:E; [| discriminate].
    now intros [= <-].
Qed.

End RouteFacts.

(* ================================================================== *)
(** ** The stored records                                              *)
(* ================================================================== *)

Module RecordFacts.
Import RouteFacts.

Lemma stores_images_intro (rq : request) (p : dict) :
  lookup "image" p = Some (JStr (form_get "image" default_image rq)) ->
  lookup "images" p
  = match Spec.additional_images (form_get "additional_images" "" rq) with
    | [] => None
    | _ => Some (json_strings
                   (Spec.images (form_get "image" default_image rq)
                                (form_get "additional_images" "" rq)))
    end ->
  Spec.stores_images rq p.
Proof.
  intros Himage Himages. unfold Spec.stores_images. cbv zeta.
  split; [exact Himage |]. split; [exact Himages |].
  intros l Hl. rewrite Himages in Hl. rewrite Himage.
  destruct (Spec.additional_images (form_get "additional_images" "" rq));
    [discriminate |].
  injection Hl as <-. reflexivity.
Qed.

Lemma new_product_record_images (e : env) (rq : request) (new_id name : string)
      (price : spec_float) :
  Spec.stores_images rq (new_product_record e rq new_id name price).
Proof.
  apply stores_images_intro; unfold new_product_record; cbv zeta;
    rewrite Refinement.image_list_spec; unfold Spec.images;
    destruct (Spec.additional_images (form_get "additional_images" "" rq));
    simpl; split_ifs; dict_lookup.
Qed.

Lemma edited_product_images (e : env) (rq : request) (name : string) (price : spec_float)
      (old : dict) :
  Spec.stores_images rq (edited_product e rq name price old).
Proof.
  apply stores_images_intro; unfold edited_product; cbv zeta;
    rewrite Refinement.image_list_spec; unfold Spec.images;
    destruct (Spec.additional_images (form_get "additional_images" "" rq));
    simpl; split_ifs; dict_lookup.
Qed.

Lemma new_product_record_offers (e : env) (rq : request) (new_id name : string)
      (price : spec_float) :
  Spec.stores_offers e rq (new_product_record e rq new_id name price).
Proof.
  unfold Spec.stores_offers, Spec.stores_offers_with, new_product_record.
  fold (Spec.offers e (form_get "priceOffers" "" rq)). cbv zeta.
  rewrite Refinement.parse_offers_spec.
  destruct (Text.is_empty (Text.strip (form_get "priceOffers" "" rq))) eqn:E.
  - apply TextFacts.is_empty_true in E.
    rewrite (Refinement.offers_of_blank _ _ E). simpl.
    split_ifs; dict_lookup.
  - destruct (Spec.offers e (form_get "priceOffers" "" rq)); simpl;
      split_ifs; dict_lookup.
Qed.

Lemma edited_product_offers (e : env) (rq : request) (name : string) (price : spec_float)
      (old : dict) :
  Spec.stores_offers e rq (edited_product e rq name price old).
Proof.
  unfold Spec.stores_offers, Spec.stores_offers_with, edited_product.
  fold (Spec.offers e (form_get "priceOffers" "" rq)). cbv zeta.
  rewrite Refinement.parse_offers_spec.
  destruct (Text.is_empty (Text.strip (form_get "priceOffers" "" rq))) eqn:E.
  - apply TextFacts.is_empty_true in E.
    rewrite (Refinement.offers_of_blank _ _ E). simpl. dict_lookup.
  - destruct (Spec.offers e (form_get "priceOffers" "" rq)); simpl;
      dict_lookup.
Qed.

End RecordFacts.

(* ================================================================== *)
(** ** The commit gate                                                 *)
(* ================================================================== *)

Import ValidatorFacts RouteFacts RecordFacts.

(** [git_commit] always answers, and its first act is [git add db/]. *)
Lemma git_commit_runs_git_add (e : env) (msg : string) (w : world) :
  exists result later,
    git_commit e msg w
    = (Ok result,
       mkWorld (products_file w) (categories_file w)
               (subprocess_calls w ++ git_add_argv :: later)).
Proof.
  unfold git_commit, bind, subprocess_run, ret. simpl.
  destruct (run e git_add_argv) as [rc out err | text].
  - destruct (Z.eqb rc 0).
    + simpl. destruct (run e (git_commit_argv msg)) as [rc' out' err' | text].
      * destruct (Z.eqb rc' 0); do 2 eexists;
          rewrite <- app_assoc; reflexivity.
      * do 2 eexists. rewrite <- app_assoc. reflexivity.
    + do 2 eexists. reflexivity.
  - do 2 eexists. reflexivity.
Qed.

(** C1. When the validation report of the stored catalog holds at least
    one error, the checkpoint request [api_commit] answers with a failure,
    and the world after it is the world before it: no command was run, so
    the commit capability was not invoked, both collections are as they
    were, and the change detector sees what it saw. *)
Theorem commit_blocked_by_validation_errors
        (e : env) (w : world) (rep : report) :
  fst (validate_database w) = Ok rep ->
  errors rep <> [] ->
  api_commit e w
  = (Ok (jsonify (mkOutcome false "La base de datos tiene errores")), w)
  /\ subprocess_calls (snd (api_commit e w)) = subprocess_calls w
  /\ products_file (snd (api_commit e w)) = products_file w
  /\ categories_file (snd (api_commit e w)) = categories_file w
  /\ fst (has_uncommitted_changes e (snd (api_commit e w)))
     = fst (has_uncommitted_changes e w).
Proof.
  intros Hrep Herr. rewrite validate_database_run in Hrep. simpl in Hrep.
  assert (Hvalid : valid rep = false).
  { rewrite (validate_valid _ _ _ Hrep). destruct (errors rep); easy. }
  assert (Hrun : api_commit e w
                 = (Ok (jsonify
                          (mkOutcome false "La base de datos tiene errores")),
                    w)).
  { unfold api_commit, bind. rewrite validate_database_run, Hrep, Hvalid.
    reflexivity. }
  rewrite Hrun. auto.
Qed.

Lemma commit_blocked_by_validation_errors_witness :
  api_commit Samples.clean_env Samples.widget_world
  = (Ok (jsonify (mkOutcome false "La base de datos tiene errores")),
     Samples.widget_world).
Proof.
  eapply commit_blocked_by_validation_errors.
  - vm_compute. reflexivity.
  - simpl. discriminate.
Defined.

(** C3, as stated, fails on a clean tree: [api_commit] runs [git add] and
    [git commit] all the same, and answers with a failure. *)
Lemma checkpoint_on_clean_tree_still_commits :
  ~ Spec.checkpoint_is_noop_when_clean Samples.clean_env Samples.shop.
Proof.
  unfold Spec.checkpoint_is_noop_when_clean. intros H.
  destruct (H eq_refl) as [_ Hcalls]. vm_compute in Hcalls. discriminate.
Qed.

(** C3, amended. [api_commit] does not consult the change detector: when
    the validation report has no error, whether changes are pending or
    not, it invokes the commit capability, [git add db/] first, and
    answers with what [git_commit] answers.  When [git commit] then exits
    with a non-zero status and an empty stderr, as it does with nothing
    to commit, that answer is the failure "Error al guardar". *)
Theorem commit_ignores_change_detector (e : env) (w : world) (rep : report) :
  fst (validate_database w) = Ok rep ->
  errors rep = [] ->
  exists result w',
    git_commit e (commit_message e) w = (Ok result, w')
    /\ api_commit e w = (Ok (jsonify result), w')
    /\ (exists later,
          subprocess_calls w' = subprocess_calls w ++ git_add_argv :: later)
    /\ (forall out err rc out',
          run e git_add_argv = Completed 0 out err ->
          run e (git_commit_argv (commit_message e)) = Completed rc out' "" ->
          rc <> 0%Z ->
          result = mkOutcome false "Error al guardar").
Proof.
  intros Hrep Herr. rewrite validate_database_run in Hrep. simpl in Hrep.
  assert (Hvalid : valid rep = true).
  { rewrite (validate_valid _ _ _ Hrep), Herr. reflexivity. }
  destruct (git_commit_runs_git_add e (commit_message e) w)
    as (result & later & Hgit).
  exists result. eexists. split; [exact Hgit |]. split; [| split].
  - unfold api_commit, bind. rewrite validate_database_run, Hrep, Hvalid.
    simpl. now rewrite Hgit.
  - exists later. reflexivity.
  - intros out err rc out' Hadd Hcommit Hrc.
    unfold git_commit, bind, subprocess_run, ret in Hgit. simpl in Hgit.
    rewrite Hadd in Hgit. simpl in Hgit. rewrite Hcommit in Hgit.
    apply Z.eqb_neq in Hrc. rewrite Hrc in Hgit. simpl in Hgit.
    now injection Hgit as <- _.
Qed.

Lemma commit_ignores_change_detector_witness :
  exists result w',
    git_commit Samples.clean_env (commit_message Samples.clean_env)
               Samples.shop = (Ok result, w')
    /\ api_commit Samples.clean_env Samples.shop = (Ok (jsonify result), w')
    /\ (exists later,
          subprocess_calls w'
          = subprocess_calls Samples.shop ++ git_add_argv :: later)
    /\ (forall out err rc out',
          run Samples.clean_env git_add_argv = Completed 0 out err ->
          run Samples.clean_env
              (git_commit_argv (commit_message Samples.clean_env))
          = Completed rc out' "" ->
          rc <> 0%Z ->
          result = mkOutcome false "Error al guardar").
Proof.
  eapply commit_ignores_change_detector.
  - vm_compute. reflexivity.
  - reflexivity.
Defined.

(* ================================================================== *)
(** ** The validator                                                   *)
(* ================================================================== *)

(** C5, as stated, fails on a product whose price is [null]: its key is
    present, and the validator reports the price as missing. *)
Lemma null_price_is_reported_missing :
  ~ Spec.price_errors_exactly_for_absent_key
      [Samples.unpriced] [Samples.all; Samples.figuras].
Proof.
  unfold Spec.price_errors_exactly_for_absent_key. intros H.
  assert (E : exists rep,
             validate [Samples.unpriced] [Samples.all; Samples.figuras]
             = Ok rep)
    by (vm_compute; eexists; reflexivity).
  destruct E as [rep E]. pose proof (H rep E) as H'.
  vm_compute in E. injection E as <-. vm_compute in H'. discriminate.
Qed.

(** C5, amended. The missing-price errors of a validation report are, in
    order, one for each product on which the price test fires, naming
    [p.get('id', '?')]; the test fires exactly on the products whose price
    is absent or is [null], an empty string, an empty list or an empty
    object.  A price equal to zero, integer or float, is not missing. *)
Theorem price_errors_exactly_for_missing_price
        (products categories : list dict) (rep : report) :
  validate products categories = Ok rep ->
  filter Spec.is_price_issue (errors rep)
  = map Spec.price_issue_of (filter price_missing products)
  /\ (forall p,
        price_missing p = true
        <-> lookup "price" p = None
            \/ exists v, lookup "price" p = Some v
                         /\ In v [JNull; JStr ""; JList []; JDict []])
  /\ (forall p v,
        lookup "price" p = Some v -> py_eq v (JInt 0) = true ->
        price_missing p = false).
Proof.
  intros Hrep. split; [exact (validate_price_errors _ _ _ Hrep) |].
  split; [apply price_missing_iff |].
  intros p v Hv Hzero. unfold price_missing, get, get_default.
  rewrite Hv, Hzero. apply andb_false_r.
Qed.

Lemma price_errors_exactly_for_missing_price_witness :
  filter Spec.is_price_issue
         [UnknownCategory (JStr "Widget") (JStr "x");
          ProductWithoutPrice (JStr "c")]
  = map Spec.price_issue_of
        (filter price_missing [Samples.widget; Samples.priceless]).
Proof.
  refine (proj1 (price_errors_exactly_for_missing_price
                   [Samples.widget; Samples.priceless] []
                   (mkReport false
                      [UnknownCategory (JStr "Widget") (JStr "x");
                       ProductWithoutPrice (JStr "c")]
                      [ProductWithoutImage (JStr "Widget");
                       ProductWithoutCategories (JStr "Maceta");
                       ProductWithoutImage (JStr "Maceta")]
                      2 0) _)).
  vm_compute. reflexivity.
Defined.

Lemma category_ids_raise (categories : list dict) :
  Exists (fun c => contains "id" c = false) categories ->
  forall ids, exists e,
    for_each (fun ids c =>
                let? v := getitem "id" c in
                if hashable v then Ok (set_add v ids) else Raise TypeError)
             categories ids = Raise e.
Proof.
  induction 1 as [c cs Hc | c cs Hcs IH]; intros ids; simpl.
  - unfold getitem, contains in *. destruct (lookup "id" c); [discriminate |].
    simpl. eauto.
  - destruct (getitem "id" c) as [v|e]; simpl; [| eauto].
    destruct (hashable v); simpl; [apply IH | eauto].
Qed.

(** C10. The claim holds for products and for categories whose id is
    the empty string; for a category that has no [id] key the validator
    does not reach its own "Categoría sin ID encontrada" branch: building
    [category_ids] reads [c['id']] of every category first, and the run
    ends in an exception with no report at all. *)
Theorem category_without_id_key_aborts_validation
        (products categories : list dict) :
  Exists (fun c => contains "id" c = false) categories ->
  exists e, validate products categories = Raise e.
Proof.
  intros H. unfold validate, category_id_set.
  destruct (category_ids_raise categories H []) as [e He].
  exists e. now rewrite He.
Qed.

Lemma category_without_id_key_aborts_validation_witness :
  validate [] [Samples.nameless] = Raise KeyError
  /\ exists e, validate [] [Samples.nameless] = Raise e.
Proof.
  split; [reflexivity |].
  apply category_without_id_key_aborts_validation.
  constructor. reflexivity.
Defined.

(* ================================================================== *)
(** ** Deleting                                                        *)
(* ================================================================== *)

Lemma without_id_filter (unwanted : string) (records : list dict) :
  Forall (fun r => contains "id" r = true) records ->
  without_id unwanted records
  = Ok (filter (fun r => negb (py_eq (get "id" r) (JStr unwanted))) records).
Proof.
  induction 1 as [|r rs Hr Hrs IH]; simpl; [reflexivity |].
  unfold getitem, contains, get, get_default in *.
  destruct (lookup "id" r) as [v|]; [| discriminate].
  simpl. rewrite IH. reflexivity.
Qed.

(** C2. [delete_category] has no guard: on a collection whose records
    all carry an id it writes the collection without the records under
    the id asked for, the others in order, and answers that the category
    is deleted; it does so for "all" as for any other id, although the
    category list offers no delete link for "all".  (Were one of the
    records left such that it cannot be written, the write would raise
    and leave the file cut off.) *)
Theorem delete_category_removes_any_id (category_id : string) (w : world) :
  Forall (fun c => contains "id" c = true) (categories_file w) ->
  delete_category category_id w
  = View.categories_written
      category_deleted
      (filter (fun c => negb (py_eq (get "id" c) (JStr category_id)))
              (categories_file w))
      w.
Proof.
  intros H. unfold delete_category, bind, load_categories, lift,
    save_categories, ret, View.categories_written.
  rewrite (without_id_filter _ _ H).
  destruct (writable _); reflexivity.
Qed.

Lemma delete_category_removes_any_id_witness :
  shows_delete_link Samples.all = false
  /\ delete_category "all" Samples.shop
     = (Ok category_deleted,
        mkWorld [Samples.dragon] [Samples.figuras] []).
Proof.
  split; [reflexivity |].
  rewrite (delete_category_removes_any_id "all" Samples.shop);
    [reflexivity | repeat constructor].
Defined.

(* ================================================================== *)
(** ** Creating and updating                                           *)
(* ================================================================== *)

Lemma form_price_unparseable (e : env) (rq : request) :
  Spec.price_unparseable e rq -> form_price e rq = Raise ValueError.
Proof.
  intros (text & Htext & Hparse). unfold form_price.
  rewrite Htext. simpl. now rewrite Hparse.
Qed.

(** C4, as stated, fails on a price written with a decimal comma: the
    create request ends in an exception, not in an answer. *)
Lemma decimal_comma_price_raises :
  ~ Spec.invalid_price_is_answered
      Samples.clean_env Samples.create_comma_price Samples.shop.
Proof.
  unfold Spec.invalid_price_is_answered. intros H.
  destruct (H eq_refl) as [answer Hanswer].
  - exists "12,50". split; reflexivity.
  - vm_compute in Hanswer. discriminate.
Qed.

(** C4, amended. A create or update request whose price field is not
    parseable as a number produces no answer: once the id is found free
    (create) or the record is found (update) and the name is read,
    [float()] raises ValueError, which leaves the route; the world, and
    with it the stored catalog, is as before. *)
Theorem unparseable_price_raises_ValueError
        (e : env) (rq : request) (w : world) (name : string) :
  method rq = POST ->
  form_getitem "name" rq = Ok name ->
  Spec.price_unparseable e rq ->
  (forall raw,
      form_getitem "id" rq = Ok raw ->
      any_id (normalize_id e raw) (products_file w) = Ok false ->
      new_product e rq w = (Raise ValueError, w))
  /\ (forall product_id found,
        find_by_id product_id (products_file w) = Ok (Some found) ->
        edit_product e product_id rq w = (Raise ValueError, w)).
Proof.
  intros Hm Hname Hprice. apply form_price_unparseable in Hprice. split.
  - intros raw Hid Hany.
    unfold new_product, bind, load_products, lift.
    now rewrite Hm, Hid, Hany, Hname, Hprice.
  - intros product_id [[before old] after] Hfind.
    unfold edit_product, bind, load_products, lift. rewrite Hfind.
    destruct (find_by_id_split _ _ _ _ _ Hfind) as [_ Hid].
    rewrite (found_is_truthy _ _ Hid). simpl.
    now rewrite Hm, Hname, Hprice.
Qed.

Lemma unparseable_price_raises_ValueError_witness :
  new_product Samples.clean_env Samples.create_comma_price Samples.shop
  = (Raise ValueError, Samples.shop)
  /\ edit_product Samples.clean_env "dragon" Samples.create_comma_price
                  Samples.shop
     = (Raise ValueError, Samples.shop).
Proof.
  assert (H : Spec.price_unparseable Samples.clean_env Samples.create_comma_price)
    by (exists "12,50"; split; reflexivity).
  destruct (unparseable_price_raises_ValueError
              Samples.clean_env Samples.create_comma_price Samples.shop
              "Fénix" eq_refl eq_refl H) as [Hnew Hedit].
  split.
  - apply (Hnew "fenix"); reflexivity.
  - apply (Hedit "dragon" ([], Samples.dragon, [])). reflexivity.
Defined.

(** C6, as stated, fails on a create with the popular box unticked: the
    stored category holds [popular] with the value [False]. *)
Lemma unticked_popular_is_stored_false :
  ~ Spec.category_flags_by_presence
      Samples.clean_env Samples.create_navidad Samples.shop.
Proof.
  unfold Spec.category_flags_by_presence. intros H.
  destruct (H _ eq_refl) as (c & Hc & Hpopular & _).
  vm_compute in Hc. injection Hc as <-.
  vm_compute in Hpopular. discriminate.
Qed.

Lemma new_category_record_flags (rq : request) (new_id name : string) :
  Spec.stores_flags rq (new_category_record rq new_id name).
Proof.
  unfold Spec.stores_flags, Spec.presence_encodes, new_category_record.
  cbv zeta. repeat split; split_ifs; dict_lookup.
Qed.

Lemma edited_category_flags (rq : request) (name : string) (old : dict) :
  Spec.stores_flags rq (edited_category rq name old).
Proof.
  unfold Spec.stores_flags, Spec.presence_encodes, edited_category.
  cbv zeta. repeat split; split_ifs; dict_lookup.
Qed.

(** C6, amended. After every successful category create or update, the
    flags [seasonal] and [hidden] follow the presence-encodes-true
    convention: the key holds [True] when the box is ticked and is absent
    otherwise.  The flag [popular] is always stored, as the boolean that
    says whether its box is ticked. *)
Theorem category_flags_as_stored (e : env) (rq : request) (w w' : world) :
  (new_category e rq w = (Ok category_created, w') ->
   exists c,
     categories_file w' = categories_file w ++ [c]
     /\ Spec.stores_flags rq c)
  /\ (forall category_id,
        edit_category category_id rq w = (Ok category_updated, w') ->
        exists before old c after,
          categories_file w = before ++ old :: after
          /\ lookup "id" old = Some (JStr category_id)
          /\ categories_file w' = before ++ c :: after
          /\ Spec.stores_flags rq c).
Proof.
  split.
  - intros H. apply new_category_created_inv in H.
    destruct H as (raw & name & _ & _ & _ & _ & ->).
    eexists. split; [reflexivity | apply new_category_record_flags].
  - intros category_id H. apply edit_category_updated_inv in H.
    destruct H as (before & old & after & name & _ & Hfind & _ & ->).
    apply find_by_id_split in Hfind. destruct Hfind as [Hsplit Hid].
    exists before, old, (edited_category rq name old), after.
    repeat split; try assumption; apply edited_category_flags.
Qed.

Lemma category_flags_as_stored_witness :
  (exists c,
      categories_file
        (snd (new_category Samples.clean_env Samples.create_navidad
                           Samples.shop))
      = categories_file Samples.shop ++ [c]
      /\ Spec.stores_flags Samples.create_navidad c)
  /\ (exists before old c after,
        categories_file Samples.shop = before ++ old :: after
        /\ lookup "id" old = Some (JStr "figuras")
        /\ categories_file
             (snd (edit_category "figuras" Samples.create_navidad
                                 Samples.shop))
           = before ++ c :: after
        /\ Spec.stores_flags Samples.create_navidad c).
Proof.
  split.
  - apply (proj1 (category_flags_as_stored
                    Samples.clean_env Samples.create_navidad Samples.shop _)).
    reflexivity.
  - apply (proj2 (category_flags_as_stored
                    Samples.clean_env Samples.create_navidad Samples.shop _)
                 "figuras").
    reflexivity.
Defined.

(** C7, as stated, fails when a record without an id is stored ahead of
    the record that has the id: reading [p['id']] raises KeyError. *)
Lemma record_without_id_hides_duplicate :
  ~ Spec.duplicate_id_is_rejected
      Samples.clean_env Samples.create_dragon_again
      (mkWorld [Samples.nameless; Samples.dragon] [] []).
Proof.
  unfold Spec.duplicate_id_is_rejected. intros H.
  specialize (H "Dragon" Samples.dragon eq_refl eq_refl).
  assert (Hin : In Samples.dragon [Samples.nameless; Samples.dragon])
    by (right; left; reflexivity).
  specialize (H Hin eq_refl). vm_compute in H. discriminate.
Qed.

(** C7, amended. A create-product or create-category request whose
    normalized id (lowercased, spaces replaced by underscores) is the id
    of a stored record, every record stored ahead of that one carrying an
    id, is answered with the duplicate-id message, and the world is as
    before: no record is added and none is modified. *)
Theorem duplicate_id_rejected (e : env) (rq : request) (w : world)
        (raw : string) (before after : list dict) (r : dict) :
  method rq = POST ->
  form_getitem "id" rq = Ok raw ->
  Forall (fun x => contains "id" x = true) before ->
  lookup "id" r = Some (JStr (normalize_id e raw)) ->
  (products_file w = before ++ r :: after ->
   new_product e rq w = (Ok product_exists, w))
  /\ (categories_file w = before ++ r :: after ->
      new_category e rq w = (Ok category_exists, w)).
Proof.
  intros Hm Hid Hbefore Hr.
  pose proof (any_id_found _ before after r Hbefore Hr) as Hany.
  split; intros Hfile.
  - unfold new_product, bind, load_products, lift.
    now rewrite Hm, Hid, Hfile, Hany.
  - unfold new_category, bind, load_categories, lift.
    now rewrite Hm, Hid, Hfile, Hany.
Qed.

Lemma duplicate_id_rejected_witness :
  new_product Samples.clean_env Samples.create_dragon_again Samples.shop
  = (Ok product_exists, Samples.shop)
  /\ new_category Samples.clean_env (mkRequest POST [("id", "Figuras"); ("name", "Otra")])
                  Samples.shop
     = (Ok category_exists, Samples.shop).
Proof.
  split.
  - apply (proj1 (duplicate_id_rejected
                    Samples.clean_env Samples.create_dragon_again
                    Samples.shop "Dragon" [] [] Samples.dragon
                    eq_refl eq_refl (Forall_nil _) eq_refl)).
    reflexivity.
  - apply (proj2 (duplicate_id_rejected
                    Samples.clean_env
                    (mkRequest POST [("id", "Figuras"); ("name", "Otra")])
                    Samples.shop "Figuras" [Samples.all] [] Samples.figuras
                    eq_refl eq_refl
                    (Forall_cons Samples.all (eq_refl true) (Forall_nil _))
                    eq_refl)).
    reflexivity.
Defined.

(** What [strip] gives, when it gives a text at all, has no white space
    around it. *)
Lemma strip_trimmed (line : string) :
  Text.strip line <> "" -> View.trimmed (Text.strip line).
Proof.
  intros Hne. split; [exact Hne |].
  split; [apply TextFacts.strip_starts |].
  split; [| apply TextFacts.strip_idem].
  intros (before & space & Hs & Hspace).
  pose proof (TextFacts.strip_ends _ _ _ Hs (TextFacts.blank_one _ Hspace))
    as Hempty.
  rewrite Hempty in Hspace. discriminate.
Qed.

(** The entries of the specification are those the lines of the field
    give. *)
Lemma additional_images_picked (text : string) :
  View.lines_of text (Text.split Text.newline text)
  /\ View.picked (Text.split Text.newline text)
                 (Spec.additional_images text).
Proof.
  split.
  - split; [apply (TextFacts.join_split_from "" text) |].
    split; [apply TextFacts.split_from_nonempty |].
    now apply TextFacts.split_from_without.
  - unfold Spec.additional_images, Spec.nonblank.
    induction (Text.split Text.newline text) as [|line lines IH];
      simpl; [constructor |].
    destruct (Text.is_empty (Text.strip line)) eqn:E; simpl.
    + apply View.picked_skip; [| exact IH].
      apply TextFacts.strip_blank. now apply TextFacts.is_empty_true.
    + apply View.picked_take; [| exact IH].
      destruct (TextFacts.strip_split line) as (l & r & Hline & Hl & Hr).
      exists l, r. repeat split; try assumption;
        apply strip_trimmed; intros H; rewrite H in E; discriminate.
Qed.

Lemma stores_images_from_lines (rq : request) (p : dict) :
  Spec.stores_images rq p -> View.images_from_lines rq p.
Proof.
  intros (Himage & Himages & _).
  destruct (additional_images_picked (form_get "additional_images" "" rq))
    as [Hlines Hpicked].
  exists (Text.split Text.newline (form_get "additional_images" "" rq)),
    (Spec.additional_images (form_get "additional_images" "" rq)).
  repeat split; try assumption; apply Hlines.
Qed.

(** C8. After every successful create or update of a product, the stored
    record holds the main image under [image]; its [images] list is the
    main image followed by the non-blank lines of the additional-images
    field, in input order and without the white space around them; when
    there is no such line the [images] key is absent; and whenever
    [images] is present its first entry is the [image] field.  The lines
    are those that, with a line feed between them, make up the field; a
    line of white space only gives no entry, any other line the text
    between the white space it starts and ends with. *)
Theorem product_images_as_specified (e : env) (rq : request) (w w' : world) :
  (new_product e rq w = (Ok product_created, w') ->
   exists p,
     products_file w' = products_file w ++ [p]
     /\ Spec.stores_images rq p
     /\ View.images_from_lines rq p)
  /\ (forall product_id,
        edit_product e product_id rq w = (Ok product_updated, w') ->
        exists before old p after,
          products_file w = before ++ old :: after
          /\ lookup "id" old = Some (JStr product_id)
          /\ products_file w' = before ++ p :: after
          /\ Spec.stores_images rq p
          /\ View.images_from_lines rq p).
Proof.
  split.
  - intros H. apply new_product_created_inv in H.
    destruct H as (raw & name & price & _ & _ & _ & _ & _ & ->).
    pose proof (new_product_record_images
                  e rq (normalize_id e raw) name price) as Hs.
    eexists. split; [reflexivity |]. split; [exact Hs |].
    now apply stores_images_from_lines.
  - intros product_id H. apply edit_product_updated_inv in H.
    destruct H as (before & old & after & name & price
                   & _ & Hfind & _ & _ & ->).
    apply find_by_id_split in Hfind. destruct Hfind as [Hsplit Hid].
    pose proof (edited_product_images e rq name price old) as Hs.
    exists before, old, (edited_product e rq name price old), after.
    repeat split; try assumption; try apply Hs.
    now apply stores_images_from_lines.
Qed.

Lemma product_images_as_specified_witness :
  (exists p,
      products_file
        (snd (new_product Samples.clean_env Samples.create_fenix
                          Samples.shop))
      = products_file Samples.shop ++ [p]
      /\ Spec.stores_images Samples.create_fenix p
      /\ lookup "images" p
         = Some (json_strings
                   ["products/a.jpg"; "products/b.jpg"; "products/c.jpg"]))
  /\ (exists before old p after,
        products_file Samples.shop = before ++ old :: after
        /\ lookup "id" old = Some (JStr "dragon")
        /\ products_file
             (snd (edit_product Samples.clean_env "dragon"
                                Samples.update_fields Samples.shop))
           = before ++ p :: after
        /\ Spec.stores_images Samples.update_fields p
        /\ lookup "images" p
           = Some (json_strings
                     ["products/a.jpg"; "products/b.jpg"; "products/c.jpg"])).
Proof.
  split.
  - destruct (proj1 (product_images_as_specified
                       Samples.clean_env Samples.create_fenix Samples.shop _)
                    eq_refl) as (p & Hp & Hs & _).
    exists p. split; [exact Hp |]. split; [exact Hs |].
    destruct Hs as (_ & Himages & _). rewrite Himages. reflexivity.
  - destruct (proj2 (product_images_as_specified
                       Samples.clean_env Samples.update_fields Samples.shop _)
                    "dragon" eq_refl)
      as (before & old & p & after & Hsplit & Hid & Hp & Hs & _).
    exists before, old, p, after. repeat split; try assumption.
    + apply Hs.
    + apply Hs.
    + apply Hs.
    + destruct Hs as (_ & Himages & _). rewrite Himages. reflexivity.
Defined.

(** C9, as stated, fails on a quantity written "05": the offer stored
    has the quantity 5 and the label "05+ unidades", the text entered,
    where the claim puts the quantity, "5+ unidades". *)
Lemma default_label_is_the_text_entered :
  ~ Spec.offers_labelled_by_quantity
      Samples.clean_env Cases.create_zero_five Samples.shop.
Proof.
  unfold Spec.offers_labelled_by_quantity. intros H.
  destruct (H _ eq_refl) as (p & Hp & Hoffers).
  vm_compute in Hp. injection Hp as <-.
  vm_compute in Hoffers. discriminate.
Qed.

(** C9, amended. The offers of a create or update are read line by line
    from the priceOffers field: a line is split on commas into quantity,
    price and an optional label; a line with fewer than two parts, or
    whose quantity [int()] refuses or whose price [float()] refuses,
    yields nothing; a line without a label gets the text of its quantity
    part, as entered, followed by "+ unidades".  No line makes the request
    fail: a create under a free id, or an update of a record that is
    found, with a name and a price that parses, comes to its write
    whatever the field holds, and the record it writes has the offers
    that parsed under [priceOffers], or no such key when none did. *)
Theorem price_offers_as_specified (e : env) (rq : request) (w : world)
        (name : string) (price : spec_float) :
  method rq = POST ->
  form_getitem "name" rq = Ok name ->
  form_price e rq = Ok price ->
  (forall line, offer_of_line e line = Spec.offer e line)
  /\ (forall raw,
        form_getitem "id" rq = Ok raw ->
        any_id (normalize_id e raw) (products_file w) = Ok false ->
        new_product e rq w
        = View.products_written
            product_created
            (products_file w
             ++ [new_product_record e rq (normalize_id e raw) name price])
            w
        /\ Spec.stores_offers
             e rq (new_product_record e rq (normalize_id e raw) name price))
  /\ (forall product_id before old after,
        find_by_id product_id (products_file w)
        = Ok (Some (before, old, after)) ->
        edit_product e product_id rq w
        = View.products_written
            product_updated
            (before ++ edited_product e rq name price old :: after) w
        /\ Spec.stores_offers e rq (edited_product e rq name price old)).
Proof.
  intros Hm Hname Hprice. split; [apply Refinement.offer_of_line_spec |].
  split.
  - intros raw Hid Hany. split.
    + now apply new_product_succeeds.
    + apply new_product_record_offers.
  - intros product_id before old after Hfind. split.
    + now apply edit_product_succeeds.
    + apply edited_product_offers.
Qed.

Lemma price_offers_as_specified_witness :
  Spec.offers Samples.clean_env
              (form_get "priceOffers" "" Samples.create_fenix)
  = [[("quantity", JInt 5);
      ("price", JFloat (S754_finite false 4925812092436480 (-48)));
      ("label", JStr "5+ unidades")];
     [("quantity", JInt 10);
      ("price", JFloat (S754_finite false 8444249301319680 (-49)));
      ("label", JStr "Pack de diez")];
     [("quantity", JInt 3);
      ("price", JFloat (S754_finite true 4503599627370496 (-51)));
      ("label", JStr "3+ unidades")]]
  /\ (exists p,
         new_product Samples.clean_env Samples.create_fenix Samples.shop
         = (Ok product_created,
            mkWorld (products_file Samples.shop ++ [p])
                    (categories_file Samples.shop)
                    (subprocess_calls Samples.shop))
         /\ Spec.stores_offers Samples.clean_env Samples.create_fenix p
         /\ lookup "priceOffers" p
            = Some (JList
                      (map JDict
                           (Spec.offers
                              Samples.clean_env
                              (form_get "priceOffers" ""
                                        Samples.create_fenix)))))
  /\ (exists p,
         edit_product Samples.clean_env "dragon" Samples.update_fields
                      Samples.shop
         = (Ok product_updated,
            mkWorld ([] ++ p :: []) (categories_file Samples.shop)
                    (subprocess_calls Samples.shop))
         /\ Spec.stores_offers Samples.clean_env Samples.update_fields p).
Proof.
  split; [vm_compute; reflexivity |]. split.
  - destruct (proj1 (proj2 (price_offers_as_specified
                              Samples.clean_env Samples.create_fenix
                              Samples.shop "Fénix"
                              (S754_finite false 5601352036542054 (-48))
                              eq_refl eq_refl eq_refl))
                    "Ave Fenix" eq_refl eq_refl) as [Hroute Hoffers].
    eexists. split; [rewrite Hroute; reflexivity |].
    split; [exact Hoffers |]. rewrite Hoffers. reflexivity.
  - destruct (proj2 (proj2 (price_offers_as_specified
                              Samples.clean_env Samples.update_fields
                              Samples.shop "Dragón"
                              (S754_finite false 7881299347898368 (-49))
                              eq_refl eq_refl eq_refl))
                    "dragon" [] Samples.dragon [] eq_refl)
      as [Hroute Hoffers].
    eexists. split; [rewrite Hroute; reflexivity |]. exact Hoffers.
Defined.

(* ================================================================== *)
(** ** Further properties: text                                        *)
(* ================================================================== *)

Lemma replace_has_no (a b : ascii) (s : string) :
  Ascii.eqb b a = false -> View.has_char a (Text.replace a b s) = false.
Proof.
  intros Hb. induction s as [|c s IH]; simpl; [reflexivity |].
  rewrite IH, orb_false_r.
  destruct (Ascii.eqb c a) eqn:E; [exact Hb | exact E].
Qed.

Lemma replace_keeps (a b : ascii) (s : string) :
  View.has_char a s = false -> Text.replace a b s = s.
Proof.
  induction s as [|c s IH]; simpl; [reflexivity |].
  intros H. apply orb_false_iff in H. destruct H as [Hc Hs].
  now rewrite Hc, (IH Hs).
Qed.

Lemma replace_length (a b : ascii) (s : string) :
  String.length (Text.replace a b s) = String.length s.
Proof. induction s as [|c s IH]; simpl; [reflexivity | now rewrite IH]. Qed.

(** X1. An id as the create routes normalize it holds no space, whatever
    [lower()] gives, and is as long as the lowered text.  A text that
    [lower()] leaves as it is and that holds no space is its own
    normalized id. *)
Theorem normalize_id_canonical (e : env) (text : string) :
  View.has_char " " (normalize_id e text) = false
  /\ String.length (normalize_id e text) = String.length (str_lower e text)
  /\ (str_lower e text = text ->
      View.has_char " " text = false ->
      normalize_id e text = text).
Proof.
  unfold normalize_id. split; [now apply replace_has_no |].
  split; [apply replace_length |].
  intros Hlower Hspace. rewrite Hlower. now apply replace_keeps.
Qed.

Lemma normalize_id_canonical_witness :
  normalize_id Samples.clean_env "Ave Fenix 2" = "ave_fenix_2"
  /\ View.has_char " " "ave_fenix_2" = false
  /\ normalize_id Samples.clean_env "ave_fenix_2" = "ave_fenix_2".
Proof.
  split; [reflexivity |]. split.
  - exact (proj1 (normalize_id_canonical Samples.clean_env "Ave Fenix 2")).
  - apply (proj2 (proj2 (normalize_id_canonical
                           Samples.clean_env "ave_fenix_2")));
      reflexivity.
Defined.

Lemma additional_images_trimmed (text : string) :
  Forall View.trimmed (Spec.additional_images text)
  /\ length (Spec.additional_images text)
     <= length (Text.split Text.newline text).
Proof.
  unfold Spec.additional_images, Spec.nonblank.
  induction (Text.split Text.newline text) as [|line lines IH];
    simpl; [split; [constructor | lia] |].
  destruct IH as [IH1 IH2].
  destruct (Text.is_empty (Text.strip line)) eqn:E; simpl.
  - split; [exact IH1 | lia].
  - split; [| lia]. constructor; [| exact IH1].
    apply strip_trimmed. intros H. rewrite H in E. discriminate.
Qed.

(** X2. The list the image block builds starts with the main image, as
    given, and goes on with at most one entry per line of the field; no
    entry after the first is empty, starts with a white-space character
    or ends with one. *)
Theorem image_list_entries_trimmed (main_image additional_images : string) :
  exists rest,
    image_list main_image additional_images = main_image :: rest
    /\ Forall View.trimmed rest
    /\ length rest <= length (Text.split Text.newline additional_images).
Proof.
  exists (Spec.additional_images additional_images).
  split; [apply Refinement.image_list_spec |].
  apply additional_images_trimmed.
Qed.

Lemma image_list_entries_trimmed_witness :
  image_list "products/a.jpg" Samples.two_more_images
  = ["products/a.jpg"; "products/b.jpg"; "products/c.jpg"]
  /\ image_list "products/a.jpg" Samples.no_break_space = ["products/a.jpg"]
  /\ Forall View.trimmed ["products/b.jpg"; "products/c.jpg"].
Proof.
  split; [reflexivity |]. split; [reflexivity |].
  destruct (image_list_entries_trimmed
              "products/a.jpg" Samples.two_more_images)
    as (rest & Hrest & Htrimmed & _).
  vm_compute in Hrest. injection Hrest as <-. exact Htrimmed.
Defined.

(* ================================================================== *)
(** ** Further properties: the git helpers                             *)
(* ================================================================== *)

(** X3. The two readings of [git status] agree:
    [has_uncommitted_changes] answers [True] exactly when
    [get_git_status] lists at least one change; both run the one status
    command and nothing else, and neither raises. *)
Theorem change_detector_agrees_with_listing (e : env) (w : world) :
  exists pending changes,
    has_uncommitted_changes e w
    = (Ok pending,
       mkWorld (products_file w) (categories_file w)
               (subprocess_calls w ++ [git_status_argv]))
    /\ get_git_status e w
       = (Ok changes,
          mkWorld (products_file w) (categories_file w)
                  (subprocess_calls w ++ [git_status_argv]))
    /\ (pending = true <-> changes <> [])
    /\ Forall View.trimmed changes.
Proof.
  unfold has_uncommitted_changes, get_git_status, bind, subprocess_run, ret.
  simpl. destruct (run e git_status_argv) as [rc out err | text].
  - do 2 eexists. split; [reflexivity |]. split; [reflexivity |].
    destruct (Text.is_empty (Text.strip out)) eqn:E; simpl.
    + split; [| constructor]. split; [discriminate | congruence].
    + fold (Spec.nonblank).
      change (map Text.strip
                (filter Spec.nonblank
                        (Text.split Text.newline (Text.strip out))))
        with (Spec.additional_images (Text.strip out)).
      split.
      * split; [| reflexivity]. intros _ Hnil.
        rewrite Refinement.additional_images_collect in Hnil.
        apply TextFacts.no_line_blank in Hnil.
        rewrite TextFacts.strip_idem in Hnil. rewrite Hnil in E.
        discriminate.
      * apply additional_images_trimmed.
  - do 2 eexists. split; [reflexivity |]. split; [reflexivity |].
    split; [| constructor]. split; [discriminate | congruence].
Qed.

(** X4. [git_commit] never raises and never touches the catalog files;
    it answers success exactly when [git add] and then [git commit] both
    exit with status 0. *)
Theorem git_commit_success_iff (e : env) (msg : string) (w : world) :
  exists result w',
    git_commit e msg w = (Ok result, w')
    /\ products_file w' = products_file w
    /\ categories_file w' = categories_file w
    /\ (success result = true
        <-> (exists out err, run e git_add_argv = Completed 0 out err)
            /\ (exists out err,
                   run e (git_commit_argv msg) = Completed 0 out err)).
Proof.
  unfold git_commit, bind, subprocess_run, ret. simpl.
  destruct (run e git_add_argv) as [rc out err | text].
  - destruct (Z.eqb rc 0) eqn:Erc.
    + apply Z.eqb_eq in Erc. subst rc. simpl.
      destruct (run e (git_commit_argv msg)) as [rc' out' err' | text].
      * destruct (Z.eqb rc' 0) eqn:Erc'.
        -- apply Z.eqb_eq in Erc'. subst rc'.
           do 2 eexists. repeat split; eauto.
        -- apply Z.eqb_neq in Erc'.
           do 2 eexists. repeat split; try discriminate.
           intros [_ (o & x & H)]. injection H as H _ _. congruence.
      * do 2 eexists. repeat split; try discriminate.
        intros [_ (o & x & H)]. discriminate.
    + apply Z.eqb_neq in Erc.
      do 2 eexists. repeat split; try discriminate.
      intros [(o & x & H) _]. injection H as H _ _. congruence.
  - do 2 eexists. repeat split; try discriminate.
    intros [(o & x & H) _]. discriminate.
Qed.

(** X5. When [git add db/] does not exit with status 0, [git_commit]
    answers failure and [git commit] is not run: [git add] is the only
    command of the request. *)
Theorem git_add_failure_skips_commit (e : env) (msg : string) (w : world) :
  (forall out err, run e git_add_argv <> Completed 0 out err) ->
  exists text,
    git_commit e msg w
    = (Ok (mkOutcome false text),
       mkWorld (products_file w) (categories_file w)
               (subprocess_calls w ++ [git_add_argv])).
Proof.
  intros Hadd. unfold git_commit, bind, subprocess_run, ret. simpl.
  destruct (run e git_add_argv) as [rc out err | text].
  - destruct (Z.eqb rc 0) eqn:Erc.
    + apply Z.eqb_eq in Erc. subst rc. now destruct (Hadd out err).
    + eexists. reflexivity.
  - eexists. reflexivity.
Qed.

Lemma git_add_failure_skips_commit_witness :
  exists text,
    git_commit Cases.broken_env "Actualización" Samples.shop
    = (Ok (mkOutcome false text),
       mkWorld (products_file Samples.shop) (categories_file Samples.shop)
               (subprocess_calls Samples.shop ++ [git_add_argv])).
Proof.
  apply git_add_failure_skips_commit. intros out err. discriminate.
Defined.

(** X6. A checkpoint that answers success has passed validation: the
    stored catalog validated with no error, [git add] and [git commit]
    were the two commands run, in that order, [git commit] exited with
    status 0, and the catalog files are as they were. *)
Theorem commit_success_means_validated (e : env) (w w' : world)
        (result : outcome) :
  api_commit e w = (Ok (jsonify result), w') ->
  success result = true ->
  (exists rep,
      validate (products_file w) (categories_file w) = Ok rep
      /\ errors rep = [])
  /\ (exists out err,
         run e (git_commit_argv (commit_message e)) = Completed 0 out err)
  /\ w' = mkWorld (products_file w) (categories_file w)
                  (subprocess_calls w
                   ++ [git_add_argv; git_commit_argv (commit_message e)]).
Proof.
  unfold api_commit, bind. rewrite validate_database_run.
  destruct (validate (products_file w) (categories_file w))
    as [rep|x] eqn:Hrep; [| discriminate].
  pose proof (validate_valid _ _ _ Hrep) as Hvalid.
  destruct (valid rep) eqn:Ev; simpl.
  - unfold git_commit, bind, subprocess_run, ret. simpl.
    destruct (run e git_add_argv) as [rc out err | text].
    + destruct (Z.eqb rc 0) eqn:Erc.
      * simpl.
        destruct (run e (git_commit_argv (commit_message e)))
          as [rc' out' err' | text].
        -- destruct (Z.eqb rc' 0) eqn:Erc'.
           ++ apply Z.eqb_eq in Erc'. subst rc'.
              intros H _. injection H as <- <-.
              split; [| split].
              ** exists rep. split; [reflexivity |].
                 destruct (errors rep); [reflexivity | discriminate].
              ** eauto.
              ** now rewrite <- app_assoc.
           ++ intros H Hs. injection H as <- _. discriminate.
        -- intros H Hs. injection H as <- _. discriminate.
      * intros H Hs. injection H as <- _. discriminate.
    + intros H Hs. injection H as <- _. discriminate.
  - unfold ret. intros H Hs. injection H as <- _. discriminate.
Qed.

Lemma commit_success_means_validated_witness :
  (exists rep,
      validate (products_file Samples.shop) (categories_file Samples.shop)
      = Ok rep
      /\ errors rep = [])
  /\ (exists out err,
         run Cases.dirty_env (git_commit_argv (commit_message Cases.dirty_env))
         = Completed 0 out err)
  /\ snd (api_commit Cases.dirty_env Samples.shop)
     = mkWorld (products_file Samples.shop) (categories_file Samples.shop)
               (subprocess_calls Samples.shop
                ++ [git_add_argv;
                    git_commit_argv (commit_message Cases.dirty_env)]).
Proof.
  apply (commit_success_means_validated
           Cases.dirty_env Samples.shop _
           (mkOutcome true "Cambios guardados correctamente")).
  - vm_compute. reflexivity.
  - reflexivity.
Defined.

(* ================================================================== *)
(** ** Further properties: the mutation routes                         *)
(* ================================================================== *)

Lemma world_eta (w : world) :
  mkWorld (products_file w) (categories_file w) (subprocess_calls w) = w.
Proof. destruct w; reflexivity. Qed.

Lemma filter_all {A} (f : A -> bool) (l : list A) :
  Forall (fun x => f x = true) l -> filter f l = l.
Proof.
  induction 1 as [|x l Hx Hl IH]; simpl; [reflexivity |].
  now rewrite Hx, IH.
Qed.

Lemma filter_filter {A} (f : A -> bool) (l : list A) :
  filter f (filter f l) = filter f l.
Proof.
  induction l as [|x l IH]; simpl; [reflexivity |].
  destruct (f x) eqn:E; simpl; [now rewrite E, IH | exact IH].
Qed.

Lemma Forall_filter {A} (P : A -> Prop) (f : A -> bool) (l : list A) :
  Forall P l -> Forall P (filter f l).
Proof.
  induction 1 as [|x l Hx Hl IH]; simpl; [constructor |].
  destruct (f x); [now constructor | exact IH].
Qed.

(** [any] answers [False] only after reading the id of every record. *)
Lemma any_id_false_inv (new_id : string) (records : list dict) :
  any_id new_id records = Ok false ->
  Forall (fun r => View.has_id r = true) records
  /\ Forall (fun r => View.other_id new_id r = true) records.
Proof.
  induction records as [|r rs IH]; simpl; [now split |].
  unfold getitem.
  destruct (lookup "id" r) as [v|] eqn:Hid; simpl; [| discriminate].
  destruct (py_eq v (JStr new_id)) eqn:Heq; [discriminate |].
  intros H. destruct (IH H) as [H1 H2]. split; constructor; auto.
  - unfold View.has_id, contains. now rewrite Hid.
  - unfold View.other_id, get, get_default. now rewrite Hid, Heq.
Qed.

Lemma find_by_id_none (wanted : string) (records : list dict) :
  Forall (fun r => View.has_id r = true) records ->
  Forall (fun r => View.other_id wanted r = true) records ->
  find_by_id wanted records = Ok None.
Proof.
  induction 1 as [|r rs Hr Hrs IH]; intros Hother; simpl; [reflexivity |].
  inversion Hother as [|? ? Ho Hos]; subst.
  unfold getitem, View.has_id, View.other_id, contains, get, get_default in *.
  destruct (lookup "id" r) as [v|]; [| discriminate]. simpl.
  apply negb_true_iff in Ho. rewrite Ho, (IH Hos). reflexivity.
Qed.

Lemma without_id_raises (unwanted : string) (records : list dict) :
  Exists (fun r => View.has_id r = false) records ->
  without_id unwanted records = Raise KeyError.
Proof.
  induction 1 as [r rs Hr | r rs Hrs IH]; simpl;
    unfold getitem, View.has_id, contains in *.
  - destruct (lookup "id" r); [discriminate | reflexivity].
  - destruct (lookup "id" r); [| reflexivity]. simpl. now rewrite IH.
Qed.

Lemma new_product_record_id (e : env) (rq : request) (new_id name : string)
      (price : spec_float) :
  lookup "id" (new_product_record e rq new_id name price) = Some (JStr new_id)
  /\ lookup "createdAt" (new_product_record e rq new_id name price)
     = Some (JStr (now_date e)).
Proof.
  unfold new_product_record. cbv zeta. split; split_ifs; dict_lookup.
Qed.

Lemma new_category_record_id (rq : request) (new_id name : string) :
  lookup "id" (new_category_record rq new_id name) = Some (JStr new_id).
Proof.
  unfold new_category_record. cbv zeta. split_ifs; dict_lookup.
Qed.

Lemma has_id_of_lookup (r : dict) (v : json) :
  lookup "id" r = Some v -> View.has_id r = true.
Proof. unfold View.has_id, contains. now intros ->. Qed.

Lemma other_id_of_lookup (r : dict) (id : string) :
  lookup "id" r = Some (JStr id) -> View.other_id id r = false.
Proof.
  unfold View.other_id, get, get_default. intros ->. simpl.
  now rewrite String.eqb_refl.
Qed.

Lemma form_getitem_raise (k : string) (rq : request) (x : exn) :
  form_getitem k rq = Raise x -> x = BadRequestKeyError.
Proof.
  unfold form_getitem. destruct (form_lookup k (form rq)); [discriminate |].
  now intros [= <-].
Qed.

Lemma form_price_raise (e : env) (rq : request) (x : exn) :
  form_price e rq = Raise x -> x = BadRequestKeyError \/ x = ValueError.
Proof.
  unfold form_price. destruct (form_getitem "price" rq) as [text|y] eqn:E.
  - simpl. destruct (str_float e text); [discriminate |].
    intros [= <-]. now right.
  - simpl. intros [= <-]. left. exact (form_getitem_raise _ _ _ E).
Qed.

Lemma getitem_raise (k : string) (d : dict) (x : exn) :
  getitem k d = Raise x -> x = KeyError.
Proof.
  unfold getitem. destruct (lookup k d); [discriminate | now intros [= <-]].
Qed.

Lemma any_id_raise (new_id : string) (records : list dict) (x : exn) :
  any_id new_id records = Raise x -> x = KeyError.
Proof.
  induction records as [|r rs IH]; simpl; [discriminate |].
  destruct (getitem "id" r) as [v|y] eqn:E; simpl.
  - destruct (py_eq v (JStr new_id)); [discriminate | exact IH].
  - intros [= <-]. exact (getitem_raise _ _ _ E).
Qed.

Lemma find_by_id_raise (wanted : string) (records : list dict) (x : exn) :
  find_by_id wanted records = Raise x -> x = KeyError.
Proof.
  induction records as [|r rs IH]; simpl; [discriminate |].
  destruct (getitem "id" r) as [v|y] eqn:E; simpl.
  - destruct (py_eq v (JStr wanted)); [discriminate |].
    destruct (find_by_id wanted rs) as [found|y]; simpl; [discriminate |].
    intros [= <-]. now apply IH.
  - intros [= <-]. exact (getitem_raise _ _ _ E).
Qed.

Lemma without_id_raise (unwanted : string) (records : list dict) (x : exn) :
  without_id unwanted records = Raise x -> x = KeyError.
Proof.
  induction records as [|r rs IH]; simpl; [discriminate |].
  destruct (getitem "id" r) as [v|y] eqn:E; simpl.
  - destruct (without_id unwanted rs) as [kept|y]; simpl; [discriminate |].
    intros [= <-]. now apply IH.
  - intros [= <-]. exact (getitem_raise _ _ _ E).
Qed.

Ltac before_the_write :=
  left; split; [| reflexivity]; simpl; auto.

Lemma product_route_exception (e : env) (rq : request) (id : string)
      (w w' : world) (x : exn) :
  new_product e rq w = (Raise x, w')
  \/ edit_product e id rq w = (Raise x, w')
  \/ delete_product id w = (Raise x, w') ->
  (In x [KeyError; ValueError; BadRequestKeyError] /\ w' = w)
  \/ (x = UnicodeEncodeError
      /\ w' = mkWorld [] (categories_file w) (subprocess_calls w)).
Proof.
  intros [H | [H | H]]; revert H.
  - unfold new_product, bind, load_products, load_categories, lift, ret,
      save_products.
    destruct (method rq); [discriminate |].
    destruct (form_getitem "id" rq) eqn:Eid;
      [| intros [= <- <-]; apply form_getitem_raise in Eid;
         before_the_write].
    destruct (any_id _ _) as [[|]|] eqn:Eany; try discriminate;
      [| intros [= <- <-]; apply any_id_raise in Eany; before_the_write].
    destruct (form_getitem "name" rq) eqn:Ename;
      [| intros [= <- <-]; apply form_getitem_raise in Ename;
         before_the_write].
    destruct (form_price e rq) eqn:Eprice;
      [| intros [= <- <-]; apply form_price_raise in Eprice;
         destruct Eprice; before_the_write].
    destruct (writable _); [discriminate |].
    intros [= <- <-]. now right.
  - unfold edit_product, bind, load_products, load_categories, lift, ret,
      save_products.
    destruct (find_by_id _ _) as [[[[before old] after]|]|] eqn:Efind;
      [| discriminate
       | intros [= <- <-]; apply find_by_id_raise in Efind;
         before_the_write].
    destruct (negb (truthy (JDict old))); [discriminate |].
    destruct (method rq); [discriminate |].
    destruct (form_getitem "name" rq) eqn:Ename;
      [| intros [= <- <-]; apply form_getitem_raise in Ename;
         before_the_write].
    destruct (form_price e rq) eqn:Eprice;
      [| intros [= <- <-]; apply form_price_raise in Eprice;
         destruct Eprice; before_the_write].
    destruct (writable _); [discriminate |].
    intros [= <- <-]. now right.
  - unfold delete_product, bind, load_products, lift, ret, save_products.
    destruct (without_id _ _) eqn:Ekept;
      [| intros [= <- <-]; apply without_id_raise in Ekept;
         before_the_write].
    destruct (writable _); [discriminate |].
    intros [= <- <-]. now right.
Qed.

Lemma category_route_exception (e : env) (rq : request) (id : string)
      (w w' : world) (x : exn) :
  new_category e rq w = (Raise x, w')
  \/ edit_category id rq w = (Raise x, w')
  \/ delete_category id w = (Raise x, w') ->
  (In x [KeyError; ValueError; BadRequestKeyError] /\ w' = w)
  \/ (x = UnicodeEncodeError
      /\ w' = mkWorld (products_file w) [] (subprocess_calls w)).
Proof.
  intros [H | [H | H]]; revert H.
  - unfold new_category, bind, load_categories, lift, ret, save_categories.
    destruct (method rq); [discriminate |].
    destruct (form_getitem "id" rq) eqn:Eid;
      [| intros [= <- <-]; apply form_getitem_raise in Eid;
         before_the_write].
    destruct (any_id _ _) as [[|]|] eqn:Eany; try discriminate;
      [| intros [= <- <-]; apply any_id_raise in Eany; before_the_write].
    destruct (form_getitem "name" rq) eqn:Ename;
      [| intros [= <- <-]; apply form_getitem_raise in Ename;
         before_the_write].
    destruct (writable _); [discriminate |].
    intros [= <- <-]. now right.
  - unfold edit_category, bind, load_categories, lift, ret, save_categories.
    destruct (find_by_id _ _) as [[[[before old] after]|]|] eqn:Efind;
      [| discriminate
       | intros [= <- <-]; apply find_by_id_raise in Efind;
         before_the_write].
    destruct (negb (truthy (JDict old))); [discriminate |].
    destruct (method rq); [discriminate |].
    destruct (form_getitem "name" rq) eqn:Ename;
      [| intros [= <- <-]; apply form_getitem_raise in Ename;
         before_the_write].
    destruct (writable _); [discriminate |].
    intros [= <- <-]. now right.
  - unfold delete_category, bind, load_categories, lift, ret, save_categories.
    destruct (without_id _ _) eqn:Ekept;
      [| intros [= <- <-]; apply without_id_raise in Ekept;
         before_the_write].
    destruct (writable _); [discriminate |].
    intros [= <- <-]. now right.
Qed.

(** X7. A product or category route that ends in an exception has
    written nothing, unless the exception is that of its write.  A route
    that ends in KeyError, ValueError or BadRequestKeyError, raised before
    the write, leaves the world as it was.  A route that ends in the
    UnicodeEncodeError of [json.dump] leaves its own file cut off, so that
    it loads as the empty list, and the other file and the commands run
    as they were.  A validation or a checkpoint that ends in an exception
    has written nothing. *)
Theorem route_exception_effect
        (e : env) (rq : request) (id : string) (w w' : world) (x : exn) :
  (new_product e rq w = (Raise x, w')
   \/ edit_product e id rq w = (Raise x, w')
   \/ delete_product id w = (Raise x, w') ->
   (In x [KeyError; ValueError; BadRequestKeyError] /\ w' = w)
   \/ (x = UnicodeEncodeError
       /\ w' = mkWorld [] (categories_file w) (subprocess_calls w)))
  /\ (new_category e rq w = (Raise x, w')
      \/ edit_category id rq w = (Raise x, w')
      \/ delete_category id w = (Raise x, w') ->
      (In x [KeyError; ValueError; BadRequestKeyError] /\ w' = w)
      \/ (x = UnicodeEncodeError
          /\ w' = mkWorld (products_file w) [] (subprocess_calls w)))
  /\ (api_validate w = (Raise x, w') \/ api_commit e w = (Raise x, w') ->
      w' = w).
Proof.
  split; [apply product_route_exception |].
  split; [apply category_route_exception |].
  intros [H | H]; revert H.
  - unfold api_validate, bind. rewrite validate_database_run.
    destruct (validate _ _); [discriminate | now intros [= _ <-]].
  - unfold api_commit, bind. rewrite validate_database_run.
    destruct (validate _ _) as [rep|]; [| now intros [= _ <-]].
    destruct (negb (valid rep)); [discriminate |].
    destruct (git_commit_runs_git_add e (commit_message e) w)
      as (result & later & ->).
    discriminate.
Qed.

Lemma route_exception_effect_witness :
  new_product Samples.clean_env Samples.create_comma_price Samples.shop
  = (Raise ValueError, Samples.shop)
  /\ delete_product "dragon"
       (mkWorld [Samples.dragon; Cases.unwritable] [Samples.all] [])
     = (Raise UnicodeEncodeError, mkWorld [] [Samples.all] [])
  /\ ((In ValueError [KeyError; ValueError; BadRequestKeyError]
       /\ Samples.shop = Samples.shop)
      \/ (ValueError = UnicodeEncodeError
          /\ Samples.shop
             = mkWorld [] (categories_file Samples.shop)
                       (subprocess_calls Samples.shop))).
Proof.
  split; [reflexivity |]. split; [reflexivity |].
  apply (proj1 (route_exception_effect
                  Samples.clean_env Samples.create_comma_price ""
                  Samples.shop Samples.shop ValueError)).
  left. reflexivity.
Defined.

Lemma product_routes_frame (e : env) (rq : request) (id : string) (w : world)
      (m : M response) :
  m = new_product e rq \/ m = edit_product e id rq \/ m = delete_product id ->
  categories_file (snd (m w)) = categories_file w
  /\ subprocess_calls (snd (m w)) = subprocess_calls w.
Proof.
  intros [-> | [-> | ->]].
  - unfold new_product, bind, load_products, load_categories, lift, ret,
      save_products.
    destruct (method rq); [now split |].
    destruct (form_getitem "id" rq); [| now split].
    destruct (any_id _ _) as [[|]|]; try (now split).
    destruct (form_getitem "name" rq); [| now split].
    destruct (form_price e rq); [| now split].
    destruct (writable _); now split.
  - unfold edit_product, bind, load_products, load_categories, lift, ret,
      save_products.
    destruct (find_by_id _ _) as [[[[before old] after]|]|];
      try (now split).
    destruct (negb (truthy (JDict old))); [now split |].
    destruct (method rq); [now split |].
    destruct (form_getitem "name" rq); [| now split].
    destruct (form_price e rq); [| now split].
    destruct (writable _); now split.
  - unfold delete_product, bind, load_products, lift, ret, save_products.
    destruct (without_id _ _); [| now split].
    destruct (writable _); now split.
Qed.

Lemma category_routes_frame (e : env) (rq : request) (id : string) (w : world)
      (m : M response) :
  m = new_category e rq \/ m = edit_category id rq \/ m = delete_category id ->
  products_file (snd (m w)) = products_file w
  /\ subprocess_calls (snd (m w)) = subprocess_calls w.
Proof.
  intros [-> | [-> | ->]].
  - unfold new_category, bind, load_categories, lift, ret, save_categories.
    destruct (method rq); [now split |].
    destruct (form_getitem "id" rq); [| now split].
    destruct (any_id _ _) as [[|]|]; try (now split).
    destruct (form_getitem "name" rq); [| now split].
    destruct (writable _); now split.
  - unfold edit_category, bind, load_categories, lift, ret, save_categories.
    destruct (find_by_id _ _) as [[[[before old] after]|]|];
      try (now split).
    destruct (negb (truthy (JDict old))); [now split |].
    destruct (method rq); [now split |].
    destruct (form_getitem "name" rq); [| now split].
    destruct (writable _); now split.
  - unfold delete_category, bind, load_categories, lift, ret, save_categories.
    destruct (without_id _ _); [| now split].
    destruct (writable _); now split.
Qed.

(** X8. Whatever the request and however it ends, the three product
    routes leave the categories file as it is, the three category routes
    leave the products file as it is, and none of the six runs a
    command: only a checkpoint or a status query reaches git. *)
Theorem mutation_routes_keep_to_their_file
        (e : env) (rq : request) (id : string) (w : world) :
  Forall (fun m : M response =>
            categories_file (snd (m w)) = categories_file w
            /\ subprocess_calls (snd (m w)) = subprocess_calls w)
         [new_product e rq; edit_product e id rq; delete_product id]
  /\ Forall (fun m : M response =>
               products_file (snd (m w)) = products_file w
               /\ subprocess_calls (snd (m w)) = subprocess_calls w)
            [new_category e rq; edit_category id rq; delete_category id].
Proof.
  split; repeat (apply Forall_cons; [| try apply Forall_nil]).
  - exact (product_routes_frame e rq id w _ (or_introl eq_refl)).
  - exact (product_routes_frame e rq id w _ (or_intror (or_introl eq_refl))).
  - exact (product_routes_frame e rq id w _ (or_intror (or_intror eq_refl))).
  - exact (category_routes_frame e rq id w _ (or_introl eq_refl)).
  - exact (category_routes_frame e rq id w _ (or_intror (or_introl eq_refl))).
  - exact (category_routes_frame e rq id w _ (or_intror (or_intror eq_refl))).
Qed.

(** X9. On a products file whose records all carry an id,
    [delete_product] writes the records under another id, in order, and
    so drops every record under the id asked for: the request is answered
    with the redirect when [json.dump] can write those records, and ends
    in its UnicodeEncodeError, the file cut off, when it cannot.  A second
    request for the same id is always answered and changes nothing more;
    and a request for an id that no record has writes the file as it
    was. *)
Theorem delete_product_effect (product_id : string) (w : world) :
  Forall (fun r => View.has_id r = true) (products_file w) ->
  delete_product product_id w
  = View.products_written product_deleted
      (filter (View.other_id product_id) (products_file w)) w
  /\ delete_product product_id (snd (delete_product product_id w))
     = (Ok product_deleted, snd (delete_product product_id w))
  /\ (Forall (fun r => View.other_id product_id r = true) (products_file w) ->
      delete_product product_id w
      = View.products_written product_deleted (products_file w) w
      /\ (writable (products_file w) = true ->
          delete_product product_id w = (Ok product_deleted, w))).
Proof.
  intros Hids.
  assert (Hrun : forall v,
             Forall (fun r => View.has_id r = true) (products_file v) ->
             delete_product product_id v
             = View.products_written product_deleted
                 (filter (View.other_id product_id) (products_file v)) v).
  { intros v Hv.
    unfold delete_product, bind, load_products, lift, save_products, ret,
      View.products_written.
    rewrite (without_id_filter _ _ Hv). fold (View.other_id product_id).
    now destruct (writable _). }
  split; [now apply Hrun |]. split.
  - rewrite (Hrun w Hids). unfold View.products_written.
    destruct (writable (filter _ (products_file w))) eqn:Ew; cbn [snd].
    + rewrite Hrun; cbn [products_file]; [| now apply Forall_filter].
      unfold View.products_written. rewrite filter_filter, Ew.
      reflexivity.
    + rewrite Hrun; cbn [products_file]; [| constructor]. reflexivity.
  - intros Hother. rewrite (Hrun w Hids), (filter_all _ _ Hother).
    split; [reflexivity |]. intros Hw. unfold View.products_written.
    now rewrite Hw, world_eta.
Qed.

Lemma delete_product_effect_witness :
  delete_product "dragon" Samples.shop
  = (Ok product_deleted, mkWorld [] [Samples.all; Samples.figuras] [])
  /\ delete_product "fenix" Samples.shop = (Ok product_deleted, Samples.shop)
  /\ delete_product "dragon"
       (mkWorld [Samples.dragon; Cases.unwritable] [Samples.all] [])
     = (Raise UnicodeEncodeError, mkWorld [] [Samples.all] []).
Proof.
  assert (H : Forall (fun r => View.has_id r = true)
                     (products_file Samples.shop))
    by (repeat constructor).
  destruct (delete_product_effect "dragon" Samples.shop H) as [H1 _].
  destruct (delete_product_effect "fenix" Samples.shop H) as (_ & _ & H2).
  split; [exact H1 |]. split.
  - apply H2; [repeat constructor | reflexivity].
  - refine (eq_trans
              (proj1 (delete_product_effect "dragon"
                        (mkWorld [Samples.dragon; Cases.unwritable]
                                 [Samples.all] []) _)) _);
      [repeat constructor | reflexivity].
Defined.

(** X10. A delete request on a file in which some record has no [id]
    key deletes nothing: reading [r['id']] raises KeyError, whatever the
    id asked for, and the file is as before. *)
Theorem delete_raises_on_record_without_id (id : string) (w : world) :
  (Exists (fun r => View.has_id r = false) (products_file w) ->
   delete_product id w = (Raise KeyError, w))
  /\ (Exists (fun r => View.has_id r = false) (categories_file w) ->
      delete_category id w = (Raise KeyError, w)).
Proof.
  split; intros H.
  - unfold delete_product, bind, load_products, lift.
    now rewrite (without_id_raises _ _ H).
  - unfold delete_category, bind, load_categories, lift.
    now rewrite (without_id_raises _ _ H).
Qed.

Lemma delete_raises_on_record_without_id_witness :
  delete_product "dragon"
                 (mkWorld [Samples.dragon; Samples.nameless] [] [])
  = (Raise KeyError, mkWorld [Samples.dragon; Samples.nameless] [] [])
  /\ delete_category "all"
                     (mkWorld [] [Samples.nameless; Samples.all] [])
     = (Raise KeyError, mkWorld [] [Samples.nameless; Samples.all] []).
Proof.
  split.
  - apply (proj1 (delete_raises_on_record_without_id "dragon"
                    (mkWorld [Samples.dragon; Samples.nameless] [] []))).
    right. left. reflexivity.
  - apply (proj2 (delete_raises_on_record_without_id "all"
                    (mkWorld [] [Samples.nameless; Samples.all] []))).
    left. reflexivity.
Defined.

Lemma writable_before (records : list dict) (r : dict) :
  writable (records ++ [r]) = true -> writable records = true.
Proof.
  unfold writable. rewrite forallb_app.
  intros H. now apply andb_true_iff in H.
Qed.

(** X11. Deleting what was just created gives back the file: after a
    successful create, a delete request for the id the record was stored
    under, the normalized id, is answered with the redirect and leaves the
    world exactly as it was before the create.  So for products and for
    categories, and whatever [str.lower] makes of the id. *)
Theorem create_then_delete_restores
        (e : env) (rq : request) (w w' : world) (raw : string) :
  form_getitem "id" rq = Ok raw ->
  (new_product e rq w = (Ok product_created, w') ->
   delete_product (normalize_id e raw) w' = (Ok product_deleted, w))
  /\ (new_category e rq w = (Ok category_created, w') ->
      delete_category (normalize_id e raw) w' = (Ok category_deleted, w)).
Proof.
  intros Hraw. split; intros H.
  - pose proof (product_route_writable e "" rq w w' (or_introl H)) as Hw.
    apply new_product_created_inv in H.
    destruct H as (raw' & name & price & _ & Hid & Hany & _ & _ & ->).
    rewrite Hraw in Hid. injection Hid as <-.
    apply any_id_false_inv in Hany. destruct Hany as [Hids Hother].
    destruct (new_product_record_id e rq (normalize_id e raw) name price)
      as [Hnew _].
    cbn [products_file] in Hw. apply writable_before in Hw.
    unfold delete_product, bind, load_products, lift, save_products, ret.
    cbn [products_file categories_file subprocess_calls].
    rewrite without_id_filter.
    + rewrite filter_app.
      change (fun r => negb (py_eq (get "id" r) (JStr (normalize_id e raw))))
        with (View.other_id (normalize_id e raw)).
      rewrite (filter_all _ _ Hother). cbn [filter].
      rewrite (other_id_of_lookup _ _ Hnew), app_nil_r, Hw.
      now rewrite world_eta.
    + apply Forall_app. split; [exact Hids |].
      constructor; [| constructor]. exact (has_id_of_lookup _ _ Hnew).
  - pose proof (category_route_writable e "" rq w w' (or_introl H)) as Hw.
    apply new_category_created_inv in H.
    destruct H as (raw' & name & _ & Hid & Hany & _ & ->).
    rewrite Hraw in Hid. injection Hid as <-.
    apply any_id_false_inv in Hany. destruct Hany as [Hids Hother].
    pose proof (new_category_record_id rq (normalize_id e raw) name) as Hnew.
    cbn [categories_file] in Hw. apply writable_before in Hw.
    unfold delete_category, bind, load_categories, lift, save_categories, ret.
    cbn [products_file categories_file subprocess_calls].
    rewrite without_id_filter.
    + rewrite filter_app.
      change (fun r => negb (py_eq (get "id" r) (JStr (normalize_id e raw))))
        with (View.other_id (normalize_id e raw)).
      rewrite (filter_all _ _ Hother). cbn [filter].
      rewrite (other_id_of_lookup _ _ Hnew), app_nil_r, Hw.
      now rewrite world_eta.
    + apply Forall_app. split; [exact Hids |].
      constructor; [| constructor]. exact (has_id_of_lookup _ _ Hnew).
Qed.

Lemma create_then_delete_restores_witness :
  delete_product "ave_fenix"
    (snd (new_product Samples.clean_env Samples.create_fenix Samples.shop))
  = (Ok product_deleted, Samples.shop)
  /\ delete_category "navidad_2024"
       (snd (new_category Samples.clean_env Samples.create_navidad Samples.shop))
     = (Ok category_deleted, Samples.shop).
Proof.
  split.
  - apply (proj1 (create_then_delete_restores
                    Samples.clean_env Samples.create_fenix Samples.shop _
                    "Ave Fenix" eq_refl)).
    vm_compute. reflexivity.
  - apply (proj2 (create_then_delete_restores
                    Samples.clean_env Samples.create_navidad Samples.shop _
                    "Navidad 2024" eq_refl)).
    vm_compute. reflexivity.
Defined.

(** X12. A created id is taken: after a successful create, a second
    create request whose id normalizes to the same text is answered with
    the duplicate-id message and changes nothing.  So for products and
    for categories, whatever [str.lower] makes of the two ids. *)
Theorem created_id_is_taken
        (e e2 : env) (rq rq2 : request) (w w' : world) (raw raw2 : string) :
  form_getitem "id" rq = Ok raw ->
  method rq2 = POST ->
  form_getitem "id" rq2 = Ok raw2 ->
  normalize_id e2 raw2 = normalize_id e raw ->
  (new_product e rq w = (Ok product_created, w') ->
   new_product e2 rq2 w' = (Ok product_exists, w'))
  /\ (new_category e rq w = (Ok category_created, w') ->
      new_category e2 rq2 w' = (Ok category_exists, w')).
Proof.
  intros Hraw Hm Hraw2 Hsame. split; intros H.
  - apply new_product_created_inv in H.
    destruct H as (raw' & name & price & _ & Hid & Hany & _ & _ & ->).
    rewrite Hraw in Hid. injection Hid as <-.
    apply any_id_false_inv in Hany. destruct Hany as [Hids _].
    destruct (new_product_record_id e rq (normalize_id e raw) name price)
      as [Hnew _].
    unfold new_product, bind, load_products, lift. simpl.
    rewrite Hm, Hraw2, Hsame. simpl.
    now rewrite (any_id_found _ _ [] _ Hids Hnew).
  - apply new_category_created_inv in H.
    destruct H as (raw' & name & _ & Hid & Hany & _ & ->).
    rewrite Hraw in Hid. injection Hid as <-.
    apply any_id_false_inv in Hany. destruct Hany as [Hids _].
    pose proof (new_category_record_id rq (normalize_id e raw) name) as Hnew.
    unfold new_category, bind, load_categories, lift. simpl.
    rewrite Hm, Hraw2, Hsame. simpl.
    now rewrite (any_id_found _ _ [] _ Hids Hnew).
Qed.

Lemma created_id_is_taken_witness :
  new_product Samples.clean_env
    (mkRequest POST [("id", "AVE FENIX"); ("name", "Otro"); ("price", "1")])
    (snd (new_product Samples.clean_env Samples.create_fenix Samples.shop))
  = (Ok product_exists,
     snd (new_product Samples.clean_env Samples.create_fenix Samples.shop))
  /\ new_category Samples.clean_env
       (mkRequest POST [("id", "navidad 2024"); ("name", "Otra")])
       (snd (new_category Samples.clean_env Samples.create_navidad
               Samples.shop))
     = (Ok category_exists,
        snd (new_category Samples.clean_env Samples.create_navidad
               Samples.shop)).
Proof.
  split.
  - apply (proj1 (created_id_is_taken
                    Samples.clean_env Samples.clean_env Samples.create_fenix
                    (mkRequest POST [("id", "AVE FENIX"); ("name", "Otro");
                                     ("price", "1")])
                    Samples.shop _ "Ave Fenix" "AVE FENIX"
                    eq_refl eq_refl eq_refl eq_refl)).
    vm_compute. reflexivity.
  - apply (proj2 (created_id_is_taken
                    Samples.clean_env Samples.clean_env
                    Samples.create_navidad
                    (mkRequest POST [("id", "navidad 2024");
                                     ("name", "Otra")])
                    Samples.shop _ "Navidad 2024" "navidad 2024"
                    eq_refl eq_refl eq_refl eq_refl)).
    vm_compute. reflexivity.
Defined.

(* ================================================================== *)
(** ** Further properties: updates                                     *)
(* ================================================================== *)

Lemma not_in_cons_neq (k a : string) (l : list string) :
  ~ In k (a :: l) -> a <> k /\ ~ In k l.
Proof.
  simpl. intros H. split.
  - intros ->. apply H. now left.
  - intros Hl. apply H. now right.
Qed.

Ltac other_keys :=
  repeat match goal with
         | |- context [if ?c then _ else _] => destruct c
         end;
  repeat first
    [ rewrite DictFacts.lookup_setitem_other by assumption
    | rewrite DictFacts.lookup_drop_key_other by assumption ];
  reflexivity.

(** [edit_product] leaves every key it does not name as it finds it. *)
Lemma edited_product_other_keys (e : env) (rq : request) (name : string)
      (price : spec_float) (old : dict) (k : string) :
  ~ In k View.product_keys_written ->
  lookup k (edited_product e rq name price old) = lookup k old.
Proof.
  intros H. unfold View.product_keys_written in H.
  repeat (apply not_in_cons_neq in H; destruct H as [? H]).
  unfold edited_product. cbv zeta. other_keys.
Qed.

Lemma edited_category_other_keys (rq : request) (name : string) (old : dict)
      (k : string) :
  ~ In k View.category_keys_written ->
  lookup k (edited_category rq name old) = lookup k old.
Proof.
  intros H. unfold View.category_keys_written in H.
  repeat (apply not_in_cons_neq in H; destruct H as [? H]).
  unfold edited_category. cbv zeta. other_keys.
Qed.

(** The records [next(...)] passes over have an id, and another one. *)
Lemma find_by_id_before (wanted : string) (records before after : list dict)
      (r : dict) :
  find_by_id wanted records = Ok (Some (before, r, after)) ->
  Forall (fun x => View.has_id x = true) before
  /\ Forall (fun x => View.other_id wanted x = true) before.
Proof.
  revert before. induction records as [|x xs IH]; intros before H; simpl in H.
  - discriminate.
  - apply res_bind_Ok in H. destruct H as (id & Hid & H).
    unfold getitem in Hid.
    destruct (lookup "id" x) as [v|] eqn:Hx; [| discriminate].
    injection Hid as ->.
    destruct (py_eq id (JStr wanted)) eqn:E.
    + injection H as <- <- <-. split; constructor.
    + apply res_bind_Ok in H. destruct H as (found & Hf & H).
      destruct found as [[[b y] a]|]; [| discriminate].
      injection H as <- <- <-.
      destruct (IH b Hf) as [H1 H2]. split; constructor; auto.
      * exact (has_id_of_lookup _ _ Hx).
      * unfold View.other_id, get, get_default. now rewrite Hx, E.
Qed.

Lemma find_by_id_at (wanted : string) (before after : list dict) (r : dict) :
  Forall (fun x => View.has_id x = true) before ->
  Forall (fun x => View.other_id wanted x = true) before ->
  lookup "id" r = Some (JStr wanted) ->
  find_by_id wanted (before ++ r :: after) = Ok (Some (before, r, after)).
Proof.
  intros Hids Hother Hr. induction Hids as [|x before Hx Hb IH]; simpl.
  - unfold getitem. rewrite Hr. simpl. now rewrite String.eqb_refl.
  - inversion Hother as [|? ? Ho Hos]; subst.
    unfold getitem, View.has_id, View.other_id, contains, get, get_default
      in *.
    destruct (lookup "id" x) as [v|]; [| discriminate]. simpl.
    apply negb_true_iff in Ho. rewrite Ho, (IH Hos). reflexivity.
Qed.

Lemma find_by_id_none_inv (wanted : string) (records : list dict) :
  find_by_id wanted records = Ok None ->
  Forall (fun r => View.has_id r = true) records
  /\ Forall (fun r => View.other_id wanted r = true) records.
Proof.
  induction records as [|x xs IH]; simpl; [now split |].
  unfold getitem.
  destruct (lookup "id" x) as [v|] eqn:Hx; simpl; [| discriminate].
  destruct (py_eq v (JStr wanted)) eqn:E; [discriminate |].
  destruct (find_by_id wanted xs) as [[[[b y] a]|]|]; try discriminate.
  intros _. destruct (IH eq_refl) as [H1 H2]. split; constructor; auto.
  - exact (has_id_of_lookup _ _ Hx).
  - unfold View.other_id, get, get_default. now rewrite Hx, E.
Qed.

(** X13. A successful update rewrites one record in its place: the first
    record under the id asked for.  The records before and after it are
    as they were, and so is every key of the record that the form has no
    field for, the id and the creation date among them. *)
Theorem update_rewrites_one_record
        (e : env) (id : string) (rq : request) (w w' : world) :
  (edit_product e id rq w = (Ok product_updated, w') ->
   exists before old new after,
     products_file w = before ++ old :: after
     /\ products_file w' = before ++ new :: after
     /\ Forall (fun r => View.other_id id r = true) before
     /\ lookup "id" new = Some (JStr id)
     /\ lookup "createdAt" new = lookup "createdAt" old
     /\ forall k, ~ In k View.product_keys_written ->
                  lookup k new = lookup k old)
  /\ (edit_category id rq w = (Ok category_updated, w') ->
      exists before old new after,
        categories_file w = before ++ old :: after
        /\ categories_file w' = before ++ new :: after
        /\ Forall (fun r => View.other_id id r = true) before
        /\ lookup "id" new = Some (JStr id)
        /\ forall k, ~ In k View.category_keys_written ->
                     lookup k new = lookup k old).
Proof.
  split; intros H.
  - apply edit_product_updated_inv in H.
    destruct H as (before & old & after & name & price & _ & Hfind & _ & _
                   & ->).
    destruct (find_by_id_before _ _ _ _ _ Hfind) as [_ Hother].
    apply find_by_id_split in Hfind. destruct Hfind as [Hsplit Hid].
    exists before, old, (edited_product e rq name price old), after.
    repeat split; try assumption.
    + rewrite edited_product_other_keys; [exact Hid |].
      unfold View.product_keys_written. simpl.
      intros Hin. repeat (destruct Hin as [Hin | Hin]; [discriminate |]).
      exact Hin.
    + apply edited_product_other_keys.
      unfold View.product_keys_written. simpl.
      intros Hin. repeat (destruct Hin as [Hin | Hin]; [discriminate |]).
      exact Hin.
    + apply edited_product_other_keys.
  - apply edit_category_updated_inv in H.
    destruct H as (before & old & after & name & _ & Hfind & _ & ->).
    destruct (find_by_id_before _ _ _ _ _ Hfind) as [_ Hother].
    apply find_by_id_split in Hfind. destruct Hfind as [Hsplit Hid].
    exists before, old, (edited_category rq name old), after.
    repeat split; try assumption.
    + rewrite edited_category_other_keys; [exact Hid |].
      unfold View.category_keys_written. simpl.
      intros Hin. repeat (destruct Hin as [Hin | Hin]; [discriminate |]).
      exact Hin.
    + apply edited_category_other_keys.
Qed.

Lemma update_rewrites_one_record_witness :
  exists before old new after,
    products_file (mkWorld [Samples.dragon; Cases.dragon_copy] [] [])
    = before ++ old :: after
    /\ products_file
         (snd (edit_product Samples.clean_env "dragon" Samples.update_fields
                 (mkWorld [Samples.dragon; Cases.dragon_copy] [] [])))
       = before ++ new :: after
    /\ Forall (fun r => View.other_id "dragon" r = true) before
    /\ lookup "id" new = Some (JStr "dragon")
    /\ lookup "createdAt" new = lookup "createdAt" old
    /\ forall k, ~ In k View.product_keys_written ->
                 lookup k new = lookup k old.
Proof.
  apply (proj1 (update_rewrites_one_record
                  Samples.clean_env "dragon" Samples.update_fields
                  (mkWorld [Samples.dragon; Cases.dragon_copy] [] []) _)).
  vm_compute. reflexivity.
Defined.

(** X14. An update request is answered "not found" exactly when every
    stored record has an id and none has the id asked for; the file is
    then as it was, whatever the method and the form. *)
Theorem update_not_found_iff
        (e : env) (id : string) (rq : request) (w w' : world) :
  (edit_product e id rq w = (Ok product_not_found, w')
   <-> w' = w
       /\ Forall (fun r => View.has_id r = true) (products_file w)
       /\ Forall (fun r => View.other_id id r = true) (products_file w))
  /\ (edit_category id rq w = (Ok category_not_found, w')
      <-> w' = w
          /\ Forall (fun r => View.has_id r = true) (categories_file w)
          /\ Forall (fun r => View.other_id id r = true) (categories_file w)).
Proof.
  split; split.
  - unfold edit_product, bind, load_products, load_categories, lift, ret,
      save_products, product_not_found, product_updated.
    destruct (find_by_id id (products_file w))
      as [[[[before old] after]|]|] eqn:Hfind.
    + destruct (find_by_id_split _ _ _ _ _ Hfind) as [_ Hid].
      rewrite (found_is_truthy _ _ Hid). simpl.
      destruct (method rq); [discriminate |].
      destruct (form_getitem "name" rq); [| discriminate].
      destruct (form_price e rq); [| discriminate].
      destruct (writable _); discriminate.
    + intros [= <-]. split; [reflexivity |].
      now apply find_by_id_none_inv.
    + discriminate.
  - intros (-> & Hids & Hother).
    unfold edit_product, bind, load_products, lift.
    now rewrite (find_by_id_none _ _ Hids Hother).
  - unfold edit_category, bind, load_categories, lift, ret,
      save_categories, category_not_found, category_updated.
    destruct (find_by_id id (categories_file w))
      as [[[[before old] after]|]|] eqn:Hfind.
    + destruct (find_by_id_split _ _ _ _ _ Hfind) as [_ Hid].
      rewrite (found_is_truthy _ _ Hid). simpl.
      destruct (method rq); [discriminate |].
      destruct (form_getitem "name" rq); [| discriminate].
      destruct (writable _); discriminate.
    + intros [= <-]. split; [reflexivity |].
      now apply find_by_id_none_inv.
    + discriminate.
  - intros (-> & Hids & Hother).
    unfold edit_category, bind, load_categories, lift.
    now rewrite (find_by_id_none _ _ Hids Hother).
Qed.

Lemma new_product_record_flags (e : env) (rq : request) (new_id name : string)
      (price : spec_float) :
  View.stores_product_flags rq (new_product_record e rq new_id name price).
Proof.
  unfold View.stores_product_flags, new_product_record. cbv zeta.
  repeat split; split_ifs; dict_lookup.
Qed.

Lemma edited_product_flags (e : env) (rq : request) (name : string) (price : spec_float)
      (old : dict) :
  View.stores_product_flags rq (edited_product e rq name price old).
Proof.
  unfold View.stores_product_flags, edited_product. cbv zeta.
  repeat split; split_ifs; dict_lookup.
Qed.

(** X15. After every successful product create or update, [highlighted]
    is stored as the boolean that says whether its box is ticked,
    [hidden] holds [True] when its box is ticked and is absent otherwise,
    and [wallapopLink] holds the link when the field is not empty and is
    absent otherwise. *)
Theorem product_flags_as_stored
        (e : env) (id : string) (rq : request) (w w' : world) :
  (new_product e rq w = (Ok product_created, w') ->
   exists p,
     products_file w' = products_file w ++ [p]
     /\ View.stores_product_flags rq p)
  /\ (edit_product e id rq w = (Ok product_updated, w') ->
      exists before old p after,
        products_file w = before ++ old :: after
        /\ lookup "id" old = Some (JStr id)
        /\ products_file w' = before ++ p :: after
        /\ View.stores_product_flags rq p).
Proof.
  split; intros H.
  - apply new_product_created_inv in H.
    destruct H as (raw & name & price & _ & _ & _ & _ & _ & ->).
    eexists. split; [reflexivity | apply new_product_record_flags].
  - apply edit_product_updated_inv in H.
    destruct H as (before & old & after & name & price & _ & Hfind & _ & _
                   & ->).
    apply find_by_id_split in Hfind. destruct Hfind as [Hsplit Hid].
    exists before, old, (edited_product e rq name price old), after.
    repeat split; try assumption; apply edited_product_flags.
Qed.

Lemma product_flags_as_stored_witness :
  (exists p,
      products_file
        (snd (new_product Samples.clean_env Samples.create_fenix Samples.shop))
      = products_file Samples.shop ++ [p]
      /\ View.stores_product_flags Samples.create_fenix p)
  /\ (exists before old p after,
        products_file Samples.shop = before ++ old :: after
        /\ lookup "id" old = Some (JStr "dragon")
        /\ products_file
             (snd (edit_product Samples.clean_env "dragon"
                     Cases.update_all_fields Samples.shop))
           = before ++ p :: after
        /\ View.stores_product_flags Cases.update_all_fields p).
Proof.
  split.
  - apply (proj1 (product_flags_as_stored
                    Samples.clean_env "" Samples.create_fenix Samples.shop _)).
    vm_compute. reflexivity.
  - apply (proj2 (product_flags_as_stored
                    Samples.clean_env "dragon" Cases.update_all_fields
                    Samples.shop _)).
    vm_compute. reflexivity.
Defined.

Lemma new_product_record_fields (e : env) (rq : request) (new_id name : string)
      (price : spec_float) :
  View.stores_product_fields rq name price
    (new_product_record e rq new_id name price).
Proof.
  unfold View.stores_product_fields, new_product_record. cbv zeta.
  repeat split; split_ifs; dict_lookup.
Qed.

Lemma edited_product_fields (e : env) (rq : request) (name : string) (price : spec_float)
      (old : dict) :
  View.stores_product_fields rq name price (edited_product e rq name price old).
Proof.
  unfold View.stores_product_fields, edited_product. cbv zeta.
  repeat split; split_ifs; dict_lookup.
Qed.

(** The price test of the validator never fires on a stored float. *)
Lemma float_price_not_missing (p : dict) (price : spec_float) :
  lookup "price" p = Some (JFloat price) -> price_missing p = false.
Proof.
  unfold price_missing, get, get_default. intros ->.
  destruct price; reflexivity.
Qed.

Lemma form_price_ok (e : env) (rq : request) (price : spec_float) :
  form_price e rq = Ok price ->
  exists text,
    form_getitem "price" rq = Ok text /\ str_float e text = Some price.
Proof.
  unfold form_price. destruct (form_getitem "price" rq) as [text|];
    simpl; [| discriminate].
  destruct (str_float e text) as [f|] eqn:E; [| discriminate].
  intros [= <-]. now exists text.
Qed.

(** X16. After every successful product create or update, the record
    holds the name of the form, as price the float that [float()] makes
    of the price field, its sign included, and the description, the size,
    the material and the categories of the form, with an empty text, an
    empty text, "PLA" and the empty list for a field that was not sent.
    The price test of the validator does not fire on such a record,
    whatever the float. *)
Theorem product_fields_as_stored
        (e : env) (id : string) (rq : request) (w w' : world) :
  (new_product e rq w = (Ok product_created, w') ->
   exists name text price p,
     form_getitem "name" rq = Ok name
     /\ form_getitem "price" rq = Ok text
     /\ str_float e text = Some price
     /\ products_file w' = products_file w ++ [p]
     /\ View.stores_product_fields rq name price p
     /\ price_missing p = false)
  /\ (edit_product e id rq w = (Ok product_updated, w') ->
      exists name text price before old p after,
        form_getitem "name" rq = Ok name
        /\ form_getitem "price" rq = Ok text
        /\ str_float e text = Some price
        /\ products_file w = before ++ old :: after
        /\ products_file w' = before ++ p :: after
        /\ View.stores_product_fields rq name price p
        /\ price_missing p = false).
Proof.
  split; intros H.
  - apply new_product_created_inv in H.
    destruct H as (raw & name & price & _ & _ & _ & Hname & Hprice & ->).
    destruct (form_price_ok _ _ _ Hprice) as (text & Htext & Hfloat).
    pose proof (new_product_record_fields e rq (normalize_id e raw) name price)
      as Hfields.
    exists name, text, price. eexists.
    repeat split; try eassumption; try reflexivity; try apply Hfields.
    apply (float_price_not_missing _ price). apply Hfields.
  - apply edit_product_updated_inv in H.
    destruct H as (before & old & after & name & price & _ & Hfind & Hname
                   & Hprice & ->).
    destruct (form_price_ok _ _ _ Hprice) as (text & Htext & Hfloat).
    apply find_by_id_split in Hfind. destruct Hfind as [Hsplit Hid].
    pose proof (edited_product_fields e rq name price old) as Hfields.
    exists name, text, price, before, old,
      (edited_product e rq name price old), after.
    repeat split; try assumption; try apply Hfields.
    apply (float_price_not_missing _ price). apply Hfields.
Qed.

Lemma product_fields_as_stored_witness :
  (exists p,
      products_file
        (snd (new_product Samples.clean_env Cases.create_refund Samples.shop))
      = products_file Samples.shop ++ [p]
      /\ lookup "name" p = Some (JStr "Vale")
      /\ lookup "price" p
         = Some (JFloat (S754_finite true 5629499534213120 (-50)))
      /\ lookup "material" p = Some (JStr "PLA")
      /\ lookup "categories" p = Some (JList []))
  /\ (exists name text price p,
        form_getitem "name" Samples.create_fenix = Ok name
        /\ form_getitem "price" Samples.create_fenix = Ok text
        /\ str_float Samples.clean_env text = Some price
        /\ products_file
             (snd (new_product Samples.clean_env Samples.create_fenix
                     Samples.shop))
           = products_file Samples.shop ++ [p]
        /\ View.stores_product_fields Samples.create_fenix name price p
        /\ price_missing p = false).
Proof.
  split.
  - destruct (proj1 (product_fields_as_stored
                       Samples.clean_env "" Cases.create_refund Samples.shop
                       (snd (new_product Samples.clean_env
                               Cases.create_refund Samples.shop)))
                    eq_refl)
      as (name & text & price & p & Hname & Htext & Hfloat & Hfile
          & Hfields & _).
    vm_compute in Hname. injection Hname as <-.
    vm_compute in Htext. injection Htext as <-.
    vm_compute in Hfloat. injection Hfloat as <-.
    destruct Hfields as (H1 & _ & H3 & H4 & _ & H6).
    exists p. repeat split; assumption.
  - apply (proj1 (product_fields_as_stored
                    Samples.clean_env "" Samples.create_fenix Samples.shop _)).
    vm_compute. reflexivity.
Defined.

(** X17. A GET request to a form route writes nothing: the world after
    it is the world before it, whether the form is rendered, the record
    is not found, or the lookup raises. *)
Theorem get_requests_write_nothing
        (e : env) (id : string) (rq : request) (w : world) :
  method rq = GET ->
  snd (new_product e rq w) = w
  /\ snd (edit_product e id rq w) = w
  /\ snd (new_category e rq w) = w
  /\ snd (edit_category id rq w) = w.
Proof.
  intros Hm.
  unfold new_product, edit_product, new_category, edit_category, bind,
    load_products, load_categories, lift, ret.
  rewrite Hm. repeat split.
  - destruct (find_by_id id (products_file w)) as [[[[b o] a]|]|];
      try reflexivity.
    destruct (negb (truthy (JDict o))); reflexivity.
  - destruct (find_by_id id (categories_file w)) as [[[[b o] a]|]|];
      try reflexivity.
    destruct (negb (truthy (JDict o))); reflexivity.
Qed.

Lemma get_requests_write_nothing_witness :
  snd (new_product Samples.clean_env (mkRequest GET []) Samples.shop)
  = Samples.shop
  /\ snd (edit_product Samples.clean_env "dragon" (mkRequest GET [])
            Samples.shop) = Samples.shop
  /\ snd (new_category Samples.clean_env (mkRequest GET []) Samples.shop) = Samples.shop
  /\ snd (edit_category "all" (mkRequest GET []) Samples.shop) = Samples.shop.
Proof.
  destruct (get_requests_write_nothing
              Samples.clean_env "dragon" (mkRequest GET []) Samples.shop
              eq_refl) as (H1 & H2 & H3 & _).
  destruct (get_requests_write_nothing
              Samples.clean_env "all" (mkRequest GET []) Samples.shop
              eq_refl) as (_ & _ & _ & H4).
  repeat split; assumption.
Defined.

(** Assigning the value a key has, or deleting a key that is not there,
    leaves the record as it is, the order of its keys included. *)
Lemma setitem_stable (k : string) (v : json) (d : dict) :
  lookup k d = Some v -> setitem k v d = d.
Proof.
  induction d as [|[k' v'] d IH]; simpl; [discriminate |].
  destruct (String.eqb k' k) eqn:E.
  - apply String.eqb_eq in E. subst k'. now intros [= ->].
  - intros H. now rewrite (IH H).
Qed.

Lemma drop_key_stable (k : string) (d : dict) :
  lookup k d = None -> drop_key k d = d.
Proof. unfold drop_key, contains. now intros ->. Qed.

Ltac stable new H :=
  repeat first
    [ match goal with
      | |- context [setitem ?k ?v new] =>
          rewrite (setitem_stable k v new) by (rewrite H; dict_lookup)
      end
    | match goal with
      | |- context [drop_key ?k new] =>
          rewrite (drop_key_stable k new) by (rewrite H; dict_lookup)
      end ].

(** The record an update leaves is left as it is by the same update. *)
Lemma edited_product_again (e : env) (rq : request) (name : string) (price : spec_float)
      (old : dict) :
  edited_product e rq name price (edited_product e rq name price old)
  = edited_product e rq name price old.
Proof.
  set (new := edited_product e rq name price old).
  assert (H : forall k,
             lookup k new = lookup k (edited_product e rq name price old))
    by reflexivity.
  unfold edited_product in H |- * at 1. cbv zeta in H |- *.
  revert H.
  repeat match goal with
         | |- context [if ?c then _ else _] => destruct c
         end;
    intros H; stable new H; reflexivity.
Qed.

Lemma edited_category_again (rq : request) (name : string) (old : dict) :
  edited_category rq name (edited_category rq name old)
  = edited_category rq name old.
Proof.
  set (new := edited_category rq name old).
  assert (H : forall k, lookup k new = lookup k (edited_category rq name old))
    by reflexivity.
  unfold edited_category in H |- * at 1. cbv zeta in H |- *.
  revert H.
  repeat match goal with
         | |- context [if ?c then _ else _] => destruct c
         end;
    intros H; stable new H; reflexivity.
Qed.

(** X18. An update sent twice is an update sent once: after a successful
    update, the same request for the same id succeeds again and leaves
    the file exactly as the first one left it. *)
Theorem update_twice_is_update_once
        (e : env) (id : string) (rq : request) (w w' : world) :
  (edit_product e id rq w = (Ok product_updated, w') ->
   edit_product e id rq w' = (Ok product_updated, w'))
  /\ (edit_category id rq w = (Ok category_updated, w') ->
      edit_category id rq w' = (Ok category_updated, w')).
Proof.
  split; intros H.
  - pose proof (product_route_writable e id rq w w'
                  (or_intror (or_introl H))) as Hw.
    apply edit_product_updated_inv in H.
    destruct H as (before & old & after & name & price & Hm & Hfind & Hname
                   & Hprice & ->).
    destruct (find_by_id_before _ _ _ _ _ Hfind) as [Hids Hother].
    apply find_by_id_split in Hfind. destruct Hfind as [_ Hid].
    assert (Hnew : lookup "id" (edited_product e rq name price old)
                   = Some (JStr id)).
    { rewrite edited_product_other_keys; [exact Hid |].
      unfold View.product_keys_written. simpl.
      intros Hin. repeat (destruct Hin as [Hin | Hin]; [discriminate |]).
      exact Hin. }
    unfold edit_product, bind, load_products, lift, ret, save_products.
    cbn [products_file categories_file subprocess_calls].
    rewrite (find_by_id_at _ _ after _ Hids Hother Hnew).
    rewrite (found_is_truthy _ _ Hnew). cbn [negb].
    rewrite Hm, Hname, Hprice, edited_product_again.
    cbn [products_file] in Hw. cbv beta iota. now rewrite Hw.
  - pose proof (category_route_writable e id rq w w'
                  (or_intror (or_introl H))) as Hw.
    apply edit_category_updated_inv in H.
    destruct H as (before & old & after & name & Hm & Hfind & Hname & ->).
    destruct (find_by_id_before _ _ _ _ _ Hfind) as [Hids Hother].
    apply find_by_id_split in Hfind. destruct Hfind as [_ Hid].
    assert (Hnew : lookup "id" (edited_category rq name old)
                   = Some (JStr id)).
    { rewrite edited_category_other_keys; [exact Hid |].
      unfold View.category_keys_written. simpl.
      intros Hin. repeat (destruct Hin as [Hin | Hin]; [discriminate |]).
      exact Hin. }
    unfold edit_category, bind, load_categories, lift, ret, save_categories.
    cbn [products_file categories_file subprocess_calls].
    rewrite (find_by_id_at _ _ after _ Hids Hother Hnew).
    rewrite (found_is_truthy _ _ Hnew). cbn [negb].
    rewrite Hm, Hname, edited_category_again.
    cbn [categories_file] in Hw. cbv beta iota. now rewrite Hw.
Qed.

Lemma update_twice_is_update_once_witness :
  edit_product Samples.clean_env "dragon" Cases.update_all_fields
    (snd (edit_product Samples.clean_env "dragon" Cases.update_all_fields
            Samples.shop))
  = (Ok product_updated,
     snd (edit_product Samples.clean_env "dragon" Cases.update_all_fields
            Samples.shop)).
Proof.
  apply (proj1 (update_twice_is_update_once
                  Samples.clean_env "dragon" Cases.update_all_fields
                  Samples.shop _)).
  vm_compute. reflexivity.
Defined.

(* ================================================================== *)
(** ** Further properties: the validator                               *)
(* ================================================================== *)

Lemma own_errors_of_product_own (p : dict) :
  filter View.is_own (Spec.own_errors_of_product p)
  = Spec.own_errors_of_product p.
Proof.
  unfold Spec.own_errors_of_product.
  destruct (Spec.id_missing p), (Spec.name_missing p), (price_missing p);
    reflexivity.
Qed.

Lemma own_errors_of_category_own (c : dict) :
  filter View.is_own (Spec.own_errors_of_category c)
  = Spec.own_errors_of_category c.
Proof.
  unfold Spec.own_errors_of_category.
  destruct (Spec.id_missing c), (Spec.name_missing c); reflexivity.
Qed.

Lemma filter_flat_map_all {X} (sel : issue -> bool) (own : X -> list issue)
      (xs : list X) :
  (forall x, filter sel (own x) = own x) ->
  filter sel (flat_map own xs) = flat_map own xs.
Proof.
  intros Hown. induction xs as [|x xs IH]; simpl; [reflexivity |].
  now rewrite filter_app, Hown, IH.
Qed.

(** The errors of a report that do not compare records. *)
Lemma validate_own_errors (products categories : list dict) (rep : report) :
  validate products categories = Ok rep ->
  filter View.is_own (errors rep)
  = flat_map Spec.own_errors_of_product products
    ++ flat_map Spec.own_errors_of_category categories.
Proof.
  intros H.
  rewrite (validate_selected View.is_own
             (fun _ => eq_refl) (fun _ => eq_refl) (fun _ _ => eq_refl)
             _ _ _ H).
  rewrite (filter_flat_map_all _ _ _ own_errors_of_product_own).
  now rewrite (filter_flat_map_all _ _ _ own_errors_of_category_own).
Qed.

(** X19. Leaving aside the errors that compare records (a duplicate id,
    a category that does not exist), the errors of a report are those each
    record brings on its own, in the order of the files: for each product
    in turn no id, no name, no price; then for each category no id, no
    name. *)
Theorem own_errors_follow_the_files
        (products categories : list dict) (rep : report) :
  validate products categories = Ok rep ->
  filter View.is_own (errors rep)
  = flat_map Spec.own_errors_of_product products
    ++ flat_map Spec.own_errors_of_category categories.
Proof. apply validate_own_errors. Qed.

Lemma own_errors_follow_the_files_witness :
  filter View.is_own
         [ProductWithoutPrice (JStr "c");
          UnknownCategory (JStr "Widget") (JStr "x");
          ProductWithoutId; ProductWithoutPrice (JStr "?");
          CategoryWithoutName (JStr "sin_nombre")]
  = flat_map Spec.own_errors_of_product
             [Samples.priceless; Samples.widget; Samples.nameless]
    ++ flat_map Spec.own_errors_of_category
                [Samples.all; [("id", JStr "sin_nombre")]].
Proof.
  refine (own_errors_follow_the_files
            [Samples.priceless; Samples.widget; Samples.nameless]
            [Samples.all; [("id", JStr "sin_nombre")]]
            (mkReport false
               [ProductWithoutPrice (JStr "c");
                UnknownCategory (JStr "Widget") (JStr "x");
                ProductWithoutId; ProductWithoutPrice (JStr "?");
                CategoryWithoutName (JStr "sin_nombre")]
               [ProductWithoutCategories (JStr "Maceta");
                ProductWithoutImage (JStr "Maceta");
                ProductWithoutImage (JStr "Widget");
                ProductWithoutCategories (JStr "Varios");
                ProductWithoutImage (JStr "Varios")]
               3 2) _).
  vm_compute. reflexivity.
Defined.

(* --- warnings ------------------------------------------------------ *)

Lemma check_id_warnings (a : issue) (d : json -> issue) (st st' : vstate)
      (r : dict) :
  check_id a d st r = Ok st' -> v_warnings st' = v_warnings st.
Proof.
  unfold check_id. destruct (negb (truthy (get "id" r))).
  - now intros [= <-].
  - intros H. apply res_bind_Ok in H. destruct H as (id & _ & H).
    apply res_bind_Ok in H. destruct H as (met & _ & H).
    destruct met; now injection H as <-.
Qed.

Lemma check_categories_warnings (ids : pyset) (p : dict) (st st' : vstate) :
  check_categories ids p st = Ok st' -> v_warnings st' = v_warnings st.
Proof.
  unfold check_categories. intros H.
  apply res_bind_Ok in H. destruct H as (cats & _ & H).
  revert H.
  apply (for_each_invariant _ (fun a b => v_warnings b = v_warnings a)).
  - reflexivity.
  - intros a b c Hab Hbc. now rewrite Hbc.
  - intros s cat s' Hs. apply res_bind_Ok in Hs.
    destruct Hs as (known & _ & Hs).
    destruct known; simpl in Hs; now injection Hs as <-.
Qed.

Lemma check_product_warnings (ids : pyset) (st : vstate) (p : dict)
      (st' : vstate) :
  check_product ids st p = Ok st' ->
  v_warnings st' = v_warnings st ++ View.own_warnings_of_product p.
Proof.
  unfold check_product, View.own_warnings_of_product. intros H.
  apply res_bind_Ok in H. destruct H as (st1 & H1 & H).
  apply check_id_warnings in H1.
  apply res_bind_Ok in H. destruct H as (st4 & H4 & H).
  match type of H4 with
  | (if _ then _ else check_categories _ _ ?s) = _ =>
      assert (H3 : v_warnings s = v_warnings st)
  end.
  { destruct (price_missing p), (negb (truthy (get "name" p))); exact H1. }
  destruct (negb (truthy (get "categories" p))).
  - injection H4 as <-.
    destruct (negb (truthy (get "image" p))); injection H as <-; simpl;
      rewrite H3; now rewrite <- ?app_assoc, ?app_nil_r.
  - apply check_categories_warnings in H4. rewrite H3 in H4.
    destruct (negb (truthy (get "image" p))); injection H as <-; simpl;
      rewrite H4; now rewrite ?app_nil_r.
Qed.

Lemma check_category_warnings (st : vstate) (c : dict) (st' : vstate) :
  check_category st c = Ok st' -> v_warnings st' = v_warnings st.
Proof.
  unfold check_category. intros H.
  apply res_bind_Ok in H. destruct H as (st1 & H1 & H).
  apply check_id_warnings in H1.
  destruct (negb (truthy (get "name" c))); now injection H as <-.
Qed.

(** X20. The warnings of a report are those of the products, in the
    order of the file: for each product in turn "without categories" when
    the categories are absent or empty, then "without image" when the
    image is absent or empty.  A category brings no warning. *)
Theorem warnings_follow_the_products
        (products categories : list dict) (rep : report) :
  validate products categories = Ok rep ->
  warnings rep = flat_map View.own_warnings_of_product products.
Proof.
  unfold validate. intros H.
  apply res_bind_Ok in H. destruct H as (ids & _ & H).
  apply res_bind_Ok in H. destruct H as (st & Hp & H).
  apply res_bind_Ok in H. destruct H as (st' & Hc & H).
  injection H as <-. simpl.
  assert (Hst' : v_warnings st' = v_warnings st).
  { change (v_warnings st)
      with (v_warnings (mkV (v_errors st) (v_warnings st) [])).
    revert Hc.
    apply (for_each_invariant _ (fun a b => v_warnings b = v_warnings a)).
    - reflexivity.
    - intros a b c Hab Hbc. now rewrite Hbc.
    - intros s c s'. apply check_category_warnings. }
  rewrite Hst'. clear Hc Hst'.
  change (v_warnings st
          = v_warnings (mkV [] [] [])
            ++ flat_map View.own_warnings_of_product products).
  revert Hp. generalize (mkV [] [] []). 
  induction products as [|p ps IH]; intros st0 Hp; simpl in Hp.
  - injection Hp as <-. simpl. now rewrite app_nil_r.
  - apply res_bind_Ok in Hp. destruct Hp as (st1 & H1 & Hp).
    apply IH in Hp. apply check_product_warnings in H1.
    simpl. now rewrite Hp, H1, <- app_assoc.
Qed.

Lemma warnings_follow_the_products_witness :
  [ProductWithoutImage (JStr "Widget");
   ProductWithoutCategories (JStr "Maceta");
   ProductWithoutImage (JStr "Maceta")]
  = flat_map View.own_warnings_of_product
             [Samples.widget; Samples.dragon; Samples.priceless].
Proof.
  refine (warnings_follow_the_products
            [Samples.widget; Samples.dragon; Samples.priceless]
            [Samples.all; Samples.figuras; [("id", JStr "x")]]
            (mkReport false
               [ProductWithoutPrice (JStr "c");
                CategoryWithoutName (JStr "x")]
               [ProductWithoutImage (JStr "Widget");
                ProductWithoutCategories (JStr "Maceta");
                ProductWithoutImage (JStr "Maceta")]
               3 3) _).
  vm_compute. reflexivity.
Defined.

(* --- what a report without errors says ----------------------------- *)

Lemma snoc_not_nil {A} (l : list A) (x : A) : l ++ [x] <> [].
Proof. destruct l; discriminate. Qed.

Lemma set_mem_snoc (v : json) (s : pyset) (x : json) :
  set_mem v (s ++ [x]) = set_mem v s || same_or_equal v x.
Proof. unfold set_mem. rewrite existsb_app. simpl. now rewrite orb_false_r. Qed.

(** With no error after the id test, the id is one not met before, and
    it joins the ids met. *)
Lemma check_id_clean (a : issue) (d : json -> issue) (st st' : vstate)
      (r : dict) :
  check_id a d st r = Ok st' ->
  v_errors st' = [] ->
  v_errors st = []
  /\ set_mem (get "id" r) (v_ids st) = false
  /\ v_ids st' = v_ids st ++ [get "id" r].
Proof.
  unfold check_id. destruct (negb (truthy (get "id" r))).
  - intros [= <-] H. simpl in H. now apply snoc_not_nil in H.
  - intros H. apply res_bind_Ok in H. destruct H as (id & Hid & H).
    apply res_bind_Ok in H. destruct H as (met & Hmet & H).
    assert (Hget : get "id" r = id).
    { unfold getitem in Hid. unfold get, get_default.
      destruct (lookup "id" r); [now injection Hid | discriminate]. }
    unfold set_contains in Hmet.
    destruct (hashable id); [| discriminate]. injection Hmet as <-.
    rewrite Hget.
    destruct (set_mem id (v_ids st)) eqn:E; injection H as <-; simpl;
      intros He.
    + now apply snoc_not_nil in He.
    + auto.
Qed.

Lemma known_loop_clean (ids : pyset) (name : json) (cats : list json) :
  forall st st',
    for_each (fun st cat =>
                let? known := set_contains cat ids in
                if negb known then
                  Ok (add_error (UnknownCategory name cat) st)
                else Ok st)
             cats st = Ok st' ->
    v_errors st' = [] ->
    v_errors st = []
    /\ v_ids st' = v_ids st
    /\ Forall (fun cat => set_mem cat ids = true) cats.
Proof.
  induction cats as [|cat cats IH]; intros st st' H He; simpl in H.
  - injection H as <-. auto.
  - apply res_bind_Ok in H. destruct H as (st1 & H1 & H).
    destruct (IH _ _ H He) as (He1 & Hids & Hknown).
    apply res_bind_Ok in H1. destruct H1 as (known & Hk & H1).
    unfold set_contains in Hk.
    destruct (hashable cat); [| discriminate]. injection Hk as <-.
    destruct (set_mem cat ids) eqn:E; simpl in H1; injection H1 as <-.
    + auto.
    + simpl in He1. now apply snoc_not_nil in He1.
Qed.

Lemma check_categories_clean (ids : pyset) (p : dict) (st st' : vstate) :
  check_categories ids p st = Ok st' ->
  v_errors st' = [] ->
  v_errors st = []
  /\ v_ids st' = v_ids st
  /\ forall cats,
       lookup "categories" p = Some (JList cats) ->
       Forall (fun cat => set_mem cat ids = true) cats.
Proof.
  unfold check_categories. intros H He.
  apply res_bind_Ok in H. destruct H as (cats0 & Hiter & H).
  destruct (known_loop_clean _ _ _ _ _ H He) as (He0 & Hids & Hknown).
  repeat split; try assumption.
  intros cats Hcats. unfold get_default in Hiter. rewrite Hcats in Hiter.
  simpl in Hiter. now injection Hiter as <-.
Qed.

Lemma check_product_clean (ids : pyset) (st : vstate) (p : dict)
      (st' : vstate) :
  check_product ids st p = Ok st' ->
  v_errors st' = [] ->
  v_errors st = []
  /\ set_mem (get "id" p) (v_ids st) = false
  /\ v_ids st' = v_ids st ++ [get "id" p]
  /\ forall cats,
       lookup "categories" p = Some (JList cats) ->
       Forall (fun cat => set_mem cat ids = true) cats.
Proof.
  unfold check_product. intros H He.
  apply res_bind_Ok in H. destruct H as (st1 & H1 & H).
  apply res_bind_Ok in H. destruct H as (st4 & H4 & H).
  assert (H5 : v_errors st4 = [] /\ v_ids st' = v_ids st4).
  { destruct (negb (truthy (get "image" p))); injection H as <-; simpl in *;
      auto. }
  destruct H5 as [He4 Hids4]. clear H.
  match type of H4 with
  | (if _ then _ else check_categories _ _ ?s) = _ =>
      assert (H3 : v_errors s = [] ->
                   v_errors st1 = [] /\ v_ids s = v_ids st1)
  end.
  { destruct (price_missing p), (negb (truthy (get "name" p))); simpl;
      intros Hs; try (now apply snoc_not_nil in Hs); auto. }
  match type of H4 with
  | (if _ then _ else check_categories _ _ ?s) = _ =>
      assert (H34 : v_errors s = []
                    /\ v_ids st4 = v_ids s
                    /\ forall cats,
                         lookup "categories" p = Some (JList cats) ->
                         Forall (fun cat => set_mem cat ids = true) cats)
  end.
  { destruct (negb (truthy (get "categories" p))) eqn:Ec.
    - injection H4 as <-. simpl in He4. repeat split; try assumption.
      intros cats Hcats. unfold get, get_default in Ec. rewrite Hcats in Ec.
      destruct cats; [constructor | discriminate].
    - exact (check_categories_clean _ _ _ _ H4 He4). }
  destruct H34 as (Hs & Hids & Hcats).
  destruct (H3 Hs) as [He1 Hids1].
  destruct (check_id_clean _ _ _ _ _ H1 He1) as (He0 & Hmem & Hid1).
  repeat split; try assumption. congruence.
Qed.

Lemma check_category_clean (st : vstate) (c : dict) (st' : vstate) :
  check_category st c = Ok st' ->
  v_errors st' = [] ->
  v_errors st = []
  /\ set_mem (get "id" c) (v_ids st) = false
  /\ v_ids st' = v_ids st ++ [get "id" c].
Proof.
  unfold check_category. intros H He.
  apply res_bind_Ok in H. destruct H as (st1 & H1 & H).
  destruct (negb (truthy (get "name" c))); injection H as <-.
  - simpl in He. now apply snoc_not_nil in He.
  - exact (check_id_clean _ _ _ _ _ H1 He).
Qed.

(** A loop that ends without an error met no id twice. *)
Lemma loop_distinct (body : vstate -> dict -> res vstate) :
  (forall st r st',
      body st r = Ok st' -> v_errors st' = [] ->
      v_errors st = []
      /\ set_mem (get "id" r) (v_ids st) = false
      /\ v_ids st' = v_ids st ++ [get "id" r]) ->
  forall rs st st',
    for_each body rs st = Ok st' -> v_errors st' = [] ->
    v_errors st = []
    /\ Forall (fun r => set_mem (get "id" r) (v_ids st) = false) rs
    /\ View.distinct_ids rs.
Proof.
  intros Hbody. unfold View.distinct_ids.
  induction rs as [|r rs IH]; intros st st' H He; simpl in H.
  - injection H as <-. repeat split; [exact He | constructor | constructor].
  - apply res_bind_Ok in H. destruct H as (st1 & H1 & H).
    destruct (IH _ _ H He) as (He1 & Hfresh & Hdist).
    destruct (Hbody _ _ _ H1 He1) as (He0 & Hmem & Hids).
    rewrite Hids in Hfresh.
    split; [exact He0 |]. split.
    + constructor; [exact Hmem |].
      eapply Forall_impl; [| exact Hfresh].
      intros q Hq. simpl in Hq. rewrite set_mem_snoc in Hq.
      now apply orb_false_iff in Hq.
    + constructor; [| exact Hdist].
      eapply Forall_impl; [| exact Hfresh].
      intros q Hq. simpl in Hq. rewrite set_mem_snoc in Hq.
      now apply orb_false_iff in Hq.
Qed.

Lemma loop_clean_all {X} (body : vstate -> X -> res vstate) (P : X -> Prop) :
  (forall st x st',
      body st x = Ok st' -> v_errors st' = [] -> v_errors st = [] /\ P x) ->
  forall xs st st',
    for_each body xs st = Ok st' -> v_errors st' = [] ->
    v_errors st = [] /\ Forall P xs.
Proof.
  intros Hbody. induction xs as [|x xs IH]; intros st st' H He; simpl in H.
  - injection H as <-. split; [exact He | constructor].
  - apply res_bind_Ok in H. destruct H as (st1 & H1 & H).
    destruct (IH _ _ H He) as (He1 & Hxs).
    destruct (Hbody _ _ _ H1 He1) as (He0 & Hx).
    split; [exact He0 | now constructor].
Qed.

(** The members of [category_ids] are ids of categories. *)
Lemma category_id_set_members (categories : list dict) :
  forall ids0 ids,
    for_each (fun ids c =>
                let? v := getitem "id" c in
                if hashable v then Ok (set_add v ids) else Raise TypeError)
             categories ids0 = Ok ids ->
    forall v, In v ids ->
              In v ids0
              \/ exists c, In c categories /\ lookup "id" c = Some v.
Proof.
  induction categories as [|c cs IH]; intros ids0 ids H v Hin; simpl in H.
  - injection H as <-. now left.
  - apply res_bind_Ok in H. destruct H as (ids1 & H1 & H).
    apply res_bind_Ok in H1. destruct H1 as (v0 & Hv0 & H1).
    unfold getitem in Hv0.
    destruct (lookup "id" c) as [x|] eqn:Hc; [| discriminate].
    injection Hv0 as ->.
    destruct (hashable v0); [| discriminate]. injection H1 as <-.
    destruct (IH _ _ H v Hin) as [Hin1 | (c' & Hc' & Hid)].
    + unfold set_add in Hin1. destruct (set_mem v0 ids0).
      * now left.
      * apply in_app_or in Hin1. destruct Hin1 as [Hin1 | [<- | []]].
        -- now left.
        -- right. exists c. split; [now left | exact Hc].
    + right. exists c'. split; [now right | exact Hid].
Qed.

Lemma known_text_is_stored (categories : list dict) (ids : pyset)
      (s : string) :
  category_id_set categories = Ok ids ->
  set_mem (JStr s) ids = true ->
  View.stored_id s categories.
Proof.
  unfold category_id_set, set_mem. intros H Hm.
  apply existsb_exists in Hm. destruct Hm as (x & Hin & Hx).
  destruct (category_id_set_members _ _ _ H x Hin) as [[] | (c & Hc & Hid)].
  exists c. split; [exact Hc |].
  unfold same_or_equal in Hx. simpl in Hx.
  destruct x; try discriminate. simpl in Hx.
  apply String.eqb_eq in Hx. now subst.
Qed.

(** A report without errors: no id is met twice, in either file, and the
    categories of every product are members of [category_ids]. *)
Lemma validate_clean (products categories : list dict) (rep : report) :
  validate products categories = Ok rep ->
  valid rep = true ->
  exists ids,
    category_id_set categories = Ok ids
    /\ View.distinct_ids products
    /\ View.distinct_ids categories
    /\ Forall (fun p => forall cats,
                   lookup "categories" p = Some (JList cats) ->
                   Forall (fun cat => set_mem cat ids = true) cats)
              products.
Proof.
  unfold validate. intros H.
  apply res_bind_Ok in H. destruct H as (ids & Hids & H).
  apply res_bind_Ok in H. destruct H as (st & Hp & H).
  apply res_bind_Ok in H. destruct H as (st' & Hc & H).
  injection H as <-. simpl. intros Hv.
  assert (He : v_errors st' = [])
    by (destruct (v_errors st'); [reflexivity | discriminate]).
  destruct (loop_distinct _ check_category_clean _ _ _ Hc He)
    as (He1 & _ & Hdc).
  simpl in He1.
  destruct (loop_distinct (check_product ids)
              (fun a r b Hb Hn =>
                 let H := check_product_clean ids a r b Hb Hn in
                 conj (proj1 H)
                      (conj (proj1 (proj2 H)) (proj1 (proj2 (proj2 H)))))
              _ _ _ Hp He1) as (_ & _ & Hdp).
  destruct (loop_clean_all (check_product ids)
              (fun p => forall cats,
                   lookup "categories" p = Some (JList cats) ->
                   Forall (fun cat => set_mem cat ids = true) cats)
              (fun a r b Hb Hn =>
                 let H := check_product_clean ids a r b Hb Hn in
                 conj (proj1 H) (proj2 (proj2 (proj2 H))))
              _ _ _ Hp He1) as (_ & Hknown).
  exists ids. auto.
Qed.

Lemma flat_map_nil {X Y} (f : X -> list Y) (xs : list X) :
  flat_map f xs = [] -> Forall (fun x => f x = []) xs.
Proof.
  induction xs as [|x xs IH]; simpl; [constructor |].
  intros H. apply app_eq_nil in H. destruct H as [Hx Hxs].
  constructor; auto.
Qed.

(** X21. In a catalog whose report has no error, every product has an
    id, a name and a price that the validator takes as given (0 is one),
    and every category has an id and a name. *)
Theorem valid_catalog_is_complete
        (products categories : list dict) (rep : report) :
  validate products categories = Ok rep ->
  valid rep = true ->
  Forall View.complete_product products
  /\ Forall View.complete_category categories.
Proof.
  intros H Hv. pose proof (validate_own_errors _ _ _ H) as Hown.
  rewrite (validate_valid _ _ _ H) in Hv.
  destruct (errors rep); [| discriminate]. simpl in Hown.
  symmetry in Hown. apply app_eq_nil in Hown. destruct Hown as [Hp Hc].
  apply flat_map_nil in Hp. apply flat_map_nil in Hc. split.
  - eapply Forall_impl; [| exact Hp]. intros p Hnone.
    unfold Spec.own_errors_of_product in Hnone. unfold View.complete_product.
    destruct (Spec.id_missing p), (Spec.name_missing p), (price_missing p);
      try discriminate. auto.
  - eapply Forall_impl; [| exact Hc]. intros c Hnone.
    unfold Spec.own_errors_of_category in Hnone.
    unfold View.complete_category.
    destruct (Spec.id_missing c), (Spec.name_missing c);
      try discriminate. auto.
Qed.

Lemma valid_catalog_is_complete_witness :
  Forall View.complete_product (products_file Samples.shop)
  /\ Forall View.complete_category (categories_file Samples.shop).
Proof.
  refine (valid_catalog_is_complete
            (products_file Samples.shop) (categories_file Samples.shop)
            (mkReport true [] [] 1 2) _ _).
  - vm_compute. reflexivity.
  - reflexivity.
Defined.

(** X22. In a catalog whose report has no error, no two products have
    the same id and no two categories have the same id, ids being
    compared as a set compares them. *)
Theorem valid_catalog_has_distinct_ids
        (products categories : list dict) (rep : report) :
  validate products categories = Ok rep ->
  valid rep = true ->
  View.distinct_ids products /\ View.distinct_ids categories.
Proof.
  intros H Hv.
  destruct (validate_clean _ _ _ H Hv) as (ids & _ & Hp & Hc & _).
  now split.
Qed.

Lemma valid_catalog_has_distinct_ids_witness :
  View.distinct_ids (products_file Samples.shop)
  /\ View.distinct_ids (categories_file Samples.shop).
Proof.
  refine (valid_catalog_has_distinct_ids
            (products_file Samples.shop) (categories_file Samples.shop)
            (mkReport true [] [] 1 2) _ _).
  - vm_compute. reflexivity.
  - reflexivity.
Defined.

Lemma valid_references (products categories : list dict) (rep : report)
      (p : dict) (cats : list json) (s : string) :
  validate products categories = Ok rep ->
  valid rep = true ->
  In p products ->
  lookup "categories" p = Some (JList cats) ->
  In (JStr s) cats ->
  View.stored_id s categories.
Proof.
  intros H Hv Hp Hcats Hs.
  destruct (validate_clean _ _ _ H Hv) as (ids & Hids & _ & _ & Hknown).
  rewrite Forall_forall in Hknown. specialize (Hknown p Hp cats Hcats).
  rewrite Forall_forall in Hknown.
  exact (known_text_is_stored _ _ _ Hids (Hknown _ Hs)).
Qed.

(** X23. In a catalog whose report has no error, every category a
    product names in its list of categories is the id of a stored
    category. *)
Theorem valid_catalog_has_no_dangling_category
        (products categories : list dict) (rep : report)
        (p : dict) (cats : list json) (s : string) :
  validate products categories = Ok rep ->
  valid rep = true ->
  In p products ->
  lookup "categories" p = Some (JList cats) ->
  In (JStr s) cats ->
  View.stored_id s categories.
Proof. apply valid_references. Qed.

Lemma valid_catalog_has_no_dangling_category_witness :
  View.stored_id "figuras" (categories_file Samples.shop).
Proof.
  refine (valid_catalog_has_no_dangling_category
            (products_file Samples.shop) (categories_file Samples.shop)
            (mkReport true [] [] 1 2) Samples.dragon [JStr "figuras"]
            "figuras" _ _ _ _ _).
  - vm_compute. reflexivity.
  - reflexivity.
  - left. reflexivity.
  - reflexivity.
  - left. reflexivity.
Defined.

(** A list comprehension over [r['id']] that ends has read every id. *)
Lemma without_id_Ok (unwanted : string) (records kept : list dict) :
  without_id unwanted records = Ok kept ->
  kept = filter (View.other_id unwanted) records.
Proof.
  revert kept. induction records as [|r rs IH]; intros kept H; simpl in H.
  - now injection H as <-.
  - apply res_bind_Ok in H. destruct H as (id & Hid & H).
    apply res_bind_Ok in H. destruct H as (rest & Hrest & H).
    unfold getitem in Hid.
    destruct (lookup "id" r) as [v|] eqn:Hr; [| discriminate].
    injection Hid as ->. injection H as <-.
    simpl. unfold View.other_id at 1, get, get_default. rewrite Hr.
    now rewrite (IH _ Hrest).
Qed.

(** X24. Deleting a category that a product still names blocks the
    checkpoint: after the delete, no commit request answers success or
    runs a command, until the catalog is repaired. *)
Theorem used_category_deleted_blocks_commit
        (e : env) (s : string) (w w' : world) (p : dict) (cats : list json) :
  In p (products_file w) ->
  lookup "categories" p = Some (JList cats) ->
  In (JStr s) cats ->
  delete_category s w = (Ok category_deleted, w') ->
  forall answer w'',
    api_commit e w' = (answer, w'') ->
    w'' = w'
    /\ (answer
        = Ok (jsonify (mkOutcome false "La base de datos tiene errores"))
        \/ exists x, answer = Raise x).
Proof.
  intros Hp Hcats Hs Hdel answer w'' Hcommit.
  unfold delete_category, bind, load_categories, lift, ret, save_categories
    in Hdel.
  destruct (without_id s (categories_file w)) as [kept|] eqn:Hkept;
    [| discriminate].
  apply without_id_Ok in Hkept.
  destruct (writable kept); [| discriminate].
  simpl in Hdel. injection Hdel as <-.
  unfold api_commit, bind in Hcommit. rewrite validate_database_run in Hcommit.
  simpl in Hcommit.
  destruct (validate (products_file w) kept) as [rep|x] eqn:Hrep.
  - destruct (valid rep) eqn:Hv; simpl in Hcommit.
    + exfalso.
      destruct (valid_references _ _ _ _ _ _ Hrep Hv Hp Hcats Hs)
        as (c & Hc & Hid).
      rewrite Hkept in Hc. apply filter_In in Hc. destruct Hc as [_ Hc].
      rewrite (other_id_of_lookup _ _ Hid) in Hc. discriminate.
    + unfold ret in Hcommit. injection Hcommit as <- <-. auto.
  - injection Hcommit as <- <-. eauto.
Qed.

Lemma used_category_deleted_blocks_commit_witness :
  snd (api_commit Cases.dirty_env (snd (delete_category "figuras" Samples.shop)))
  = snd (delete_category "figuras" Samples.shop)
  /\ (fst (api_commit Cases.dirty_env
             (snd (delete_category "figuras" Samples.shop)))
      = Ok (jsonify (mkOutcome false "La base de datos tiene errores"))
      \/ exists x,
          fst (api_commit Cases.dirty_env
                 (snd (delete_category "figuras" Samples.shop)))
          = Raise x).
Proof.
  refine (used_category_deleted_blocks_commit
            Cases.dirty_env "figuras" Samples.shop _ Samples.dragon
            [JStr "figuras"] _ _ _ _ _ _ _).
  - left. reflexivity.
  - reflexivity.
  - left. reflexivity.
  - vm_compute. reflexivity.
  - vm_compute. reflexivity.
Defined.

(* ================================================================== *)
(** ** Further properties: catalogs the routes write                   *)
(* ================================================================== *)

Lemma id_not_written_product : ~ In "id" View.product_keys_written.
Proof.
  unfold View.product_keys_written. simpl. intros H.
  repeat (destruct H as [H | H]; [discriminate |]). exact H.
Qed.

Lemma id_not_written_category : ~ In "id" View.category_keys_written.
Proof.
  unfold View.category_keys_written. simpl. intros H.
  repeat (destruct H as [H | H]; [discriminate |]). exact H.
Qed.

Lemma new_product_record_routed (e : env) (rq : request)
      (new_id name : string) (price : spec_float) :
  View.routed_product (new_product_record e rq new_id name price).
Proof.
  split.
  - exists new_id. apply new_product_record_id.
  - exists (form_getlist "categories" rq). apply new_product_record_fields.
Qed.

Lemma edited_product_routed (e : env) (rq : request) (name : string)
      (price : spec_float) (old : dict) (id : string) :
  lookup "id" old = Some (JStr id) ->
  View.routed_product (edited_product e rq name price old).
Proof.
  intros Hid. split.
  - exists id.
    now rewrite (edited_product_other_keys _ _ _ _ _ _ id_not_written_product).
  - exists (form_getlist "categories" rq). apply edited_product_fields.
Qed.

Lemma edited_category_routed (rq : request) (name : string) (old : dict)
      (id : string) :
  lookup "id" old = Some (JStr id) ->
  View.routed_category (edited_category rq name old).
Proof.
  intros Hid. exists id.
  now rewrite (edited_category_other_keys _ _ _ _ id_not_written_category).
Qed.

Lemma Forall_replace {A} (P : A -> Prop) (before after : list A)
      (old new : A) :
  Forall P (before ++ old :: after) -> P new ->
  Forall P (before ++ new :: after).
Proof.
  intros H Hn. apply Forall_app in H. destruct H as [Hb Ha].
  inversion Ha; subst. apply Forall_app. split; [exact Hb |].
  now constructor.
Qed.

Ltac routed_as_before H :=
  solve [ destruct H; split; simpl; assumption ].

(** A file cut off by a write that failed loads as the empty list. *)
Ltac routed_when_cut_off H :=
  solve [ destruct H; split; simpl; first [ assumption | constructor ] ].

Lemma new_product_routed (e : env) (rq : request) (w : world) :
  View.routed w -> View.routed (snd (new_product e rq w)).
Proof.
  intros H.
  unfold new_product, bind, load_products, load_categories, lift, ret,
    save_products.
  destruct (method rq); [routed_as_before H |].
  destruct (form_getitem "id" rq); [| routed_as_before H].
  destruct (any_id _ _) as [[|]|]; try routed_as_before H.
  destruct (form_getitem "name" rq); [| routed_as_before H].
  destruct (form_price e rq); [| routed_as_before H].
  destruct (writable _); [| routed_when_cut_off H].
  destruct H as [Hp Hc]. split; simpl; [| exact Hc].
  apply Forall_app. split; [exact Hp |].
  constructor; [apply new_product_record_routed | constructor].
Qed.

Lemma edit_product_routed (e : env) (id : string) (rq : request) (w : world) :
  View.routed w -> View.routed (snd (edit_product e id rq w)).
Proof.
  intros H.
  unfold edit_product, bind, load_products, load_categories, lift, ret,
    save_products.
  destruct (find_by_id id (products_file w))
    as [[[[before old] after]|]|] eqn:Hfind; try routed_as_before H.
  destruct (negb (truthy (JDict old))); [routed_as_before H |].
  destruct (method rq); [routed_as_before H |].
  destruct (form_getitem "name" rq) as [name|]; [| routed_as_before H].
  destruct (form_price e rq) as [price|]; [| routed_as_before H].
  apply find_by_id_split in Hfind. destruct Hfind as [Hsplit Hid].
  destruct (writable _); [| routed_when_cut_off H].
  destruct H as [Hp Hc]. split; simpl; [| exact Hc].
  rewrite Hsplit in Hp.
  apply (Forall_replace _ _ _ _ _ Hp).
  exact (edited_product_routed _ _ _ _ _ _ Hid).
Qed.

Lemma delete_product_routed (id : string) (w : world) :
  View.routed w -> View.routed (snd (delete_product id w)).
Proof.
  intros H. unfold delete_product, bind, load_products, lift, ret,
    save_products.
  destruct (without_id id (products_file w)) as [kept|] eqn:Hkept;
    [| routed_as_before H].
  apply without_id_Ok in Hkept. subst kept.
  destruct (writable _); [| routed_when_cut_off H].
  destruct H as [Hp Hc]. split; simpl; [| exact Hc].
  now apply Forall_filter.
Qed.

Lemma new_category_routed (e : env) (rq : request) (w : world) :
  View.routed w -> View.routed (snd (new_category e rq w)).
Proof.
  intros H.
  unfold new_category, bind, load_categories, lift, ret, save_categories.
  destruct (method rq); [routed_as_before H |].
  destruct (form_getitem "id" rq); [| routed_as_before H].
  destruct (any_id _ _) as [[|]|]; try routed_as_before H.
  destruct (form_getitem "name" rq); [| routed_as_before H].
  destruct (writable _); [| routed_when_cut_off H].
  destruct H as [Hp Hc]. split; simpl; [exact Hp |].
  apply Forall_app. split; [exact Hc |].
  constructor; [| constructor].
  eexists. apply new_category_record_id.
Qed.

Lemma edit_category_routed (id : string) (rq : request) (w : world) :
  View.routed w -> View.routed (snd (edit_category id rq w)).
Proof.
  intros H.
  unfold edit_category, bind, load_categories, lift, ret, save_categories.
  destruct (find_by_id id (categories_file w))
    as [[[[before old] after]|]|] eqn:Hfind; try routed_as_before H.
  destruct (negb (truthy (JDict old))); [routed_as_before H |].
  destruct (method rq); [routed_as_before H |].
  destruct (form_getitem "name" rq) as [name|]; [| routed_as_before H].
  apply find_by_id_split in Hfind. destruct Hfind as [Hsplit Hid].
  destruct (writable _); [| routed_when_cut_off H].
  destruct H as [Hp Hc]. split; simpl; [exact Hp |].
  rewrite Hsplit in Hc.
  apply (Forall_replace _ _ _ _ _ Hc).
  exact (edited_category_routed _ _ _ _ Hid).
Qed.

Lemma delete_category_routed (id : string) (w : world) :
  View.routed w -> View.routed (snd (delete_category id w)).
Proof.
  intros H. unfold delete_category, bind, load_categories, lift, ret,
    save_categories.
  destruct (without_id id (categories_file w)) as [kept|] eqn:Hkept;
    [| routed_as_before H].
  apply without_id_Ok in Hkept. subst kept.
  destruct (writable _); [| routed_when_cut_off H].
  destruct H as [Hp Hc]. split; simpl; [exact Hp |].
  now apply Forall_filter.
Qed.

(** X25. The six mutation routes keep the catalog in the shape the
    validator reads without fail: when every stored product has a text
    as id and a list of texts as categories, and every stored category a
    text as id, so it is after any request to any of them, however the
    request ends. *)
Theorem routes_keep_catalog_routed
        (e : env) (id : string) (rq : request) (w : world) :
  View.routed w ->
  Forall (fun m : M response => View.routed (snd (m w)))
         [new_product e rq; edit_product e id rq; delete_product id;
          new_category e rq; edit_category id rq; delete_category id].
Proof.
  intros H. repeat (apply Forall_cons; [| try apply Forall_nil]).
  - now apply new_product_routed.
  - now apply edit_product_routed.
  - now apply delete_product_routed.
  - now apply new_category_routed.
  - now apply edit_category_routed.
  - now apply delete_category_routed.
Qed.

Lemma routes_keep_catalog_routed_witness :
  Forall (fun m : M response => View.routed (snd (m Samples.shop)))
         [new_product Samples.clean_env Samples.create_fenix;
          edit_product Samples.clean_env "dragon" Samples.create_fenix;
          delete_product "dragon";
          new_category Samples.clean_env Samples.create_fenix;
          edit_category "dragon" Samples.create_fenix;
          delete_category "dragon"].
Proof.
  apply (routes_keep_catalog_routed
           Samples.clean_env "dragon" Samples.create_fenix Samples.shop).
  split; simpl.
  - constructor; [| constructor].
    split; [exists "dragon" | exists ["figuras"]]; reflexivity.
  - constructor; [exists "all"; reflexivity |].
    constructor; [exists "figuras"; reflexivity | constructor].
Defined.

(* --- validation of such catalogs ----------------------------------- *)

Lemma category_id_set_total (categories : list dict) :
  Forall View.routed_category categories ->
  forall ids0, exists ids,
    for_each (fun ids c =>
                let? v := getitem "id" c in
                if hashable v then Ok (set_add v ids) else Raise TypeError)
             categories ids0 = Ok ids.
Proof.
  induction 1 as [|c cs [s Hc] Hcs IH]; intros ids0; simpl; [eauto |].
  unfold getitem. rewrite Hc. simpl. apply IH.
Qed.

Lemma check_id_total (a : issue) (d : json -> issue) (st : vstate) (r : dict) :
  (exists s, lookup "id" r = Some (JStr s)) ->
  exists st', check_id a d st r = Ok st'.
Proof.
  intros [s Hr]. unfold check_id, getitem, get, get_default, set_contains.
  rewrite Hr. destruct (negb (truthy (JStr s))); [eauto |]. simpl.
  destruct (set_mem (JStr s) (v_ids st)); eauto.
Qed.

Lemma known_loop_total (ids : pyset) (name : json) (l : list string) :
  forall st, exists st',
    for_each (fun st cat =>
                let? known := set_contains cat ids in
                if negb known then
                  Ok (add_error (UnknownCategory name cat) st)
                else Ok st)
             (map JStr l) st = Ok st'.
Proof.
  induction l as [|s l IH]; intros st; simpl; [eauto |].
  unfold set_contains at 1. simpl.
  destruct (negb (set_mem (JStr s) ids)); simpl; apply IH.
Qed.

Lemma check_categories_total (ids : pyset) (p : dict) (st : vstate)
      (l : list string) :
  lookup "categories" p = Some (json_strings l) ->
  exists st', check_categories ids p st = Ok st'.
Proof.
  intros H. unfold check_categories, get_default. rewrite H. simpl.
  apply known_loop_total.
Qed.

Lemma check_product_total (ids : pyset) (st : vstate) (p : dict) :
  View.routed_product p -> exists st', check_product ids st p = Ok st'.
Proof.
  intros [Hid [l Hcats]]. unfold check_product.
  destruct (check_id_total ProductWithoutId DuplicateProductId st p Hid)
    as [st1 ->].
  cbv beta iota zeta delta [res_bind].
  match goal with
  | |- context [check_categories ids p ?s] =>
      destruct (check_categories_total ids p s l Hcats) as [st4 ->]
  end.
  destruct (negb (truthy (get "categories" p)));
    destruct (negb (truthy (get "image" p))); eauto.
Qed.

Lemma check_category_total (st : vstate) (c : dict) :
  View.routed_category c -> exists st', check_category st c = Ok st'.
Proof.
  intros Hid. unfold check_category.
  destruct (check_id_total CategoryWithoutId DuplicateCategoryId st c Hid)
    as [st1 ->].
  simpl. destruct (negb (truthy (get "name" c))); eauto.
Qed.

Lemma for_each_total {S X} (body : S -> X -> res S) (P : X -> Prop) :
  (forall st x, P x -> exists st', body st x = Ok st') ->
  forall xs, Forall P xs ->
             forall st, exists st', for_each body xs st = Ok st'.
Proof.
  intros Hbody xs H. induction H as [|x xs Hx Hxs IH]; intros st; simpl;
    [eauto |].
  destruct (Hbody st x Hx) as [st1 ->]. simpl. apply IH.
Qed.

Lemma validate_total (products categories : list dict) :
  Forall View.routed_product products ->
  Forall View.routed_category categories ->
  exists rep, validate products categories = Ok rep.
Proof.
  intros Hp Hc. unfold validate, category_id_set.
  destruct (category_id_set_total categories Hc []) as [ids ->]. simpl.
  destruct (for_each_total (check_product ids) _
              (fun st p => check_product_total ids st p)
              products Hp (mkV [] [] [])) as [st ->]. simpl.
  destruct (for_each_total check_category _ check_category_total
              categories Hc (mkV (v_errors st) (v_warnings st) []))
    as [st' ->]. simpl. eauto.
Qed.

(** X26. On a catalog in which every product has a text as id and a
    list of texts as categories, and every category a text as id,
    validation never raises: [api_validate] answers with a report and
    leaves the world as it is, and [api_commit] answers with a result. *)
Theorem routed_catalog_always_validates (e : env) (w : world) :
  View.routed w ->
  (exists rep, api_validate w = (Ok (jsonify_report rep), w))
  /\ (exists answer w', api_commit e w = (Ok (jsonify answer), w')).
Proof.
  intros [Hp Hc]. destruct (validate_total _ _ Hp Hc) as [rep Hrep]. split.
  - exists rep. unfold api_validate, bind.
    now rewrite validate_database_run, Hrep.
  - unfold api_commit, bind. rewrite validate_database_run, Hrep.
    destruct (negb (valid rep)).
    + do 2 eexists. reflexivity.
    + destruct (git_commit_runs_git_add e (commit_message e) w)
        as (result & later & ->).
      do 2 eexists. reflexivity.
Qed.

Lemma routed_catalog_always_validates_witness :
  (exists rep,
      api_validate Samples.widget_world = (Ok (jsonify_report rep),
                                           Samples.widget_world))
  /\ (exists answer w',
         api_commit Samples.clean_env Samples.widget_world
         = (Ok (jsonify answer), w')).
Proof.
  apply (routed_catalog_always_validates
           Samples.clean_env Samples.widget_world).
  split; simpl.
  - constructor; [| constructor].
    split; [exists "a" | exists ["x"]]; reflexivity.
  - constructor.
Defined.
